(** * Batch audio converters: CAF -> WAV and 32-bit WAV -> 24/16-bit WAV

    A shallow embedding of the three Python programs of the repository

      - [caf_to_wav_gui.py]          (module [CafGui]),
      - [wav_bit_depth_converter.py] (module [WavDepth]),
      - [caf_to_wav32.py]            (module [CafCli]),

    together with the parts of the Python library they rely on: [str]
    methods (module [PyStr]), [os.path] in its POSIX flavour (module
    [PosixPath]) and [pathlib.PurePosixPath] (module [PurePath]).

    The operating system, the [ffmpeg] subprocess and the [soundfile]
    library are external collaborators.  They are gathered in the class
    [OS]: every program is a function of an arbitrary [os : OS], threads the
    file-system state explicitly and emits the user-visible events (log
    lines, progress updates, message boxes) and the collaborator calls it
    makes as a trace. *)

From Stdlib Require Import String Ascii List Bool Arith Lia ZArith.
From Stdlib Require Import DecimalString.
Import ListNotations.
Local Open Scope list_scope.
Local Open Scope string_scope.

(* ================================================================== *)
(** * Python [str] methods used by the programs *)
(* ================================================================== *)

Module PyStr.

(** [c.lower()] on the ASCII range; bytes of multi-byte characters are
    left alone. *)
Definition lower_ascii (c : ascii) : ascii :=
  let n := nat_of_ascii c in
  if ((65 <=? n) && (n <=? 90))%nat then ascii_of_nat (n + 32) else c.

Fixpoint lower (s : string) : string :=
  match s with
  | EmptyString => EmptyString
  | String c r => String (lower_ascii c) (lower r)
  end.

(** [s.startswith(pre)] *)
Fixpoint startswith (s pre : string) {struct pre} : bool :=
  match pre with
  | EmptyString => true
  | String a pre' =>
      match s with
      | EmptyString => false
      | String b s' => Ascii.eqb a b && startswith s' pre'
      end
  end.

(** [s.endswith(suf)]: [suf] is [s[k:]] for some [k]. *)
Fixpoint endswith (s suf : string) : bool :=
  (s =? suf)
  || match s with
     | EmptyString => false
     | String _ r => endswith r suf
     end.

(** [sub in s] *)
Fixpoint contains (sub s : string) : bool :=
  startswith s sub
  || match s with
     | EmptyString => false
     | String _ r => contains sub r
     end.

(** [s.split(sep)] for a one-character separator: never the empty list. *)
Fixpoint split (sep : ascii) (s : string) : list string :=
  match s with
  | EmptyString => [EmptyString]
  | String c r =>
      if Ascii.eqb c sep then EmptyString :: split sep r
      else match split sep r with
           | [] => [String c EmptyString]
           | h :: t => String c h :: t
           end
  end.

(** [sep.join(l)] *)
Fixpoint join (sep : string) (l : list string) : string :=
  match l with
  | [] => EmptyString
  | x :: r =>
      match r with
      | [] => x
      | _ :: _ => x ++ sep ++ join sep r
      end
  end.

(** Iterating a [str] yields its characters, each a [str] of length one. *)
Fixpoint chars (s : string) : list string :=
  match s with
  | EmptyString => []
  | String c r => String c EmptyString :: chars r
  end.

(** [l[-n:]] for [n > 0] *)
Definition last_n {A : Type} (n : nat) (l : list A) : list A :=
  skipn (List.length l - n) l.

(** [s.rstrip(...)] for the characters satisfying [p] *)
Fixpoint rstrip_if (p : ascii -> bool) (s : string) : string :=
  match s with
  | EmptyString => EmptyString
  | String c r =>
      let r' := rstrip_if p r in
      if (r' =? EmptyString) && p c then EmptyString else String c r'
  end.

(** A [str] is held as its UTF-8 encoding: a character is a byte that is
    not a continuation byte (10xxxxxx) together with the continuation
    bytes after it.  [utf8 n] is the encoding of the code point [n], for
    [n] below 0x10000. *)
Definition utf8 (n : N) : string :=
  (if n <? 128 then String (ascii_of_N n) EmptyString
   else if n <? 2048 then
     String (ascii_of_N (192 + n / 64))
       (String (ascii_of_N (128 + n mod 64)) EmptyString)
   else
     String (ascii_of_N (224 + n / 4096))
       (String (ascii_of_N (128 + (n / 64) mod 64))
          (String (ascii_of_N (128 + n mod 64)) EmptyString)))%N.

Definition is_continuation (c : ascii) : bool :=
  let n := nat_of_ascii c in
  ((128 <=? n) && (n <? 192))%nat.

(** [len(s)]: the number of characters of [s] *)
Fixpoint len (s : string) : nat :=
  match s with
  | EmptyString => 0
  | String c r => (if is_continuation c then 0 else 1) + len r
  end.

(** [s[-n:]] for [n > 0]: the last [n] characters of [s], all of [s] when
    it has no more. *)
Fixpoint last_chars (n : nat) (s : string) : string :=
  match s with
  | EmptyString => EmptyString
  | String c r =>
      if (len s <=? n)%nat && negb (is_continuation c) then s else last_chars n r
  end.

(** The code points [str.isspace] holds of: U+0009..U+000D, U+001C..U+0020,
    U+0085, U+00A0, U+1680, U+2000..U+200A, U+2028, U+2029, U+202F, U+205F
    and U+3000. *)
Definition whitespace : list N :=
  [9; 10; 11; 12; 13; 28; 29; 30; 31; 32; 133; 160; 5760;
   8192; 8193; 8194; 8195; 8196; 8197; 8198; 8199; 8200; 8201; 8202;
   8232; 8233; 8239; 8287; 12288]%N.

(** ... and their encodings. *)
Definition spaces : list string := Eval vm_compute in map utf8 whitespace.

(** [s[len(pre):]] when [s.startswith(pre)] *)
Fixpoint after_prefix (pre s : string) : option string :=
  match pre with
  | EmptyString => Some s
  | String a pre' =>
      match s with
      | EmptyString => None
      | String b s' => if Ascii.eqb a b then after_prefix pre' s' else None
      end
  end.

(** [s[1:]] when [s[0].isspace()] *)
Definition after_space (s : string) : option string :=
  fold_right
    (fun w found =>
       match after_prefix w s with
       | Some r => Some r
       | None => found
       end)
    None spaces.

(** [s.lstrip()], at most [k] characters being removed *)
Fixpoint lstrip_upto (k : nat) (s : string) : string :=
  match k with
  | O => s
  | S k' =>
      match after_space s with
      | Some r => lstrip_upto k' r
      | None => s
      end
  end.

(** [s.lstrip()]: a string has no more characters than bytes. *)
Definition lstrip (s : string) : string := lstrip_upto (String.length s) s.

(** [s.rstrip()]: [s[:i]] for the least [i] with white space only in
    [s[i:]]. *)
Fixpoint rstrip (s : string) : string :=
  match s with
  | EmptyString => EmptyString
  | String c r =>
      if lstrip s =? EmptyString then EmptyString else String c (rstrip r)
  end.

(** [s.strip()] *)
Definition strip (s : string) : string := rstrip (lstrip s).

(** [str(n)] for a non-negative [int] *)
Definition str_of_nat (n : nat) : string :=
  NilEmpty.string_of_uint (Nat.to_uint n).

(** [s * n] *)
Fixpoint repeat_str (s : string) (n : nat) : string :=
  match n with
  | O => EmptyString
  | S k => s ++ repeat_str s k
  end.

(** every character of [s] satisfies [p] (true on the empty string) *)
Fixpoint all_chars (p : ascii -> bool) (s : string) : bool :=
  match s with
  | EmptyString => true
  | String c r => p c && all_chars p r
  end.

(** Python truthiness of a [str] *)
Definition truthy (s : string) : bool := negb (s =? EmptyString).

End PyStr.

(* ================================================================== *)
(** * [os.path] (posixpath) *)
(* ================================================================== *)

Module PosixPath.
Import PyStr.

Definition is_sep (c : ascii) : bool := Ascii.eqb c "/"%char.
Definition is_dot (c : ascii) : bool := Ascii.eqb c "."%char.

(** [(p[:i], p[i:])] where [i = p.rfind('/') + 1] *)
Fixpoint split_last_sep (p : string) : string * string :=
  match p with
  | EmptyString => (EmptyString, EmptyString)
  | String c r =>
      let '(h, t) := split_last_sep r in
      if negb (h =? EmptyString) then (String c h, t)
      else if is_sep c then (String c EmptyString, t)
      else (EmptyString, String c t)
  end.

(** [os.path.basename] *)
Definition basename (p : string) : string := snd (split_last_sep p).

(** [os.path.dirname]: the head up to the last slash, its trailing slashes
    removed unless it consists of slashes only. *)
Definition dirname (p : string) : string :=
  let head := fst (split_last_sep p) in
  if truthy head && negb (all_chars is_sep head)
  then rstrip_if is_sep head
  else head.

(** [os.path.join(a, b)] *)
Definition join2 (a b : string) : string :=
  if startswith b "/" then b
  else if negb (truthy a) || endswith a "/" then a ++ b
  else a ++ "/" ++ b.

(** [os.path.join(a, *p)] *)
Definition join_all (a : string) (p : list string) : string :=
  fold_left join2 p a.

(** [(s[:d], s[d:])] where [d = s.rfind('.')], [None] without a dot *)
Fixpoint rsplit_dot (s : string) : option (string * string) :=
  match s with
  | EmptyString => None
  | String c r =>
      match rsplit_dot r with
      | Some (a, b) => Some (String c a, b)
      | None => if is_dot c then Some (EmptyString, s) else None
      end
  end.

(** [os.path.splitext]: the extension starts at the last dot of the last
    path component, provided a character other than a dot precedes it
    there. *)
Definition splitext (p : string) : string * string :=
  let '(h, name) := split_last_sep p in
  match rsplit_dot name with
  | Some (a, b) =>
      if all_chars is_dot a then (p, EmptyString) else (h ++ a, b)
  | None => (p, EmptyString)
  end.

(** One step of [normpath]'s loop; [new_comps] is kept last-first. *)
Definition norm_step (initial_slashes : nat) (new_comps : list string)
    (comp : string) : list string :=
  if (comp =? "") || (comp =? ".") then new_comps
  else if negb (comp =? "..")
          || ((initial_slashes =? 0)%nat && match new_comps with [] => true | _ => false end)
          || match new_comps with x :: _ => x =? ".." | [] => false end
       then comp :: new_comps
       else match new_comps with
            | _ :: rest => rest
            | [] => new_comps
            end.

(** [os.path.normpath] *)
Definition normpath (path : string) : string :=
  if path =? "" then "."
  else
    let initial_slashes :=
      if startswith path "/"
      then if startswith path "//" && negb (startswith path "///") then 2 else 1
      else 0 in
    let comps := rev (fold_left (norm_step initial_slashes) (split "/" path) []) in
    let path' := repeat_str "/" initial_slashes ++ join "/" comps in
    if path' =? "" then "." else path'.

(** [os.path.abspath], [cwd] being [os.getcwd()] *)
Definition abspath (cwd path : string) : string :=
  normpath (if startswith path "/" then path else join2 cwd path).

Fixpoint common_prefix_len (a b : list string) : nat :=
  match a, b with
  | x :: a', y :: b' => if x =? y then S (common_prefix_len a' b') else 0
  | _, _ => 0
  end.

(** [os.path.relpath(path, start)]; [None] stands for the [ValueError]
    raised on an empty [path]. *)
Definition relpath (cwd path start : string) : option string :=
  if path =? "" then None
  else
    let start_list := filter truthy (split "/" (abspath cwd start)) in
    let path_list := filter truthy (split "/" (abspath cwd path)) in
    let i := common_prefix_len start_list path_list in
    let rel_list := (repeat ".." (List.length start_list - i) ++ skipn i path_list)%list in
    match rel_list with
    | [] => Some "."
    | x :: r => Some (join_all x r)
    end.

End PosixPath.

(* ================================================================== *)
(** * [pathlib.PurePosixPath] *)
(* ================================================================== *)

Module PurePath.
Import PyStr.

(** A parsed path: its root ([""], ["/"] or ["//"]) and its components. *)
Record t : Type := mk { root : string; parts : list string }.

(** [PurePosixPath(s)]: empty and ["."] components are dropped; exactly two
    leading slashes are kept as the root ["//"]. *)
Definition parse (s : string) : t :=
  {| root :=
       if startswith s "/"
       then if startswith s "//" && negb (startswith s "///") then "//" else "/"
       else "";
     parts := filter (fun c => negb (c =? "") && negb (c =? ".")) (split "/" s) |}.

(** [str(p)] *)
Definition to_str (p : t) : string :=
  let s := root p ++ join "/" (parts p) in
  if s =? "" then "." else s.

(** [p / s] *)
Definition truediv (p : t) (s : string) : t :=
  let q := parse s in
  if truthy (root q) then q
  else {| root := root p; parts := (parts p ++ parts q)%list |}.

(** [p.parent] *)
Definition parent (p : t) : t :=
  match parts p with
  | [] => p
  | _ :: _ => {| root := root p; parts := removelast (parts p) |}
  end.

(** [p.name] *)
Definition name (p : t) : string := last (parts p) "".

(** [p.stem]: the name without its suffix; a suffix starts at the last dot
    of the name when that dot is neither its first nor its last
    character. *)
Definition stem (p : t) : string :=
  let n := name p in
  match PosixPath.rsplit_dot n with
  | Some (a, b) => if truthy a && (1 <? String.length b)%nat then a else n
  | None => n
  end.

End PurePath.

(* ================================================================== *)
(** * External collaborators and effects *)
(* ================================================================== *)

(** The line feed, and the strings built from it. *)
Definition LF : ascii := "010"%char.
Definition NL : string := String LF EmptyString.

(** What [subprocess.run] gives back: a completed process with its return
    code and captured standard error, or an exception ([OSError] when the
    program cannot be started, say) with its message. *)
Inductive RunResult : Type :=
| Completed (returncode : Z) (stderr : string)
| RunRaised (msg : string).

(** The result of a Python call: a value, or a raised exception [e] known
    by its text [str(e)]. *)
Inductive Outcome (A : Type) : Type :=
| Ret (a : A)
| Raise (msg : string).
Arguments Ret {A} a.
Arguments Raise {A} msg.

(** The operating system, [ffmpeg] and [soundfile], as the programs see
    them.  [FS] is the state of the file system; [None] in the result of a
    command means that it returned normally, [Some msg] that it raised. *)
Class OS : Type := {
  FS : Type;
  (** what [sf.read] returns: the samples and the sample rate *)
  Audio : Type;
  getcwd : string;
  path_exists : string -> FS -> bool;
  (** [os.makedirs(p, exist_ok=True)] and [Path.mkdir(parents=True, exist_ok=True)] *)
  makedirs : string -> FS -> option string * FS;
  (** [os.walk(top)]: the triples [(root, dirs, files)] *)
  walk : string -> FS -> list (string * list string * list string);
  listdir : string -> FS -> Outcome (list string);
  (** [Path.rglob(pattern)] *)
  rglob : PurePath.t -> string -> FS -> list PurePath.t;
  (** [subprocess.run(cmd, stdout=PIPE, stderr=PIPE)] *)
  subprocess_run : list string -> FS -> RunResult * FS;
  (** [sf.info(p).subtype] *)
  sf_info : string -> FS -> Outcome string;
  sf_read : string -> FS -> Outcome Audio;
  (** [sf.write(p, data, samplerate, subtype=...)] *)
  sf_write : string -> Audio -> string -> FS -> option string * FS;
  (** [traceback.format_exc()] while the exception with this text is handled *)
  format_exc : string -> string
}.

Inductive MsgKind : Type := ShowError | ShowWarning | ShowInfo.

(** What a run lets the outside see, in order. *)
Inductive Event : Type :=
| Log (msg : string)                       (* [log_message], [log], [print] *)
| ProgressLabel (text : string)            (* [progress_label.config(text=...)] *)
| ProgressMaximum (n : nat)                (* [progress_bar['maximum'] = n] *)
| ProgressValue (n : nat)                  (* [progress_bar['value'] = n] *)
| FileCountLabel (text : string)           (* [file_count_label.config(text=...)] *)
| MessageBox (kind : MsgKind) (title msg : string)
| ButtonReset (text : string)              (* [convert_btn.config(text=..., state='normal')] *)
| PollRunning (value : bool)               (* a read of [self.conversion_running] *)
| CallMakedirs (p : string)
| CallRun (cmd : list string)              (* one [ffmpeg] subprocess *)
| CallInfo (p : string)                    (* [sf.info] *)
| CallRead (p : string)                    (* [sf.read] *)
| CallWrite (p subtype : string).          (* [sf.write] *)

Definition is_run (e : Event) : bool :=
  match e with CallRun _ => true | _ => false end.
Definition is_write (e : Event) : bool :=
  match e with CallWrite _ _ => true | _ => false end.
Definition is_read (e : Event) : bool :=
  match e with CallRead _ => true | _ => false end.
Definition is_poll (e : Event) : bool :=
  match e with PollRunning _ => true | _ => false end.
Definition is_progress_value (e : Event) : bool :=
  match e with ProgressValue _ => true | _ => false end.

(** Number of events of a kind in a trace. *)
Definition count (p : Event -> bool) (tr : list Event) : nat :=
  List.length (filter p tr).

Section Effects.
Context {os : OS}.

(** A computation: from the file-system state to a result (or a raised
    exception), the new state and the events emitted on the way. *)
Definition M (A : Type) : Type := FS -> Outcome A * FS * list Event.

Definition ret {A : Type} (a : A) : M A := fun fs => (Ret a, fs, []).

Definition raise {A : Type} (msg : string) : M A := fun fs => (Raise msg, fs, []).

Definition bind {A B : Type} (m : M A) (k : A -> M B) : M B :=
  fun fs =>
    match m fs with
    | (Ret a, fs1, t1) =>
        match k a fs1 with
        | (r, fs2, t2) => (r, fs2, (t1 ++ t2)%list)
        end
    | (Raise msg, fs1, t1) => (Raise msg, fs1, t1)
    end.

(** [try: m  except Exception as e: handler(str(e))] *)
Definition try_except {A : Type} (m : M A) (handler : string -> M A) : M A :=
  fun fs =>
    match m fs with
    | (Ret a, fs1, t1) => (Ret a, fs1, t1)
    | (Raise msg, fs1, t1) =>
        match handler msg fs1 with
        | (r, fs2, t2) => (r, fs2, (t1 ++ t2)%list)
        end
    end.

(** [try: m  finally: final] for a [final] that does not raise *)
Definition try_finally {A : Type} (m : M A) (final : M unit) : M A :=
  fun fs =>
    match m fs with
    | (r, fs1, t1) =>
        match final fs1 with
        | (_, fs2, t2) => (r, fs2, (t1 ++ t2)%list)
        end
    end.

Definition emit (e : Event) : M unit := fun fs => (Ret tt, fs, [e]).

Definition os_path_exists (p : string) : M bool :=
  fun fs => (Ret (path_exists p fs), fs, []).

Definition os_makedirs (p : string) : M unit :=
  fun fs =>
    match makedirs p fs with
    | (None, fs') => (Ret tt, fs', [CallMakedirs p])
    | (Some msg, fs') => (Raise msg, fs', [CallMakedirs p])
    end.

Definition os_walk (top : string) : M (list (string * list string * list string)) :=
  fun fs => (Ret (walk top fs), fs, []).

Definition os_listdir (p : string) : M (list string) :=
  fun fs => (listdir p fs, fs, []).

Definition path_rglob (p : PurePath.t) (pattern : string) : M (list PurePath.t) :=
  fun fs => (Ret (rglob p pattern fs), fs, []).

(** [subprocess.run(cmd, ...)] without [check]: the return code and the
    captured standard error *)
Definition run (cmd : list string) : M (Z * string) :=
  fun fs =>
    match subprocess_run cmd fs with
    | (Completed rc err, fs') => (Ret (rc, err), fs', [CallRun cmd])
    | (RunRaised msg, fs') => (Raise msg, fs', [CallRun cmd])
    end.

Definition soundfile_info (p : string) : M string :=
  fun fs => (sf_info p fs, fs, [CallInfo p]).

Definition soundfile_read (p : string) : M (Audio) :=
  fun fs => (sf_read p fs, fs, [CallRead p]).

Definition soundfile_write (p : string) (data : Audio) (subtype : string) : M unit :=
  fun fs =>
    match sf_write p data subtype fs with
    | (None, fs') => (Ret tt, fs', [CallWrite p subtype])
    | (Some msg, fs') => (Raise msg, fs', [CallWrite p subtype])
    end.

(** [os.path.relpath], raising [ValueError] on an empty path *)
Definition os_relpath (path start : string) : M string :=
  match PosixPath.relpath getcwd path start with
  | Some r => ret r
  | None => raise "no path specified"
  end.

End Effects.

Declare Scope py_scope.
Delimit Scope py_scope with py.
Notation "x <- m ;; k" := (bind m (fun x => k))
  (at level 100, m at next level, right associativity) : py_scope.
Notation "' pat <- m ;; k" := (bind m (fun x => match x with pat => k end))
  (at level 100, pat pattern, m at next level, right associativity) : py_scope.
Notation "m ;; k" := (bind m (fun _ => k))
  (at level 100, right associativity) : py_scope.

(* ================================================================== *)
(** * [caf_to_wav_gui.py]: class [CAFtoWAVConverter] *)
(* ================================================================== *)

Module CafGui.
Import PyStr PosixPath.
Local Open Scope py_scope.

(** The state of the converter object a conversion reads. *)
Record App : Type := {
  selected_directory : string;
  output_directory : option string;     (* [None] or a chosen directory *)
  bit_depth_var : string;               (* ["24"] or ["32"] *)
  overwrite_var : bool;
  trim_silence_var : bool;
  ffmpeg_available : bool               (* [shutil.which("ffmpeg") is not None] *)
}.

(** The triple [(wav_path, status, info)] a conversion returns. *)
Record JobResult : Type := {
  wav_path : option string;
  status : string;
  info : string
}.

(** The three counters of [conversion_thread]. *)
Record Counts : Type := {
  converted_count : nat;
  skipped_count : nat;
  error_count : nat
}.

(** Which branch of the loop's [if status == "success" / elif
    status.startswith("skipped") / else] a status takes. *)
Inductive Kind : Type := Success | Skipped | Errored.

Definition kind_of (status : string) : Kind :=
  if status =? "success" then Success
  else if startswith status "skipped" then Skipped
  else Errored.

(** The counter that branch increments. *)
Definition tally (c : Counts) (status : string) : Counts :=
  match kind_of status with
  | Success =>
      {| converted_count := converted_count c + 1;
         skipped_count := skipped_count c;
         error_count := error_count c |}
  | Skipped =>
      {| converted_count := converted_count c;
         skipped_count := skipped_count c + 1;
         error_count := error_count c |}
  | Errored =>
      {| converted_count := converted_count c;
         skipped_count := skipped_count c;
         error_count := error_count c + 1 |}
  end.

Definition counts_line (c : Counts) : string :=
  "Converted: " ++ str_of_nat (converted_count c)
  ++ " | Skipped: " ++ str_of_nat (skipped_count c)
  ++ " | Errors: " ++ str_of_nat (error_count c).

(** Python truthiness of [output_base_dir] *)
Definition chosen (d : option string) : option string :=
  match d with
  | Some s => if truthy s then Some s else None
  | None => None
  end.

(** The ffmpeg command line of [convert_with_ffmpeg]. *)
Definition ffmpeg_cmd (overwrite : bool) (caf_path wav_path bit_depth : string)
    (trim_silence : bool) : list string :=
  let codec := if bit_depth =? "24" then "pcm_s24le" else "pcm_f32le" in
  let filters :=
    if trim_silence
    then ["silenceremove=start_periods=1:start_duration=0:start_threshold=-50dB"]
    else [] in
  (["ffmpeg"; "-i"; caf_path]
   ++ match filters with
      | [] => []
      | _ :: _ => ["-af"; join "," filters]
      end
   ++ ["-acodec"; codec; if overwrite then "-y" else "-n"; wav_path])%list.

(** How [convert_with_ffmpeg] reads a completed process. *)
Definition ffmpeg_result (wav_path : string) (returncode : Z) (stderr : string)
    : JobResult :=
  if (returncode =? 0)%Z then
    let duration_info :=
      if contains "Duration:" stderr
      then match find (contains "Duration:") (split LF stderr) with
           | Some line => strip line
           | None => ""
           end
      else "" in
    {| wav_path := Some wav_path; status := "success"; info := duration_info |}
  else if contains "already exists" stderr then
    {| wav_path := None; status := "skipped (already exists)"; info := "" |}
  else
    let error_msg :=
      if truthy stderr then last_n 3 (split LF stderr) else chars "Unknown error" in
    {| wav_path := None; status := "FFmpeg error: " ++ join " " error_msg; info := "" |}.

(** The destination of [convert_caf_to_wav] when no output directory is
    chosen: beside the source. *)
Definition wav_beside (caf_path : string) : string :=
  fst (splitext caf_path) ++ ".wav".

(** ... and when one is: the path relative to the selected directory,
    under the output directory. *)
Definition wav_under (output_base_dir rel_path : string) : string :=
  join2 output_base_dir (fst (splitext rel_path) ++ ".wav").

(** The lines the loop logs for a result, by the branch its status takes
    ([if wav_path: ...], [if info: ...] included). *)
Definition report_lines (r : JobResult) : list string :=
  let arrow :=
    match wav_path r with
    | Some p => if truthy p then ["  → " ++ basename p] else []
    | None => []
    end in
  match kind_of (status r) with
  | Success =>
      List.app arrow
        (List.app (if truthy (info r) then ["  " ++ info r] else []) ["  ✓ SUCCESS"])
  | Skipped => List.app arrow ["  ⊘ " ++ status r]
  | Errored => ["  ✗ " ++ status r]
  end.

Section Programs.
Context {os : OS}.
Variable app : App.

Definition log_message (message : string) : M unit := emit (Log message).

Definition find_caf_files (directory : string) : M (list string) :=
  triples <- os_walk directory ;;
  ret (flat_map
         (fun '(root, _, files) =>
            map (join2 root) (filter (fun file => endswith (lower file) ".caf") files))
         triples).

Definition convert_with_ffmpeg (caf_path wav_path bit_depth : string)
    (trim_silence : bool) : M JobResult :=
  try_except
    ('(returncode, stderr) <-
        run (ffmpeg_cmd (overwrite_var app) caf_path wav_path bit_depth trim_silence) ;;
     ret (ffmpeg_result wav_path returncode stderr))
    (fun e => ret {| wav_path := None; status := "Exception: " ++ e; info := "" |}).

(** The "determine output path" part of [convert_caf_to_wav]. *)
Definition plan_wav_path (caf_path : string) (output_base_dir : option string)
    : M string :=
  match chosen output_base_dir with
  | Some out =>
      rel_path <- os_relpath caf_path (selected_directory app) ;;
      let wav_path := wav_under out rel_path in
      os_makedirs (dirname wav_path) ;;
      ret wav_path
  | None => ret (wav_beside caf_path)
  end.

(** The destination [plan_wav_path] computes, as a function of the source
    path; [None] where [os.path.relpath] raises. *)
Definition planned (caf_path : string) (output_base_dir : option string)
    : option string :=
  match chosen output_base_dir with
  | Some out =>
      option_map (wav_under out) (relpath getcwd caf_path (selected_directory app))
  | None => Some (wav_beside caf_path)
  end.

Definition convert_caf_to_wav (caf_path bit_depth : string)
    (output_base_dir : option string) (trim_silence : bool) : M JobResult :=
  try_except
    (wav_path <- plan_wav_path caf_path output_base_dir ;;
     present <- os_path_exists wav_path ;;
     if present && negb (overwrite_var app) then
       ret {| wav_path := Some wav_path; status := "skipped (already exists)"; info := "" |}
     else if negb (ffmpeg_available app) then
       ret {| wav_path := None; status := "error: FFmpeg not available"; info := "" |}
     else convert_with_ffmpeg caf_path wav_path bit_depth trim_silence)
    (fun e => ret {| wav_path := None; status := "error: " ++ e; info := "" |}).

Fixpoint log_all (lines : list string) : M unit :=
  match lines with
  | [] => ret tt
  | line :: rest => log_message line ;; log_all rest
  end.

(** The loop's three branches write their lines to the log. *)
Definition report (r : JobResult) : M unit := log_all (report_lines r).

(** What the loop of [conversion_thread] leaves behind.  [jobs] and
    [cancelled] are instrumentation: the calls of [convert_caf_to_wav] made,
    in order, with their results, and whether the loop was left through
    [break]. *)
Record LoopExit : Type := {
  counts : Counts;
  jobs : list (string * JobResult);
  cancelled : bool
}.

(** [for i, caf_path in enumerate(caf_files): ...], from index [i] on, with
    [total = len(caf_files)].  [running k] is the value the [k]-th
    iteration reads from [self.conversion_running], a flag the user
    interface thread clears to cancel. *)
Fixpoint conversion_loop (running : nat -> bool) (bit_depth : string)
    (trim_silence : bool) (total i : nat) (caf_files : list string) (c : Counts)
    : M LoopExit :=
  match caf_files with
  | [] => ret {| counts := c; jobs := []; cancelled := false |}
  | caf_path :: rest =>
      emit (PollRunning (running i)) ;;
      if negb (running i) then
        log_message (NL ++ "❌ Cancelled" ++ NL) ;;
        ret {| counts := c; jobs := []; cancelled := true |}
      else
        rel_path <- os_relpath caf_path (selected_directory app) ;;
        emit (ProgressLabel ("Converting: " ++ rel_path)) ;;
        log_message (NL ++ "[" ++ str_of_nat (i + 1) ++ "/" ++ str_of_nat total ++ "] "
                     ++ rel_path) ;;
        r <- convert_caf_to_wav caf_path bit_depth (output_directory app) trim_silence ;;
        report r ;;
        let c' := tally c (status r) in
        emit (ProgressValue (i + 1)) ;;
        emit (FileCountLabel (counts_line c')) ;;
        x <- conversion_loop running bit_depth trim_silence total (S i) rest c' ;;
        ret {| counts := counts x;
               jobs := (caf_path, r) :: jobs x;
               cancelled := cancelled x |}
  end.

Definition no_counts : Counts :=
  {| converted_count := 0; skipped_count := 0; error_count := 0 |}.

(** [conversion_thread], the worker started by [start_conversion]. *)
Definition conversion_thread (running : nat -> bool) : M unit :=
  try_finally
    (try_except
       (if negb (ffmpeg_available app) then
          emit (MessageBox ShowError "FFmpeg Required"
                  ("FFmpeg is required for conversion!" ++ NL ++ NL
                   ++ "See WINDOWS_INSTALL.md for installation instructions."))
        else
          log_message ("Scanning: " ++ selected_directory app) ;;
          caf_files <- find_caf_files (selected_directory app) ;;
          match caf_files with
          | [] =>
              log_message "No CAF files found!" ;;
              emit (MessageBox ShowInfo "No Files"
                      "No CAF files found in the selected directory.")
          | _ :: _ =>
              let total := List.length caf_files in
              log_message ("Found " ++ str_of_nat total ++ " CAF file(s)" ++ NL) ;;
              (match chosen (output_directory app) with
               | Some out => log_message ("Output: " ++ out)
               | None => log_message "Output: Same location as source"
               end) ;;
              let trim_silence := trim_silence_var app in
              log_message ("Bit depth: " ++ bit_depth_var app ++ "-bit") ;;
              log_message ("Remove silence: " ++ (if trim_silence then "Yes" else "No") ++ NL) ;;
              emit (ProgressMaximum total) ;;
              emit (ProgressValue 0) ;;
              x <- conversion_loop running (bit_depth_var app) trim_silence total 0
                     caf_files no_counts ;;
              let c := counts x in
              log_message (NL ++ repeat_str "=" 60) ;;
              log_message "✓ COMPLETE" ;;
              log_message (counts_line c) ;;
              emit (ProgressLabel "Complete!") ;;
              if (0 <? error_count c)%nat then
                emit (MessageBox ShowWarning "Complete with Errors"
                        ("Converted: " ++ str_of_nat (converted_count c) ++ NL
                         ++ "Errors: " ++ str_of_nat (error_count c) ++ NL ++ NL
                         ++ "Check log for details."))
              else
                emit (MessageBox ShowInfo "Complete"
                        ("Successfully converted " ++ str_of_nat (converted_count c)
                         ++ " file(s)!"))
          end)
       (fun e =>
          log_message (NL ++ "❌ ERROR: " ++ e) ;;
          log_message (format_exc e) ;;
          emit (MessageBox ShowError "Error" ("An error occurred:" ++ NL ++ e))))
    (emit (ButtonReset "START CONVERSION")).

End Programs.
End CafGui.

(* ================================================================== *)
(** * [wav_bit_depth_converter.py]: class [WavConverterGUI] *)
(* ================================================================== *)

Module WavDepth.
Import PyStr PosixPath.
Local Open Scope py_scope.

(** The settings of the converter object a run reads. *)
Record App : Type := {
  folder_path : string;
  include_subdirs : bool;
  convert_to_24bit : bool;
  convert_to_16bit : bool
}.

(** The subtype-to-bit-depth table of [get_bit_depth]; [0] is "unknown". *)
Definition depth_of_subtype (subtype : string) : nat :=
  if contains "PCM_32" subtype || contains "FLOAT" subtype then 32
  else if contains "PCM_24" subtype then 24
  else if contains "PCM_16" subtype then 16
  else if contains "PCM_8" subtype then 8
  else 0.

(** The destination of a conversion of [wav_file] to the sub-directory
    [subdir] (["24bit"] or ["16bit"]) of its directory. *)
Definition output_path_of (wav_file subdir : string) : string :=
  join2 (join2 (dirname wav_file) subdir) (basename wav_file).

(** One call of [convert_file] made by [process_files], with what it
    returned (instrumentation). *)
Record Job : Type := {
  job_source : string;
  job_destination : string;
  job_bits : Z;
  job_ok : bool
}.

Section Programs.
Context {os : OS}.
Variable app : App.

Definition log (message : string) : M unit := emit (Log message).

Definition is_wav (file : string) : bool := endswith (lower file) ".wav".

Definition find_wav_files (folder : string) (subdirs : bool) : M (list string) :=
  if subdirs then
    triples <- os_walk folder ;;
    ret (flat_map (fun '(root, _, files) => map (join2 root) (filter is_wav files))
           triples)
  else
    files <- os_listdir folder ;;
    ret (map (join2 folder) (filter is_wav files)).

Definition get_bit_depth (file_path : string) : M nat :=
  try_except
    (subtype <- soundfile_info file_path ;;
     ret (depth_of_subtype subtype))
    (fun e =>
       log ("Error reading " ++ file_path ++ ": " ++ e) ;;
       ret 0).

Definition convert_file (input_path output_path : string) (target_bits : Z) : M bool :=
  try_except
    (data <- soundfile_read input_path ;;
     let write (subtype : string) : M bool :=
       os_makedirs (dirname output_path) ;;
       soundfile_write output_path data subtype ;;
       ret true in
     if (target_bits =? 24)%Z then write "PCM_24"
     else if (target_bits =? 16)%Z then write "PCM_16"
     else ret false)
    (fun e =>
       log ("Error converting " ++ input_path ++ ": " ++ e) ;;
       ret false).

(** [for wav_file in wav_files: if get_bit_depth(wav_file) == 32: ...] *)
Fixpoint filter_32bit (wav_files : list string) : M (list string) :=
  match wav_files with
  | [] => ret []
  | wav_file :: rest =>
      bit_depth <- get_bit_depth wav_file ;;
      files_32bit <- filter_32bit rest ;;
      ret (if (bit_depth =? 32)%nat then wav_file :: files_32bit else files_32bit)
  end.

(** One of the two "Convert to N-bit" blocks of the loop body; it returns
    the advanced [current_conversion] and the job it ran. *)
Definition convert_to (wav_file file_name file_dir : string) (bits : Z)
    (subdir label : string) (current_conversion : nat) : M (nat * list Job) :=
  let output_dir := join2 file_dir subdir in
  let output_path := join2 output_dir file_name in
  emit (ProgressLabel ("Converting to " ++ label ++ ": " ++ file_name)) ;;
  ok <- convert_file wav_file output_path bits ;;
  (if ok then log ("  ✓ Converted to " ++ label ++ ": " ++ output_path)
   else log ("  ✗ Failed to convert to " ++ label)) ;;
  emit (ProgressValue (current_conversion + 1)) ;;
  ret (current_conversion + 1,
       [{| job_source := wav_file; job_destination := output_path;
           job_bits := bits; job_ok := ok |}]).

(** [for wav_file in files_32bit: ...] *)
Fixpoint process_loop (folder : string) (files_32bit : list string)
    (current_conversion : nat) : M (list Job) :=
  match files_32bit with
  | [] => ret []
  | wav_file :: rest =>
      relative_path <- os_relpath wav_file folder ;;
      let file_name := basename wav_file in
      let file_dir := dirname wav_file in
      log (NL ++ "Processing: " ++ relative_path) ;;
      '(n1, j24) <-
         (if convert_to_24bit app
          then convert_to wav_file file_name file_dir 24 "24bit" "24-bit" current_conversion
          else ret (current_conversion, [])) ;;
      '(n2, j16) <-
         (if convert_to_16bit app
          then convert_to wav_file file_name file_dir 16 "16bit" "16-bit" n1
          else ret (n1, [])) ;;
      js <- process_loop folder rest n2 ;;
      ret (j24 ++ j16 ++ js)%list
  end.

(** [process_files], the worker started by [start_conversion]; the list it
    returns is instrumentation (the Python function returns nothing): the
    calls of [convert_file] made, in order. *)
Definition process_files : M (list Job) :=
  try_finally
    (try_except
       (let folder := folder_path app in
        let subdirs := include_subdirs app in
        log ("Scanning folder: " ++ folder) ;;
        log ("Include subdirectories: " ++ (if subdirs then "True" else "False")) ;;
        log (repeat_str "-" 50) ;;
        wav_files <- find_wav_files folder subdirs ;;
        log ("Found " ++ str_of_nat (List.length wav_files) ++ " WAV files") ;;
        match wav_files with
        | [] =>
            log "No WAV files found!" ;;
            emit (MessageBox ShowInfo "Info" "No WAV files found in the selected folder") ;;
            ret []
        | _ :: _ =>
            files_32bit <- filter_32bit wav_files ;;
            log ("Found " ++ str_of_nat (List.length files_32bit)
                 ++ " 32-bit WAV files to convert") ;;
            log (repeat_str "-" 50) ;;
            match files_32bit with
            | [] =>
                log "No 32-bit WAV files found!" ;;
                emit (MessageBox ShowInfo "Info" "No 32-bit WAV files found to convert") ;;
                ret []
            | _ :: _ =>
                let total_conversions :=
                  List.length files_32bit
                  * ((if convert_to_24bit app then 1 else 0)
                     + (if convert_to_16bit app then 1 else 0)) in
                emit (ProgressMaximum total_conversions) ;;
                js <- process_loop folder files_32bit 0 ;;
                log (repeat_str "-" 50) ;;
                log ("Conversion complete! Processed "
                     ++ str_of_nat (List.length files_32bit) ++ " files") ;;
                emit (ProgressLabel "Conversion complete!") ;;
                emit (MessageBox ShowInfo "Success"
                        ("Successfully processed " ++ str_of_nat (List.length files_32bit)
                         ++ " files!" ++ NL ++ "Check the log for details.")) ;;
                ret js
            end
        end)
       (fun e =>
          log ("Error during processing: " ++ e) ;;
          emit (MessageBox ShowError "Error" ("An error occurred: " ++ e)) ;;
          ret []))
    (emit (ButtonReset "Start Conversion")).

End Programs.
End WavDepth.

(* ================================================================== *)
(** * [caf_to_wav32.py] *)
(* ================================================================== *)

Module CafCli.
Import PyStr.
Local Open Scope py_scope.

(** The destination [main] plans for [caf]: the sub-directory [32bit_wav]
    of its directory, the stem followed by [.wav]. *)
Definition out_path_of (caf : PurePath.t) : PurePath.t :=
  let out_dir := PurePath.truediv (PurePath.parent caf) "32bit_wav" in
  PurePath.truediv out_dir (PurePath.stem caf ++ ".wav").

Section Programs.
Context {os : OS}.

Definition print (message : string) : M unit := emit (Log message).

(** [subprocess.run(cmd, check=True, ...)] raises [CalledProcessError] on a
    non-zero return code, which [convert_caf_to_wav] catches; any other
    exception passes through.  [stderr] is the captured standard error as
    [decode(errors='ignore')] reads it. *)
Definition convert_caf_to_wav (input_path output_path : PurePath.t) : M bool :=
  os_makedirs (PurePath.to_str (PurePath.parent output_path)) ;;
  let cmd := ["ffmpeg"; "-y"; "-i"; PurePath.to_str input_path;
              "-c:a"; "pcm_f32le"; PurePath.to_str output_path] in
  '(returncode, stderr) <- run cmd ;;
  if (returncode =? 0)%Z then
    print ("✓ Converted: " ++ PurePath.to_str input_path ++ " → "
           ++ PurePath.to_str output_path) ;;
    ret true
  else
    print ("✗ Failed: " ++ PurePath.to_str input_path ++ NL ++ stderr) ;;
    ret false.

Fixpoint convert_all (caf_files : list PurePath.t) : M unit :=
  match caf_files with
  | [] => ret tt
  | caf :: rest =>
      convert_caf_to_wav caf (out_path_of caf) ;;
      convert_all rest
  end.

(** [main], [line] being what [input] reads. *)
Definition main (line : string) : M unit :=
  let folder := strip line in
  let root := PurePath.parse folder in
  present <- os_path_exists (PurePath.to_str root) ;;
  if negb present then print "Folder does not exist."
  else
    caf_files <- path_rglob root "*.caf" ;;
    print ("Found " ++ str_of_nat (List.length caf_files) ++ " CAF files.") ;;
    convert_all caf_files ;;
    print (NL ++ "Conversion complete!").

End Programs.
End CafCli.

(* ================================================================== *)
(** * The handlers of the buttons *)
(* ================================================================== *)

(** [caf_to_wav_gui.py]: [browse_directory], [browse_output_directory],
    [clear_output_directory] and [start_conversion], as functions of the
    fields and widgets they read and write. *)
Module CafButtons.
Import PyStr.

(** A label: its text and its colour. *)
Record Label : Type := { text : string; foreground : string }.

Record Window : Type := {
  conversion_running : bool;
  selected_directory : option string;
  output_directory : option string;
  dir_label : Label;
  output_dir_label : Label;
  convert_btn : string;                 (* the text of the button *)
  log_text : list string                (* the lines of the log *)
}.

(** The window [__init__] and [setup_ui] build. *)
Definition initial : Window := {|
  conversion_running := false;
  selected_directory := None;
  output_directory := None;
  dir_label := {| text := "No directory selected"; foreground := "gray" |};
  output_dir_label := {| text := "Same as source files"; foreground := "gray" |};
  convert_btn := "START CONVERSION";
  log_text := []
|}.

(** [browse_directory], [directory] being what the dialog returns (the
    empty string when it is dismissed). *)
Definition browse_directory (directory : string) (w : Window) : Window :=
  if truthy directory then
    let display_path :=
      if (len directory <? 60)%nat then directory
      else "..." ++ last_chars 57 directory in
    {| conversion_running := conversion_running w;
       selected_directory := Some directory;
       output_directory := output_directory w;
       dir_label := {| text := display_path; foreground := "black" |};
       output_dir_label := output_dir_label w;
       convert_btn := convert_btn w;
       log_text := log_text w |}
  else w.

Definition browse_output_directory (directory : string) (w : Window) : Window :=
  if truthy directory then
    let display_path :=
      if (len directory <? 50)%nat then directory
      else "..." ++ last_chars 47 directory in
    {| conversion_running := conversion_running w;
       selected_directory := selected_directory w;
       output_directory := Some directory;
       dir_label := dir_label w;
       output_dir_label := {| text := display_path; foreground := "black" |};
       convert_btn := convert_btn w;
       log_text := log_text w |}
  else w.

Definition clear_output_directory (w : Window) : Window :=
  {| conversion_running := conversion_running w;
     selected_directory := selected_directory w;
     output_directory := None;
     dir_label := dir_label w;
     output_dir_label := {| text := "Same as source files"; foreground := "gray" |};
     convert_btn := convert_btn w;
     log_text := log_text w |}.

(** [start_conversion]: the window it leaves, the message box it shows,
    and whether it starts a worker thread running [conversion_thread]. *)
Definition start_conversion (w : Window) : Window * list Event * bool :=
  match CafGui.chosen (selected_directory w) with
  | None =>
      (w, [MessageBox ShowWarning "No Directory"
             "Please select a directory containing CAF files."], false)
  | Some _ =>
      if conversion_running w then
        ({| conversion_running := false;
            selected_directory := selected_directory w;
            output_directory := output_directory w;
            dir_label := dir_label w;
            output_dir_label := output_dir_label w;
            convert_btn := "START CONVERSION";
            log_text := log_text w |}, [], false)
      else
        ({| conversion_running := true;
            selected_directory := selected_directory w;
            output_directory := output_directory w;
            dir_label := dir_label w;
            output_dir_label := output_dir_label w;
            convert_btn := "⏹ CANCEL";
            log_text := [] |}, [], true)
  end.

End CafButtons.

(** [wav_bit_depth_converter.py]: [validate_inputs] and
    [start_conversion]. *)
Module WavButtons.
Import PyStr.
Local Open Scope py_scope.

Record Window : Type := {
  is_processing : bool;
  log_text : list string;               (* the lines of the log *)
  progress_value : nat;                 (* [progress_bar['value']] *)
  progress_label : string;
  convert_btn : string * bool           (* the text of the button; enabled? *)
}.

Section Handlers.
Context {os : OS}.
Variable app : WavDepth.App.

Definition validate_inputs : M bool :=
  if negb (truthy (WavDepth.folder_path app)) then
    emit (MessageBox ShowError "Error" "Please select a source folder") ;;
    ret false
  else
    present <- os_path_exists (WavDepth.folder_path app) ;;
    if negb present then
      emit (MessageBox ShowError "Error" "Selected folder does not exist") ;;
      ret false
    else if negb (WavDepth.convert_to_24bit app) && negb (WavDepth.convert_to_16bit app) then
      emit (MessageBox ShowError "Error"
              "Please select at least one output bit depth (24-bit or 16-bit)") ;;
      ret false
    else ret true.

(** [start_conversion]: the window it leaves, and whether it starts a
    worker thread running [process_files]. *)
Definition start_conversion (w : Window) : M (Window * bool) :=
  if is_processing w then ret (w, false)
  else
    valid <- validate_inputs ;;
    if negb valid then ret (w, false)
    else
      ret ({| is_processing := true;
              log_text := [];
              progress_value := 0;
              progress_label := "Processing...";
              convert_btn := ("Processing...", false) |}, true).

End Handlers.
End WavButtons.

(* ================================================================== *)
(** * A simulated machine *)
(* ================================================================== *)

(** One concrete [OS], small enough to run the programs on: a disk is a
    finite table from paths to nodes, a file being known by a tag for what
    it holds (["aac"] for a CAF file, a [soundfile] subtype such as
    ["FLOAT"] or ["PCM_16"] for a WAV file, ["corrupt"] for one no decoder
    accepts).  Its [ffmpeg] fails on a missing or corrupt input and
    refuses to replace a file unless given [-y]; its [makedirs] always
    succeeds. *)
Module Sim.
Import PyStr PosixPath.

Inductive Node : Type := Dir | File (content : string).

Definition Disk : Type := list (string * Node).

Fixpoint lookup (p : string) (d : Disk) : option Node :=
  match d with
  | [] => None
  | (q, n) :: rest => if q =? p then Some n else lookup p rest
  end.

Definition store (p : string) (n : Node) (d : Disk) : Disk :=
  (p, n) :: filter (fun e => negb (fst e =? p)) d.

Definition present (p : string) (d : Disk) : bool :=
  match lookup p d with Some _ => true | None => false end.

Definition is_file (e : string * Node) : bool :=
  match snd e with File _ => true | Dir => false end.

Definition file_paths (d : Disk) : list string := map fst (filter is_file d).

(** [p] is [top] or lies below it *)
Definition under (top p : string) : bool :=
  (p =? top) || startswith p (if endswith top "/" then top else top ++ "/").

Definition sim_makedirs (p : string) (d : Disk) : option string * Disk :=
  (None, if present p d then d else store p Dir d).

Definition sim_walk (top : string) (d : Disk) : list (string * list string * list string) :=
  let dirs := nodup string_dec (filter (under top) (map dirname (file_paths d))) in
  map (fun dir =>
         (dir, [], map basename (filter (fun f => dirname f =? dir) (file_paths d))))
      dirs.

Definition sim_listdir (p : string) (d : Disk) : Outcome (list string) :=
  Ret (map basename (filter (fun f => dirname f =? p) (map fst d))).

(** [pattern] is [*] followed by a suffix *)
Definition sim_rglob (root : PurePath.t) (pattern : string) (d : Disk) : list PurePath.t :=
  let suffix := substring 1 (String.length pattern - 1) pattern in
  map PurePath.parse
    (filter (fun f => under (PurePath.to_str root) (dirname f) && endswith (basename f) suffix)
       (file_paths d)).

Fixpoint arg_after (flag : string) (cmd : list string) : string :=
  match cmd with
  | [] => ""
  | x :: rest =>
      if x =? flag then match rest with y :: _ => y | [] => "" end
      else arg_after flag rest
  end.

Definition sim_ffmpeg (cmd : list string) (d : Disk) : RunResult * Disk :=
  let src := arg_after "-i" cmd in
  let dst := last cmd "" in
  let codec :=
    if existsb (String.eqb "-acodec") cmd then arg_after "-acodec" cmd
    else arg_after "-c:a" cmd in
  match lookup src d with
  | Some (File content) =>
      if content =? "corrupt" then
        (Completed 1 (src ++ ": Invalid data found when processing input" ++ NL), d)
      else if present dst d && negb (existsb (String.eqb "-y") cmd) then
        (Completed 1 ("File '" ++ dst ++ "' already exists. Exiting." ++ NL), d)
      else
        (Completed 0 ("  Duration: 00:00:01.00, start: 0.000000, bitrate: 64 kb/s" ++ NL),
         store dst (File (if codec =? "pcm_s24le" then "PCM_24" else "FLOAT")) d)
  | _ => (Completed 1 (src ++ ": No such file or directory" ++ NL), d)
  end.

Definition decodable (content : string) : bool :=
  negb (content =? "corrupt") && negb (content =? "aac").

Definition sim_info (p : string) (d : Disk) : Outcome string :=
  match lookup p d with
  | Some (File content) =>
      if decodable content then Ret content
      else Raise ("Error opening '" ++ p ++ "': Format not recognised.")
  | _ => Raise ("Error opening '" ++ p ++ "': System error.")
  end.

Definition sim_write (p : string) (data subtype : string) (d : Disk) : option string * Disk :=
  (None, store p (File subtype) d).

Definition machine : OS := {|
  FS := Disk;
  Audio := string;
  getcwd := "/";
  path_exists := present;
  makedirs := sim_makedirs;
  walk := sim_walk;
  listdir := sim_listdir;
  rglob := sim_rglob;
  subprocess_run := sim_ffmpeg;
  sf_info := sim_info;
  sf_read := sim_info;
  sf_write := sim_write;
  format_exc := fun e => "Traceback (most recent call last):" ++ NL ++ e
|}.

(** The application settings used in the examples. *)
Definition gui (out : option string) (overwrite : bool) : CafGui.App := {|
  CafGui.selected_directory := "/music";
  CafGui.output_directory := out;
  CafGui.bit_depth_var := "24";
  CafGui.overwrite_var := overwrite;
  CafGui.trim_silence_var := true;
  CafGui.ffmpeg_available := true
|}.

Definition depth_app : WavDepth.App := {|
  WavDepth.folder_path := "/music";
  WavDepth.include_subdirs := false;
  WavDepth.convert_to_24bit := true;
  WavDepth.convert_to_16bit := true
|}.

(** The cancellation flag is cleared after [n] reads. *)
Definition cancel_after (n : nat) (k : nat) : bool := (k <? n)%nat.
Definition never_cancelled (k : nat) : bool := true.

End Sim.

(* ================================================================== *)
(** * Vocabulary of the statements *)
(* ================================================================== *)

(** [s] holds no slash: it is a single path component. *)
Definition no_sep (s : string) : bool :=
  PyStr.all_chars (fun c => negb (PosixPath.is_sep c)) s.

(** A path component: no slash, not empty, neither [.] nor [..]. *)
Definition is_component (s : string) : bool :=
  no_sep s && negb (s =? "") && negb (s =? ".") && negb (s =? "..").

(** The absolute, normalised path with the components [l]. *)
Definition rooted (l : list string) : string := "/" ++ PyStr.join "/" l.

(** An event of a job of the CAF converter: a call of a collaborator. *)
Definition is_call (e : Event) : bool :=
  match e with
  | CallMakedirs _ | CallRun _ => true
  | _ => false
  end.

(** An event other than the report of an unreadable file header. *)
Definition quiet (e : Event) : bool :=
  match e with
  | Log m => negb (PyStr.startswith m "Error reading")
  | _ => true
  end.

(** The subtype [convert_file] writes for a target bit depth, if any. *)
Definition target_subtype (bits : Z) : option string :=
  if (bits =? 24)%Z then Some "PCM_24"
  else if (bits =? 16)%Z then Some "PCM_16"
  else None.

Section Vocabulary.
Context {os : OS}.

(** Every path that exists in [fs] exists in [fs']. *)
Definition keeps (fs fs' : FS) : Prop :=
  forall p, path_exists p fs = true -> path_exists p fs' = true.

(** An [ffmpeg] run that returns 0 leaves its output file, the last
    argument of the command line, on the disk. *)
Definition ffmpeg_writes_destination : Prop :=
  forall cmd fs err fs',
    subprocess_run cmd fs = (Completed 0 err, fs') ->
    path_exists (last cmd "") fs' = true.

(** Neither [ffmpeg] nor [os.makedirs] removes anything. *)
Definition nothing_deleted : Prop :=
  (forall cmd fs, keeps fs (snd (subprocess_run cmd fs)))
  /\ (forall p fs, keeps fs (snd (makedirs p fs))).

(** [os.makedirs(d, exist_ok=True)] returns normally when [d] is the
    directory of an existing path. *)
Definition makedirs_accepts_existing : Prop :=
  forall p fs,
    path_exists p fs = true ->
    PosixPath.dirname p <> "" ->
    fst (makedirs (PosixPath.dirname p) fs) = None.

(** The bit depth [get_bit_depth] finds for [file] in the state [fs]. *)
Definition depth_at (fs : FS) (file : string) : nat :=
  match sf_info file fs with
  | Ret subtype => WavDepth.depth_of_subtype subtype
  | Raise _ => 0
  end.

End Vocabulary.

(** The conversions [process_files] plans for one 32-bit file: source,
    destination and target bit depth, the 24-bit one first. *)
Definition targets (app : WavDepth.App) (wav_file : string)
    : list (string * string * Z) :=
  ((if WavDepth.convert_to_24bit app
    then [(wav_file, WavDepth.output_path_of wav_file "24bit", 24%Z)] else [])
   ++ (if WavDepth.convert_to_16bit app
       then [(wav_file, WavDepth.output_path_of wav_file "16bit", 16%Z)] else []))%list.

Definition job_plan (j : WavDepth.Job) : string * string * Z :=
  (WavDepth.job_source j, WavDepth.job_destination j, WavDepth.job_bits j).

(** ** Reading a trace *)

Definition is_box (e : Event) : bool :=
  match e with MessageBox _ _ _ => true | _ => false end.
Definition is_error_box (e : Event) : bool :=
  match e with MessageBox ShowError _ _ => true | _ => false end.
Definition is_maximum (e : Event) : bool :=
  match e with ProgressMaximum _ => true | _ => false end.
Definition is_info (e : Event) : bool :=
  match e with CallInfo _ => true | _ => false end.
Definition is_log (e : Event) : bool :=
  match e with Log _ => true | _ => false end.

(** The values the progress bar is given, in order. *)
Definition progress_values (tr : list Event) : list nat :=
  flat_map (fun e => match e with ProgressValue n => [n] | _ => [] end) tr.

(** The texts the file-count label is given, in order. *)
Definition count_labels (tr : list Event) : list string :=
  flat_map (fun e => match e with FileCountLabel s => [s] | _ => [] end) tr.

(** The command lines of the subprocesses run, in order. *)
Definition run_cmds (tr : list Event) : list (list string) :=
  flat_map (fun e => match e with CallRun cmd => [cmd] | _ => [] end) tr.

(** The paths [sf.write] is called on, in order. *)
Definition write_paths (tr : list Event) : list string :=
  flat_map (fun e => match e with CallWrite p _ => [p] | _ => [] end) tr.

(** What the scan and the jobs of the bit-depth converter let the outside
    see: log lines, the progress label and value, and calls of
    [soundfile] and [os.makedirs]. *)
Definition job_event (e : Event) : bool :=
  match e with
  | Log _ | ProgressLabel _ | ProgressValue _
  | CallMakedirs _ | CallInfo _ | CallRead _ | CallWrite _ _ => true
  | _ => false
  end.

(** ** Jobs and settings *)

Definition same_kind (a b : CafGui.Kind) : bool :=
  match a, b with
  | CafGui.Success, CafGui.Success
  | CafGui.Skipped, CafGui.Skipped
  | CafGui.Errored, CafGui.Errored => true
  | _, _ => false
  end.

(** The number of jobs whose status takes the branch [k] of the loop of
    [conversion_thread]. *)
Definition kind_count (k : CafGui.Kind) (js : list (string * CafGui.JobResult)) : nat :=
  List.length (filter (fun j => same_kind (CafGui.kind_of (CafGui.status (snd j))) k) js).

(** The number of bit depths selected in the bit-depth converter. *)
Definition selected_depths (app : WavDepth.App) : nat :=
  (if WavDepth.convert_to_24bit app then 1 else 0)
  + (if WavDepth.convert_to_16bit app then 1 else 0).

(** The inputs [validate_inputs] accepts. *)
Definition valid_inputs {os : OS} (app : WavDepth.App) (fs : FS) : bool :=
  PyStr.truthy (WavDepth.folder_path app)
  && path_exists (WavDepth.folder_path app) fs
  && (WavDepth.convert_to_24bit app || WavDepth.convert_to_16bit app).

(** The [ffmpeg] command line of the command-line converter for the
    source [caf]. *)
Definition cli_cmd (caf : PurePath.t) : list string :=
  ["ffmpeg"; "-y"; "-i"; PurePath.to_str caf; "-c:a"; "pcm_f32le";
   PurePath.to_str (CafCli.out_path_of caf)].

(** ** Strings *)

(** No line feed in [s]. *)
Definition one_line (s : string) : bool :=
  PyStr.all_chars (fun c => negb (Ascii.eqb c LF)) s.

(** A relative path: not empty, and no slash in front. *)
Definition is_relative (p : string) : bool :=
  negb (p =? "") && negb (PyStr.startswith p "/").

(** A byte that occurs in the encoding of a white-space character: TAB..CR,
    FS..US, the space, or a byte of a multi-byte character. *)
Definition blank (c : ascii) : bool :=
  let n := nat_of_ascii c in
  (((9 <=? n) && (n <=? 13)) || ((28 <=? n) && (n <=? 32)) || (128 <=? n))%nat.

(** The last byte of [s] is not [blank]; false on the empty string. *)
Fixpoint ends_visible (s : string) : bool :=
  match s with
  | EmptyString => false
  | String c r =>
      match r with
      | EmptyString => negb (blank c)
      | String _ _ => ends_visible r
      end
  end.

(** The first byte of [s] is not [blank]; false on the empty string. *)
Definition starts_visible (s : string) : bool :=
  match s with
  | EmptyString => false
  | String c _ => negb (blank c)
  end.

(** ** Presses of a button

    [n] presses of the button of a converter, no worker ending in between:
    the window they leave and the number of worker threads started. *)
Fixpoint caf_presses (n : nat) (w : CafButtons.Window) : CafButtons.Window * nat :=
  match n with
  | O => (w, 0)
  | S k =>
      let '(w1, _, started) := CafButtons.start_conversion w in
      let '(w2, m) := caf_presses k w1 in
      (w2, (if started then 1 else 0) + m)
  end.

Fixpoint wav_presses {os : OS} (app : WavDepth.App) (n : nat) (w : WavButtons.Window)
    : M (WavButtons.Window * nat) :=
  match n with
  | O => ret (w, 0)
  | S k =>
      ('(w1, started) <- WavButtons.start_conversion app w ;;
       '(w2, m) <- wav_presses app k w1 ;;
       ret (w2, (if started then 1 else 0) + m))%py
  end.

(** Unfolding the effect combinators, and counting events in a trace
    written with [::] and [++] (by the rewrite rules [counts]). *)
Ltac run_monad :=
  cbv beta iota delta
    [bind ret raise emit try_except try_finally os_path_exists os_makedirs os_walk
     os_listdir path_rglob run soundfile_info soundfile_read soundfile_write os_relpath].

Create Rewrite HintDb counts.

Ltac count_norm :=
  autorewrite with counts;
  cbn [is_poll is_run is_write is_read is_progress_value].

(* ================================================================== *)
(** * Scenarios on the simulated machine *)
(* ================================================================== *)

Module Scenario.
Import Sim.

Definition value {A : Type} (dflt : A) (r : Outcome A * Disk * list Event) : A :=
  match fst (fst r) with
  | Ret a => a
  | Raise _ => dflt
  end.
Definition disk_after {A : Type} (r : Outcome A * Disk * list Event) : Disk := snd (fst r).
Definition trace {A : Type} (r : Outcome A * Disk * list Event) : list Event := snd r.

Definition no_exit : CafGui.LoopExit :=
  {| CafGui.counts := CafGui.no_counts; CafGui.jobs := []; CafGui.cancelled := false |}.

(** The loop of the CAF converter, from its first iteration. *)
Definition caf_run (app : CafGui.App) (running : nat -> bool) (files : list string)
    (d : Disk) : Outcome CafGui.LoopExit * Disk * list Event :=
  CafGui.conversion_loop (os := machine) app running (CafGui.bit_depth_var app)
    (CafGui.trim_silence_var app) (List.length files) 0 files CafGui.no_counts d.

(** Two CAF files in nested folders. *)
Definition albums : Disk :=
  [("/music", Dir); ("/music/a/x.caf", File "aac"); ("/music/a/b/y.caf", File "aac")].
Definition album_files : list string := ["/music/a/x.caf"; "/music/a/b/y.caf"].

(** The same, [x.caf] already converted into the output folder [/out]. *)
Definition albums_half_done : Disk := ("/out/a/x.wav", File "PCM_24") :: albums.

(** Five CAF files in one folder. *)
Definition five_files : list string :=
  ["/music/1.caf"; "/music/2.caf"; "/music/3.caf"; "/music/4.caf"; "/music/5.caf"].
Definition five : Disk :=
  ("/music", Dir) :: map (fun f => (f, File "aac")) five_files.

(** Two files whose names differ in the case of the extension only. *)
Definition twins : Disk :=
  [("/music", Dir); ("/music/a.caf", File "aac"); ("/music/a.CAF", File "aac")].
Definition twin_files : list string := ["/music/a.caf"; "/music/a.CAF"].

(** A file no decoder accepts, unluckily named. *)
Definition unlucky : Disk :=
  [("/music", Dir); ("/music/already exists.caf", File "corrupt")].

(** A 32-bit float WAV file and a 16-bit one. *)
Definition mixed : Disk :=
  [("/music", Dir); ("/music/f.wav", File "FLOAT"); ("/music/s.wav", File "PCM_16")].

(** The same, a 24-bit version of [f.wav] being there already. *)
Definition mixed_done : Disk := ("/music/24bit/f.wav", File "OLD") :: mixed.

(** Two 32-bit WAV files. *)
Definition floats : Disk :=
  [("/music", Dir); ("/music/f.wav", File "FLOAT"); ("/music/g.wav", File "PCM_32")].

(** A 32-bit float WAV file and one in a subtype [get_bit_depth] does not
    know. *)
Definition foreign : Disk :=
  [("/music", Dir); ("/music/f.wav", File "FLOAT"); ("/music/u.wav", File "ULAW")].

(** No line of the log names [u.wav], and no message box is shown on it. *)
Definition silent_on_u (e : Event) : bool :=
  match e with
  | Log m | MessageBox _ _ m | ProgressLabel m | FileCountLabel m =>
      negb (PyStr.contains "u.wav" m)
  | _ => true
  end.

Definition dummy_result : CafGui.JobResult :=
  {| CafGui.wav_path := None; CafGui.status := ""; CafGui.info := "" |}.

(** The result of the job of a run for the source [caf]. *)
Definition job_of (caf : string) (r : Outcome CafGui.LoopExit * Disk * list Event)
    : CafGui.JobResult :=
  match find (fun j => fst j =? caf) (CafGui.jobs (value no_exit r)) with
  | Some j => snd j
  | None => dummy_result
  end.

Definition depth_run (d : Disk) : Outcome (list WavDepth.Job) * Disk * list Event :=
  WavDepth.process_files (os := machine) depth_app d.

(** An answer to the prompt of the command-line converter that is blank:
    a space, a no-break space and an ideographic space. *)
Definition blank_answer : string := " " ++ PyStr.utf8 160 ++ PyStr.utf8 12288.

(** Two folders with Japanese names, of 34 and of 60 characters. *)
Definition tokyo : string := "/home/マリア/音楽/録音/ライブ/二〇二四年/東京/セッション".
Definition tokyo_final : string :=
  tokyo ++ "/テイク/マスター音源/最終版/ミックスダウン/完成".

End Scenario.

(** ** A machine whose folders cannot be listed

    The simulated machine, except that [os.listdir] raises. *)
Definition locked : OS := {|
  FS := Sim.Disk;
  Audio := string;
  getcwd := "/";
  path_exists := Sim.present;
  makedirs := Sim.sim_makedirs;
  walk := Sim.sim_walk;
  listdir := fun p _ => Raise ("[Errno 13] Permission denied: '" ++ p ++ "'");
  rglob := Sim.sim_rglob;
  subprocess_run := Sim.sim_ffmpeg;
  sf_info := Sim.sim_info;
  sf_read := Sim.sim_info;
  sf_write := Sim.sim_write;
  format_exc := fun e => "Traceback (most recent call last):" ++ NL ++ e
|}.

(* ================================================================== *)
(** * Facts about strings and paths *)
(* ================================================================== *)

Import PyStr PosixPath.

Lemma append_nil_r (s : string) : s ++ "" = s.
Proof. induction s as [|c s IH]; simpl; congruence. Qed.

Lemma append_assoc (a b c : string) : (a ++ b) ++ c = a ++ (b ++ c).
Proof. induction a as [|x a IH]; simpl; congruence. Qed.

Lemma length_append (a b : string) :
  String.length (a ++ b) = String.length a + String.length b.
Proof. induction a as [|x a IH]; simpl; congruence. Qed.

Lemma append_inj_l (a x y : string) : a ++ x = a ++ y -> x = y.
Proof. induction a as [|c a IH]; simpl; intros H; [assumption|]. injection H; auto. Qed.

Lemma append_inj_r (x a b : string) : a ++ x = b ++ x -> a = b.
Proof.
  revert b; induction a as [|c a IH]; intros [|d b] H; simpl in H.
  - reflexivity.
  - apply (f_equal String.length) in H; simpl in H; rewrite length_append in H; lia.
  - apply (f_equal String.length) in H; simpl in H; rewrite length_append in H; lia.
  - injection H as -> H. f_equal. auto.
Qed.

Lemma append_eq_nil (a b : string) : a ++ b = "" -> a = "" /\ b = "".
Proof. destruct a; simpl; intros H; [auto | discriminate]. Qed.

Lemma no_sep_app (a b : string) : no_sep (a ++ b) = no_sep a && no_sep b.
Proof.
  unfold no_sep. induction a as [|c a IH]; simpl; [reflexivity|].
  rewrite IH. now rewrite andb_assoc.
Qed.

Lemma split_last_sep_no_sep (t : string) :
  no_sep t = true -> split_last_sep t = ("", t).
Proof.
  unfold no_sep. induction t as [|c t IH]; simpl; [reflexivity|].
  intros H. apply andb_prop in H as [Hc Ht]. rewrite (IH Ht). simpl.
  apply negb_true_iff in Hc. now rewrite Hc.
Qed.

Lemma split_last_sep_app (a t : string) :
  no_sep t = true -> split_last_sep (a ++ "/" ++ t) = (a ++ "/", t).
Proof.
  intros Ht. induction a as [|c a IH].
  - simpl. now rewrite (split_last_sep_no_sep t Ht).
  - change ((String c a) ++ "/" ++ t) with (String c (a ++ "/" ++ t)).
    cbn [split_last_sep]. rewrite IH.
    change (String c a ++ "/") with (String c (a ++ "/")).
    destruct (a ++ "/") eqn:E; [destruct a; discriminate|]. reflexivity.
Qed.

Lemma split_last_sep_spec (p : string) :
  p = fst (split_last_sep p) ++ snd (split_last_sep p)
  /\ no_sep (snd (split_last_sep p)) = true
  /\ (fst (split_last_sep p) = ""
      \/ exists h', fst (split_last_sep p) = h' ++ "/").
Proof.
  induction p as [|c p (Hp & Hn & Hh)]; simpl.
  - repeat split; auto.
  - destruct (split_last_sep p) as [h t]; simpl in *.
    destruct h as [|x h]; simpl in *.
    + destruct (is_sep c) eqn:Ec; simpl.
      * unfold is_sep in Ec. apply Ascii.eqb_eq in Ec. subst c.
        repeat split; [congruence | assumption | right; now exists ""].
      * repeat split; [congruence | | now left].
        unfold no_sep in *. simpl. now rewrite Ec, Hn.
    + repeat split; [congruence | assumption |].
      right. destruct Hh as [Hh | [h' Hh]]; [discriminate|].
      exists (String c h'). simpl. now rewrite Hh.
Qed.

Lemma split_last_sep_reattach (p x : string) :
  no_sep x = true ->
  split_last_sep (fst (split_last_sep p) ++ x) = (fst (split_last_sep p), x).
Proof.
  intros Hx. destruct (split_last_sep_spec p) as (_ & _ & [H | [h' H]]); rewrite H.
  - simpl. now apply split_last_sep_no_sep.
  - rewrite append_assoc. now apply split_last_sep_app.
Qed.

Lemma dirname_reattach (p x : string) :
  no_sep x = true -> dirname (fst (split_last_sep p) ++ x) = dirname p.
Proof.
  intros Hx. unfold dirname. now rewrite split_last_sep_reattach.
Qed.

Lemma rsplit_dot_spec (s a b : string) :
  rsplit_dot s = Some (a, b) -> s = a ++ b.
Proof.
  revert a b. induction s as [|c s IH]; simpl; intros a b H; [discriminate|].
  destruct (rsplit_dot s) as [[a' b']|].
  - injection H as <- <-. simpl. f_equal. now apply IH.
  - destruct (is_dot c); [|discriminate]. now injection H as <- <-.
Qed.

(** The root [splitext] returns keeps everything up to the last slash. *)
Lemma splitext_root_shape (p : string) :
  exists a, fst (splitext p) = fst (split_last_sep p) ++ a /\ no_sep a = true.
Proof.
  destruct (split_last_sep_spec p) as (Hp & Hn & _).
  unfold splitext. destruct (split_last_sep p) as [h name]; simpl in *.
  destruct (rsplit_dot name) as [[a b]|] eqn:E.
  - destruct (all_chars is_dot a); simpl.
    + exists name. split; [exact Hp | exact Hn].
    + exists a. split; [reflexivity|].
      apply rsplit_dot_spec in E. subst name. rewrite no_sep_app in Hn.
      now apply andb_prop in Hn as [? _].
  - exists name. split; [exact Hp | exact Hn].
Qed.

Lemma dirname_wav_beside (caf : string) :
  dirname (CafGui.wav_beside caf) = dirname caf.
Proof.
  unfold CafGui.wav_beside. destruct (splitext_root_shape caf) as (a & -> & Ha).
  rewrite append_assoc. apply dirname_reattach.
  rewrite no_sep_app, Ha. reflexivity.
Qed.

Lemma startswith_sep_no_sep (b : string) :
  no_sep b = true -> startswith b "/" = false.
Proof.
  unfold no_sep. destruct b as [|c b]; [reflexivity|].
  cbn [startswith all_chars]. intros H.
  apply andb_prop in H as [Hc _]. apply negb_true_iff in Hc.
  unfold is_sep in Hc. now rewrite Ascii.eqb_sym, Hc.
Qed.

Lemma endswith_sep_no_sep (s : string) :
  no_sep s = true -> endswith s "/" = false.
Proof.
  unfold no_sep. induction s as [|c s IH]; simpl; [reflexivity|].
  intros H. apply andb_prop in H as [Hc Hs]. apply negb_true_iff in Hc.
  unfold is_sep in Hc. rewrite Hc, (IH Hs). reflexivity.
Qed.

Lemma endswith_sep_app (x s : string) :
  s <> "" -> endswith (x ++ s) "/" = endswith s "/".
Proof.
  intros Hs. induction x as [|c x IH]; [reflexivity|].
  cbn [append endswith]. rewrite IH.
  destruct (String.eqb_spec (String c (x ++ s)) "/") as [E|_]; [|reflexivity].
  injection E as _ E. apply append_eq_nil in E as [_ E]. contradiction.
Qed.

Lemma all_chars_app (p : ascii -> bool) (a b : string) :
  all_chars p (a ++ b) = all_chars p a && all_chars p b.
Proof.
  induction a as [|c a IH]; simpl; [reflexivity|]. now rewrite IH, andb_assoc.
Qed.

Lemma rstrip_sep_no_sep (s : string) :
  no_sep s = true -> rstrip_if is_sep (s ++ "/") = s.
Proof.
  unfold no_sep. induction s as [|c s IH]; simpl; [reflexivity|].
  intros H. apply andb_prop in H as [Hc Hs]. apply negb_true_iff in Hc.
  rewrite (IH Hs), Hc, andb_false_r. reflexivity.
Qed.

Lemma rstrip_if_app (p : ascii -> bool) (a b : string) :
  rstrip_if p b <> "" -> rstrip_if p (a ++ b) = a ++ rstrip_if p b.
Proof.
  intros Hb. induction a as [|c a IH]; [reflexivity|].
  simpl. rewrite IH.
  destruct (a ++ rstrip_if p b) eqn:E; [|reflexivity].
  apply append_eq_nil in E as [_ E]. contradiction.
Qed.

Lemma no_sep_not_all_sep (s : string) :
  no_sep s = true -> s <> "" -> all_chars is_sep s = false.
Proof.
  unfold no_sep. destruct s as [|c s]; simpl; [congruence|].
  intros H _. apply andb_prop in H as [Hc _]. apply negb_true_iff in Hc.
  now rewrite Hc.
Qed.

(** [join2 d sub] for a component [sub]: [sub] appended to something. *)
Lemma join2_component (d sub : string) :
  no_sep sub = true -> exists x, join2 d sub = x ++ sub.
Proof.
  intros Hs. unfold join2. rewrite (startswith_sep_no_sep sub Hs).
  destruct (negb (truthy d) || endswith d "/").
  - now exists d.
  - exists (d ++ "/"). now rewrite append_assoc.
Qed.

(** The shape of a destination of the bit-depth converter. *)
Lemma output_path_shape (wav_file sub : string) :
  no_sep sub = true -> sub <> "" ->
  WavDepth.output_path_of wav_file sub
  = join2 (dirname wav_file) sub ++ "/" ++ basename wav_file.
Proof.
  intros Hs Hne. unfold WavDepth.output_path_of.
  destruct (join2_component (dirname wav_file) sub Hs) as (x & ->).
  destruct (split_last_sep_spec wav_file) as (_ & Hb & _). fold (basename wav_file) in Hb.
  unfold join2 at 1. rewrite (startswith_sep_no_sep _ Hb).
  rewrite (endswith_sep_app x sub Hne), (endswith_sep_no_sep sub Hs).
  unfold truthy. destruct (x ++ sub) eqn:E.
  - apply append_eq_nil in E as [_ E]. contradiction.
  - reflexivity.
Qed.

Lemma basename_output_path (wav_file sub : string) :
  no_sep sub = true -> sub <> "" ->
  basename (WavDepth.output_path_of wav_file sub) = basename wav_file.
Proof.
  intros Hs Hne. rewrite (output_path_shape _ _ Hs Hne).
  destruct (split_last_sep_spec wav_file) as (_ & Hb & _). fold (basename wav_file) in Hb.
  unfold basename at 1. now rewrite (split_last_sep_app _ _ Hb).
Qed.

Lemma dirname_output_path (wav_file sub : string) :
  no_sep sub = true -> sub <> "" ->
  dirname (WavDepth.output_path_of wav_file sub) = join2 (dirname wav_file) sub.
Proof.
  intros Hs Hne. rewrite (output_path_shape _ _ Hs Hne).
  destruct (split_last_sep_spec wav_file) as (_ & Hb & _). fold (basename wav_file) in Hb.
  unfold dirname at 1. rewrite (split_last_sep_app _ _ Hb). cbn [fst].
  destruct (join2_component (dirname wav_file) sub Hs) as (x & ->).
  assert (Hr : rstrip_if is_sep (sub ++ "/") = sub) by now apply rstrip_sep_no_sep.
  rewrite append_assoc, all_chars_app, all_chars_app,
    (no_sep_not_all_sep sub Hs Hne), andb_false_l, andb_false_r.
  unfold truthy. destruct (x ++ sub ++ "/") eqn:E.
  - apply append_eq_nil in E as [_ E]. apply append_eq_nil in E as [_ E]. discriminate.
  - cbn [String.eqb negb andb]. rewrite <- E.
    rewrite rstrip_if_app; rewrite Hr; [reflexivity | assumption].
Qed.

Lemma split_head_of_sep (a b : string) :
  fst (split_last_sep (a ++ "/" ++ b)) <> "".
Proof.
  induction a as [|c a IH].
  - change ("" ++ "/" ++ b) with (String "/" b). cbn [split_last_sep].
    destruct (split_last_sep b) as [h t]. destruct h; cbn; discriminate.
  - change (String c a ++ "/" ++ b) with (String c (a ++ "/" ++ b)).
    cbn [split_last_sep]. destruct (split_last_sep (a ++ "/" ++ b)) as [h t].
    cbn [fst] in IH. destruct h; [contradiction|]. cbn. discriminate.
Qed.

Lemma rstrip_if_nil (p : ascii -> bool) (s : string) :
  rstrip_if p s = "" -> all_chars p s = true.
Proof.
  induction s as [|c s IH]; [reflexivity|]. cbn [rstrip_if all_chars].
  destruct (String.eqb_spec (rstrip_if p s) "") as [E|_]; [|discriminate].
  destruct (p c); [|discriminate]. intros _. now rewrite (IH E).
Qed.

Lemma dirname_nonempty (p : string) :
  fst (split_last_sep p) <> "" -> dirname p <> "".
Proof.
  intros H. unfold dirname.
  destruct (all_chars is_sep (fst (split_last_sep p))) eqn:E.
  - now rewrite andb_false_r.
  - destruct (truthy (fst (split_last_sep p))); [|exact H].
    cbn [andb negb]. intros Hr. apply rstrip_if_nil in Hr. congruence.
Qed.

Lemma endswith_spec (s suf : string) :
  endswith s suf = true -> exists x, s = x ++ suf.
Proof.
  induction s as [|c s IH]; cbn [endswith]; intros H.
  - rewrite orb_false_r in H. apply String.eqb_eq in H. subst. now exists "".
  - apply orb_prop in H as [H|H].
    + apply String.eqb_eq in H. subst. now exists "".
    + destruct (IH H) as [x ->]. now exists (String c x).
Qed.

Lemma startswith_sep (y : string) :
  startswith y "/" = true -> exists y', y = "/" ++ y'.
Proof.
  destruct y as [|c y]; cbn [startswith]; [discriminate|].
  rewrite andb_true_r. intros H. apply Ascii.eqb_eq in H. subst. now exists y.
Qed.

Lemma dirname_join2_nonempty (o y : string) :
  o <> "" -> dirname (join2 o y) <> "".
Proof.
  intros Ho. apply dirname_nonempty. unfold join2.
  destruct (startswith y "/") eqn:Ey.
  - destruct (startswith_sep y Ey) as [y' ->]. apply (split_head_of_sep "" y').
  - destruct (truthy o) eqn:Et; cbn [negb orb].
    + destruct (endswith o "/") eqn:Ee.
      * destruct (endswith_spec o "/" Ee) as [x ->]. rewrite append_assoc.
        apply split_head_of_sep.
      * apply split_head_of_sep.
    + unfold truthy in Et. apply negb_false_iff, String.eqb_eq in Et. contradiction.
Qed.

(** ** Components and [pathlib] *)

Lemma split_no_sep (s : string) : no_sep s = true -> split "/" s = [s].
Proof.
  unfold no_sep. induction s as [|c s IH]; [reflexivity|].
  cbn [all_chars split]. intros H. apply andb_prop in H as [Hc Hs].
  apply negb_true_iff in Hc. unfold is_sep in Hc. now rewrite Hc, (IH Hs).
Qed.

Lemma parse_component (s : string) :
  no_sep s = true -> s <> "" -> s <> "." ->
  PurePath.parse s = {| PurePath.root := ""; PurePath.parts := [s] |}.
Proof.
  intros Hs H0 H1. unfold PurePath.parse.
  rewrite (startswith_sep_no_sep s Hs), (split_no_sep s Hs). cbn [filter].
  apply String.eqb_neq in H0, H1. now rewrite H0, H1.
Qed.

Lemma stem_no_sep (p : PurePath.t) :
  no_sep (PurePath.name p) = true -> no_sep (PurePath.stem p) = true.
Proof.
  intros Hn. unfold PurePath.stem.
  destruct (rsplit_dot (PurePath.name p)) as [[a b]|] eqn:E; [|exact Hn].
  destruct (truthy a && (1 <? String.length b)%nat); [|exact Hn].
  apply rsplit_dot_spec in E. rewrite E, no_sep_app in Hn.
  now apply andb_prop in Hn as [? _].
Qed.

Lemma wav_name_is_component (st : string) :
  no_sep st = true ->
  PurePath.parse (st ++ ".wav")
  = {| PurePath.root := ""; PurePath.parts := [st ++ ".wav"] |}.
Proof.
  intros Hs. apply parse_component.
  - now rewrite no_sep_app, Hs.
  - intros H. apply append_eq_nil in H as [_ H]. discriminate.
  - intros H. apply (f_equal String.length) in H. rewrite length_append in H.
    cbn in H. lia.
Qed.

(** The destination of the command-line converter, component by
    component. *)
Lemma out_path_of_shape (caf : PurePath.t) :
  no_sep (PurePath.name caf) = true ->
  CafCli.out_path_of caf
  = {| PurePath.root := PurePath.root (PurePath.parent caf);
       PurePath.parts :=
         List.app (PurePath.parts (PurePath.parent caf))
           ["32bit_wav"; PurePath.stem caf ++ ".wav"] |}.
Proof.
  intros Hn. unfold CafCli.out_path_of, PurePath.truediv.
  rewrite (wav_name_is_component _ (stem_no_sep caf Hn)).
  cbn. now rewrite <- app_assoc.
Qed.

Lemma path_eq (p q : PurePath.t) :
  PurePath.root p = PurePath.root q -> PurePath.parts p = PurePath.parts q -> p = q.
Proof. destruct p, q. cbn. now intros -> ->. Qed.

Lemma out_path_of_eq (p1 p2 : PurePath.t) :
  no_sep (PurePath.name p1) = true -> no_sep (PurePath.name p2) = true ->
  (CafCli.out_path_of p1 = CafCli.out_path_of p2
   <-> PurePath.parent p1 = PurePath.parent p2 /\ PurePath.stem p1 = PurePath.stem p2).
Proof.
  intros H1 H2. rewrite (out_path_of_shape p1 H1), (out_path_of_shape p2 H2). split.
  - intros [= Hr Hp].
    change [?a; ?b] with ([a] ++ [b])%list in Hp. rewrite !app_assoc in Hp.
    apply app_inj_tail in Hp as [Hp Hs]. apply app_inj_tail in Hp as [Hp _].
    split; [now apply path_eq | now apply append_inj_r in Hs].
  - now intros [-> ->].
Qed.

Lemma wav_beside_eq (caf1 caf2 : string) :
  CafGui.wav_beside caf1 = CafGui.wav_beside caf2
  <-> fst (splitext caf1) = fst (splitext caf2).
Proof.
  unfold CafGui.wav_beside. split; [apply append_inj_r | now intros ->].
Qed.

Lemma NoDup_map_reflect {A B C : Type} (f : A -> B) (g : A -> C) (l : list A) :
  (forall x y, g x = g y -> f x = f y) -> NoDup (map f l) -> NoDup (map g l).
Proof.
  intros Hfg. induction l as [|a l IH]; cbn; intros H; [constructor|].
  inversion H as [|? ? Hin Hnd]; subst. constructor; [|auto].
  intros Hg. apply Hin. apply in_map_iff in Hg as (y & Hy & Hl).
  apply in_map_iff. exists y. split; [now apply Hfg | assumption].
Qed.

Lemma endswith_app (a suf : string) : endswith (a ++ suf) suf = true.
Proof.
  induction a as [|c a IH].
  - cbn [append]. destruct suf; cbn [endswith]; now rewrite String.eqb_refl.
  - cbn [append endswith]. now rewrite IH, orb_true_r.
Qed.

Lemma endswith_join2 (a b suf : string) :
  endswith b suf = true -> endswith (join2 a b) suf = true.
Proof.
  intros Hb. destruct (endswith_spec b suf Hb) as [x ->]. unfold join2.
  destruct (startswith (x ++ suf) "/"); [apply endswith_app|].
  destruct (negb (truthy a) || endswith a "/");
    rewrite <- ?append_assoc; apply endswith_app.
Qed.

(** ** Relative paths *)

Lemma is_component_spec (s : string) :
  is_component s = true ->
  no_sep s = true /\ (s =? "") = false /\ (s =? ".") = false /\ (s =? "..") = false.
Proof.
  unfold is_component. intros H.
  apply andb_prop in H as [H H3]. apply andb_prop in H as [H H2].
  apply andb_prop in H as [H0 H1].
  apply negb_true_iff in H1, H2, H3. auto.
Qed.

Lemma split_app_sep (x r : string) :
  no_sep x = true -> split "/" (x ++ "/" ++ r) = x :: split "/" r.
Proof.
  unfold no_sep. induction x as [|c x IH]; intros H.
  - reflexivity.
  - cbn [all_chars] in H. apply andb_prop in H as [Hc Hx].
    apply negb_true_iff in Hc. unfold is_sep in Hc.
    change (String c x ++ "/" ++ r) with (String c (x ++ "/" ++ r)).
    cbn [split]. now rewrite Hc, (IH Hx).
Qed.

Lemma split_join (l : list string) :
  forallb is_component l = true -> l <> [] -> split "/" (join "/" l) = l.
Proof.
  induction l as [|x l IH]; [congruence|]. intros H _.
  cbn [forallb] in H. apply andb_prop in H as [Hx Hl].
  apply is_component_spec in Hx as (Hx & _). destruct l as [|y l].
  - cbn [join]. now apply split_no_sep.
  - cbn [join]. rewrite (split_app_sep _ _ Hx). f_equal. apply IH; [assumption | discriminate].
Qed.

Lemma fold_norm_step (k : nat) (l acc : list string) :
  forallb is_component l = true ->
  fold_left (norm_step k) l acc = (rev l ++ acc)%list.
Proof.
  revert acc. induction l as [|x l IH]; intros acc H; [reflexivity|].
  cbn [forallb] in H. apply andb_prop in H as [Hx Hl].
  apply is_component_spec in Hx as (_ & H0 & H1 & H2).
  cbn [fold_left rev]. unfold norm_step at 2. rewrite H0, H1, H2. cbn [orb negb].
  rewrite (IH _ Hl), <- app_assoc. reflexivity.
Qed.

Lemma rooted_not_double (l : list string) :
  forallb is_component l = true -> startswith (rooted l) "//" = false.
Proof.
  unfold rooted. destruct l as [|x l]; [reflexivity|]. intros H.
  cbn [forallb] in H. apply andb_prop in H as [Hx _].
  apply is_component_spec in Hx as (Hn & H0 & _).
  destruct x as [|c x]; [discriminate|].
  assert (Hc : Ascii.eqb "/" c = false).
  { unfold no_sep in Hn. cbn [all_chars] in Hn. apply andb_prop in Hn as [Hc _].
    apply negb_true_iff in Hc. unfold is_sep in Hc. now rewrite Ascii.eqb_sym. }
  destruct l; cbn [join append startswith]; now rewrite Hc.
Qed.

Lemma split_rooted (l : list string) :
  forallb is_component l = true ->
  split "/" (rooted l) = "" :: match l with [] => [""] | _ :: _ => l end.
Proof.
  intros H. unfold rooted. change ("/" ++ join "/" l) with (String "/" (join "/" l)).
  cbn [split]. rewrite Ascii.eqb_refl. f_equal.
  destruct l as [|x l]; [reflexivity|]. apply split_join; [assumption | discriminate].
Qed.

Lemma filter_truthy_components (l : list string) :
  forallb is_component l = true -> filter truthy l = l.
Proof.
  induction l as [|x l IH]; [reflexivity|]. intros H.
  cbn [forallb] in H. apply andb_prop in H as [Hx Hl].
  apply is_component_spec in Hx as (_ & H0 & _).
  cbn [filter]. unfold truthy at 1. rewrite H0. cbn [negb]. now rewrite (IH Hl).
Qed.

Lemma components_of_rooted (l : list string) :
  forallb is_component l = true -> filter truthy (split "/" (rooted l)) = l.
Proof.
  intros H. rewrite (split_rooted l H). destruct l as [|x l]; [reflexivity|].
  change (filter truthy ("" :: x :: l)) with (filter truthy (x :: l)).
  now apply filter_truthy_components.
Qed.

Lemma normpath_rooted (l : list string) :
  forallb is_component l = true -> normpath (rooted l) = rooted l.
Proof.
  intros H. unfold normpath.
  assert (Hne : (rooted l =? "") = false) by reflexivity.
  assert (Hs : startswith (rooted l) "/" = true) by reflexivity.
  rewrite Hne, Hs, (rooted_not_double l H). cbn [andb].
  rewrite (split_rooted l H). cbn [fold_left].
  change (norm_step 1 [] "") with (@nil string).
  assert (Hc : rev (fold_left (norm_step 1) match l with [] => [""] | _ :: _ => l end [])
               = l).
  { destruct l as [|x l]; [reflexivity|].
    rewrite (fold_norm_step 1 _ [] H), app_nil_r. apply rev_involutive. }
  rewrite Hc. reflexivity.
Qed.

Lemma abspath_rooted (cwd : string) (l : list string) :
  forallb is_component l = true -> abspath cwd (rooted l) = rooted l.
Proof.
  intros H. unfold abspath.
  assert (Hs : startswith (rooted l) "/" = true) by reflexivity.
  rewrite Hs. now apply normpath_rooted.
Qed.

Lemma common_prefix_len_app (cs ds : list string) :
  common_prefix_len cs (cs ++ ds)%list = List.length cs.
Proof.
  induction cs as [|x cs IH]; [now destruct ds|].
  cbn [List.app common_prefix_len List.length]. now rewrite String.eqb_refl, IH.
Qed.

Lemma join_all_components (acc : string) (r : list string) :
  acc <> "" -> endswith acc "/" = false -> forallb is_component r = true ->
  join_all acc r = join "/" (acc :: r).
Proof.
  unfold join_all. revert acc. induction r as [|y r IH]; intros acc Hne He H; [reflexivity|].
  cbn [forallb] in H. apply andb_prop in H as [Hy Hr].
  apply is_component_spec in Hy as (Hn & H0 & _).
  assert (Hy : y <> "") by now apply String.eqb_neq.
  cbn [fold_left].
  assert (Hj : join2 acc y = acc ++ "/" ++ y).
  { unfold join2. rewrite (startswith_sep_no_sep y Hn), He.
    unfold truthy. apply String.eqb_neq in Hne. now rewrite Hne. }
  rewrite Hj, IH; [|intros E; apply append_eq_nil in E as [E _]; contradiction| |assumption].
  - destruct r; cbn [join]; [reflexivity | now rewrite !append_assoc].
  - rewrite <- append_assoc, (endswith_sep_app _ y Hy). now apply endswith_sep_no_sep.
Qed.

(** The path of a file below a directory, relative to that directory. *)
Lemma relpath_below (cwd : string) (cs ds : list string) :
  forallb is_component cs = true -> forallb is_component ds = true -> ds <> [] ->
  relpath cwd (rooted (cs ++ ds)) (rooted cs) = Some (join "/" ds).
Proof.
  intros Hcs Hds Hne. unfold relpath.
  assert (H0 : (rooted (cs ++ ds) =? "") = false) by reflexivity.
  assert (Hall : forallb is_component (cs ++ ds) = true)
    by now rewrite forallb_app, Hcs, Hds.
  rewrite H0, (abspath_rooted cwd _ Hcs), (abspath_rooted cwd _ Hall).
  rewrite (components_of_rooted _ Hcs), (components_of_rooted _ Hall).
  cbv zeta. rewrite common_prefix_len_app, Nat.sub_diag. cbn [repeat List.app].
  rewrite skipn_app, skipn_all, Nat.sub_diag. cbn [List.app skipn].
  destruct ds as [|d r]; [contradiction|]. f_equal.
  cbn [forallb] in Hds. apply andb_prop in Hds as [Hd Hr].
  apply is_component_spec in Hd as (Hn & Hd0 & _).
  apply join_all_components; [now apply String.eqb_neq | now apply endswith_sep_no_sep | assumption].
Qed.

(** ** The model of [os.path] against CPython

    The values on the right are what CPython 3 returns on a POSIX system,
    [os.getcwd()] being [/tmp]. *)

Example splitext_examples :
  map splitext ["x.caf"; ".caf"; "a/..caf"; "a/b.c.d"; "a.b/c"; "a/b."; "a//b.wav"]
  = [("x", ".caf"); (".caf", ""); ("a/..caf", ""); ("a/b.c", ".d"); ("a.b/c", "");
     ("a/b", "."); ("a//b", ".wav")].
Proof. reflexivity. Qed.

Example dirname_basename_examples :
  map (fun p => (dirname p, basename p)) [""; "a"; "/"; "//a"; "a/b/"; "///a/b"; "a//b.wav"]
  = [("", ""); ("", "a"); ("/", ""); ("//", "a"); ("a/b", ""); ("///a", "b");
     ("a", "b.wav")].
Proof. reflexivity. Qed.

Example join_examples :
  map (fun ab => join2 (fst ab) (snd ab))
    [("", "x"); ("a", "x"); ("a/", "x"); ("a", "/x"); ("/", "x"); ("a", "")]
  = ["x"; "a/x"; "a/x"; "/x"; "/x"; "a/"].
Proof. reflexivity. Qed.

Example normpath_examples :
  map normpath [""; "/"; "//"; "///a/b"; "a/./b/../c.wav"; "a//b.wav"; "/x/y.z/"]
  = ["."; "/"; "//"; "/a/b"; "a/c.wav"; "a/b.wav"; "/x/y.z"].
Proof. reflexivity. Qed.

Example relpath_examples :
  map (fun ps => relpath "/tmp" (fst ps) (snd ps))
    [("/src/a/x.caf", "/src"); ("/src/a/x.caf", "/src/"); ("/a/b", "/a/b");
     ("/a/b", "/c/d"); ("x/y", "."); ("/src/../x.caf", "/src"); ("", "/src")]
  = [Some "a/x.caf"; Some "a/x.caf"; Some "."; Some "../../a/b"; Some "x/y";
     Some "../x.caf"; None].
Proof. reflexivity. Qed.

Example pathlib_examples :
  map (fun n => let p := PurePath.truediv (PurePath.parse "/d") n in
                (PurePath.stem p, PurePath.to_str (CafCli.out_path_of p)))
    ["x.caf"; ".caf"; "..caf"; "a.b.caf"; "a."]
  = [("x", "/d/32bit_wav/x.wav"); (".caf", "/d/32bit_wav/.caf.wav");
     (".", "/d/32bit_wav/..wav"); ("a.b", "/d/32bit_wav/a.b.wav");
     ("a.", "/d/32bit_wav/a..wav")].
Proof. reflexivity. Qed.

(* ================================================================== *)
(** * Facts about traces *)
(* ================================================================== *)

(** ** Counting events *)

Lemma count_app (p : Event -> bool) (a b : list Event) :
  count p (a ++ b)%list = count p a + count p b.
Proof. unfold count. now rewrite filter_app, length_app. Qed.

Lemma count_cons (p : Event -> bool) (e : Event) (t : list Event) :
  count p (e :: t) = (if p e then 1 else 0) + count p t.
Proof. unfold count. cbn [filter]. now destruct (p e). Qed.

Lemma count_nil (p : Event -> bool) : count p [] = 0.
Proof. reflexivity. Qed.

Lemma count_none (p q : Event -> bool) (t : list Event) :
  (forall e, q e = true -> p e = false) -> forallb q t = true -> count p t = 0.
Proof.
  intros Hpq. unfold count. induction t as [|e t IH]; [reflexivity|].
  cbn [forallb filter]. intros H. apply andb_prop in H as [He Ht].
  rewrite (Hpq e He). auto.
Qed.

Lemma count_map_log (p : Event -> bool) (lines : list string) :
  (forall m, p (Log m) = false) -> count p (map Log lines) = 0.
Proof.
  intros Hp. unfold count. induction lines as [|l lines IH]; [reflexivity|].
  cbn [map filter]. now rewrite Hp.
Qed.

Lemma relpath_none (cwd p start : string) : relpath cwd p start = None -> p = "".
Proof.
  unfold relpath. destruct (String.eqb_spec p "") as [->|_]; [reflexivity|].
  cbv zeta. destruct (_ ++ _)%list; discriminate.
Qed.

#[local] Hint Rewrite count_app count_cons count_nil : counts.

(* ================================================================== *)
(** * The CAF converter *)
(* ================================================================== *)

Section CafGuiFacts.
Context {os : OS}.
Variable app : CafGui.App.
Import CafGui.

Lemma log_all_run (lines : list string) (fs : FS) :
  log_all lines fs = (Ret tt, fs, map Log lines).
Proof.
  induction lines as [|l lines IH]; [reflexivity|].
  cbn [log_all map]. unfold log_message. run_monad. now rewrite IH.
Qed.

Lemma report_run (r : JobResult) (fs : FS) :
  report r fs = (Ret tt, fs, map Log (report_lines r)).
Proof. apply log_all_run. Qed.

Lemma convert_with_ffmpeg_run (caf wp bd : string) (trim : bool) (fs : FS) :
  convert_with_ffmpeg app caf wp bd trim fs
  = let cmd := ffmpeg_cmd (overwrite_var app) caf wp bd trim in
    match subprocess_run cmd fs with
    | (Completed rc err, fs') => (Ret (ffmpeg_result wp rc err), fs', [CallRun cmd])
    | (RunRaised msg, fs') =>
        (Ret {| wav_path := None; status := "Exception: " ++ msg; info := "" |},
         fs', [CallRun cmd])
    end.
Proof.
  unfold convert_with_ffmpeg. run_monad.
  destruct (subprocess_run _ fs) as [[rc err|msg] fs']; reflexivity.
Qed.

Lemma plan_wav_path_run (caf : string) (out : option string) (fs : FS) :
  plan_wav_path app caf out fs
  = match chosen out with
    | None => (Ret (wav_beside caf), fs, [])
    | Some o =>
        match relpath getcwd caf (selected_directory app) with
        | None => (Raise "no path specified", fs, [])
        | Some rel =>
            let wp := wav_under o rel in
            match makedirs (dirname wp) fs with
            | (None, fs') => (Ret wp, fs', [CallMakedirs (dirname wp)])
            | (Some msg, fs') => (Raise msg, fs', [CallMakedirs (dirname wp)])
            end
        end
    end.
Proof.
  unfold plan_wav_path. destruct (chosen out) as [o|]; [|reflexivity].
  run_monad. destruct (relpath _ _ _) as [rel|]; [|reflexivity].
  cbv beta iota. destruct (makedirs _ fs) as [[msg|] fs']; reflexivity.
Qed.

(** What [convert_caf_to_wav] does, case by case. *)
Lemma convert_caf_to_wav_run (caf bd : string) (out : option string) (trim : bool)
    (fs : FS) :
  convert_caf_to_wav app caf bd out trim fs
  = match plan_wav_path app caf out fs with
    | (Raise e, fs1, t1) =>
        (Ret {| wav_path := None; status := "error: " ++ e; info := "" |}, fs1, t1)
    | (Ret wp, fs1, t1) =>
        if path_exists wp fs1 && negb (overwrite_var app) then
          (Ret {| wav_path := Some wp; status := "skipped (already exists)"; info := "" |},
           fs1, t1)
        else if negb (ffmpeg_available app) then
          (Ret {| wav_path := None; status := "error: FFmpeg not available"; info := "" |},
           fs1, t1)
        else
          let cmd := ffmpeg_cmd (overwrite_var app) caf wp bd trim in
          match subprocess_run cmd fs1 with
          | (Completed rc err, fs2) =>
              (Ret (ffmpeg_result wp rc err), fs2, (t1 ++ [CallRun cmd])%list)
          | (RunRaised msg, fs2) =>
              (Ret {| wav_path := None; status := "Exception: " ++ msg; info := "" |},
               fs2, (t1 ++ [CallRun cmd])%list)
          end
    end.
Proof.
  unfold convert_caf_to_wav. run_monad.
  destruct (plan_wav_path app caf out fs) as [[[wp|e] fs1] t1].
  - cbv beta iota. destruct (path_exists wp fs1 && negb (overwrite_var app)).
    + now rewrite !app_nil_r.
    + destruct (negb (ffmpeg_available app)).
      * now rewrite !app_nil_r.
      * rewrite convert_with_ffmpeg_run. cbv zeta.
        destruct (subprocess_run _ fs1) as [[rc err|msg] fs2]; now rewrite ?app_nil_r.
  - now rewrite !app_nil_r.
Qed.

Lemma convert_caf_to_wav_total (caf bd : string) (out : option string) (trim : bool)
    (fs : FS) :
  exists r fs' t, convert_caf_to_wav app caf bd out trim fs = (Ret r, fs', t).
Proof.
  rewrite convert_caf_to_wav_run.
  destruct (plan_wav_path app caf out fs) as [[[wp|e] fs1] t1]; [|eauto].
  destruct (path_exists wp fs1 && negb (overwrite_var app)); [eauto|].
  destruct (negb (ffmpeg_available app)); [eauto|].
  cbv zeta. destruct (subprocess_run _ fs1) as [[rc err|msg] fs2]; eauto.
Qed.

(** One iteration of the loop of [conversion_thread]. *)
Lemma conversion_loop_cons (running : nat -> bool) (bd : string) (trim : bool)
    (total i : nat) (caf : string) (rest : list string) (c : Counts) (fs : FS) :
  conversion_loop app running bd trim total i (caf :: rest) c fs
  = if running i then
      match relpath getcwd caf (selected_directory app) with
      | None => (Raise "no path specified", fs, [PollRunning true])
      | Some rel =>
          match convert_caf_to_wav app caf bd (output_directory app) trim fs with
          | (Ret r, fs1, t1) =>
              let c' := tally c (status r) in
              let before :=
                List.app
                  [PollRunning true; ProgressLabel ("Converting: " ++ rel);
                   Log (NL ++ "[" ++ str_of_nat (i + 1) ++ "/" ++ str_of_nat total ++ "] "
                        ++ rel)]
                  (t1 ++ map Log (report_lines r)
                   ++ [ProgressValue (i + 1); FileCountLabel (counts_line c')])%list in
              match conversion_loop app running bd trim total (S i) rest c' fs1 with
              | (Ret x, fs2, t2) =>
                  (Ret {| counts := counts x; jobs := (caf, r) :: jobs x;
                          cancelled := cancelled x |}, fs2, (before ++ t2)%list)
              | (Raise e, fs2, t2) => (Raise e, fs2, (before ++ t2)%list)
              end
          | (Raise e, fs1, t1) =>
              (Raise e, fs1,
               List.app
                 [PollRunning true; ProgressLabel ("Converting: " ++ rel);
                  Log (NL ++ "[" ++ str_of_nat (i + 1) ++ "/" ++ str_of_nat total ++ "] "
                       ++ rel)]
                 t1)
          end
      end
    else
      (Ret {| counts := c; jobs := []; cancelled := true |}, fs,
       [PollRunning false; Log (NL ++ "❌ Cancelled" ++ NL)]).
Proof.
  cbn [conversion_loop]. unfold log_message. run_monad.
  destruct (running i); [|reflexivity]. cbv beta iota delta [negb].
  destruct (relpath _ _ _) as [rel|]; [|reflexivity]. cbv beta iota.
  destruct (convert_caf_to_wav app caf bd (output_directory app) trim fs)
    as [[[r|e] fs1] t1]; [|reflexivity].
  cbv beta iota zeta. rewrite report_run. cbv beta iota.
  destruct (conversion_loop app running bd trim total (S i) rest _ fs1)
    as [[[x|e] fs2] t2]; cbv beta iota;
    rewrite ?app_nil_r; cbn [List.app]; rewrite <- ?app_assoc; reflexivity.
Qed.

Lemma convert_caf_to_wav_calls (caf bd : string) (out : option string) (trim : bool)
    (fs : FS) :
  forallb is_call (snd (convert_caf_to_wav app caf bd out trim fs)) = true.
Proof.
  rewrite convert_caf_to_wav_run, plan_wav_path_run.
  destruct (chosen out) as [o|].
  - destruct (relpath _ _ _) as [rel|]; [|reflexivity].
    cbv zeta. destruct (makedirs _ fs) as [[msg|] fs1]; [reflexivity|].
    destruct (path_exists _ fs1 && negb (overwrite_var app)); [reflexivity|].
    destruct (negb (ffmpeg_available app)); [reflexivity|].
    destruct (subprocess_run _ fs1) as [[rc err|msg] fs2]; reflexivity.
  - destruct (path_exists _ fs && negb (overwrite_var app)); [reflexivity|].
    destruct (negb (ffmpeg_available app)); [reflexivity|].
    cbv zeta. destruct (subprocess_run _ fs) as [[rc err|msg] fs2]; reflexivity.
Qed.

Lemma tally_total (c : Counts) (s : string) :
  converted_count (tally c s) + skipped_count (tally c s) + error_count (tally c s)
  = converted_count c + skipped_count c + error_count c + 1.
Proof. unfold tally. destruct (kind_of s); cbn; lia. Qed.

Lemma convert_caf_to_wav_runs_once (caf bd : string) (out : option string)
    (trim : bool) (fs : FS) :
  count is_run (snd (convert_caf_to_wav app caf bd out trim fs)) <= 1.
Proof.
  rewrite convert_caf_to_wav_run, plan_wav_path_run.
  destruct (chosen out) as [o|].
  - destruct (relpath _ _ _) as [rel|]; [|cbn; lia].
    cbv zeta. destruct (makedirs _ fs) as [[msg|] fs1]; [cbn; lia|].
    destruct (path_exists _ fs1 && negb (overwrite_var app)); [cbn; lia|].
    destruct (negb (ffmpeg_available app)); [cbn; lia|].
    destruct (subprocess_run _ fs1) as [[rc err|msg] fs2]; cbn; lia.
  - destruct (path_exists _ fs && negb (overwrite_var app)); [cbn; lia|].
    destruct (negb (ffmpeg_available app)); [cbn; lia|].
    cbv zeta. destruct (subprocess_run _ fs) as [[rc err|msg] fs2]; cbn; lia.
Qed.

(** The loop of [conversion_thread], whatever the collaborators do: its
    jobs are the first files of the list, one for each poll that read the
    flag set; it stops at the first poll that reads it cleared, or when
    the files are exhausted. *)
Lemma conversion_loop_shape (running : nat -> bool) (bd : string) (trim : bool)
    (total : nat) (files : list string) :
  forall (i : nat) (c : Counts) (fs : FS),
    match conversion_loop app running bd trim total i files c fs with
    | (Ret x, _, tr) =>
        let n := List.length (jobs x) in
        converted_count (counts x) + skipped_count (counts x) + error_count (counts x)
        = converted_count c + skipped_count c + error_count c + n
        /\ map fst (jobs x) = firstn n files
        /\ n <= List.length files
        /\ (forall k, k < n -> running (i + k) = true)
        /\ (if cancelled x
            then n < List.length files /\ running (i + n) = false
                 /\ exists tr1,
                      tr = (tr1 ++ [PollRunning false;
                                    Log (NL ++ "❌ Cancelled" ++ NL)])%list
            else n = List.length files)
        /\ count is_poll tr = n + (if cancelled x then 1 else 0)
        /\ count is_run tr <= n
        /\ count is_progress_value tr = n
    | (Raise _, _, _) => In "" files
    end.
Proof.
  induction files as [|caf rest IH]; intros i c fs.
  - cbn. repeat split; auto. intros k Hk. lia.
  - rewrite conversion_loop_cons. destruct (running i) eqn:Hi.
    + destruct (relpath _ _ _) as [rel|] eqn:Erel.
      * pose proof (convert_caf_to_wav_calls caf bd (output_directory app) trim fs) as Hcalls.
        pose proof (convert_caf_to_wav_runs_once caf bd (output_directory app) trim fs) as Hrun.
        destruct (convert_caf_to_wav_total caf bd (output_directory app) trim fs)
          as (r & fs1 & t1 & E).
        rewrite E in *. cbn [snd] in Hcalls, Hrun. cbv zeta.
        specialize (IH (S i) (tally c (status r)) fs1).
        destruct (conversion_loop app running bd trim total (S i) rest _ fs1)
          as [[[x|e] fs2] t2]; [|now right].
        cbv zeta in IH. destruct IH as (Hsum & Hpre & Hle & Hon & Hend & Hp & Hr & Hpv).
        cbn [counts jobs cancelled List.length map fst firstn].
        rewrite tally_total in Hsum.
        split; [lia|]. split; [now rewrite Hpre|]. split; [lia|]. split.
        { intros [|k] Hk; [now rewrite Nat.add_0_r|].
          replace (i + S k) with (S i + k) by lia. apply Hon. lia. }
        split.
        { destruct (cancelled x); [|lia]. destruct Hend as (Hlt & Hoff & tr1 & ->).
          split; [lia|]. split.
          - now replace (i + S (List.length (jobs x))) with (S i + List.length (jobs x)) by lia.
          - eexists. rewrite app_assoc. reflexivity. }
        count_norm.
        rewrite (count_none is_poll is_call t1), (count_none is_progress_value is_call t1),
          !count_map_log; auto; try (now intros []).
        repeat split; lia.
      * left. symmetry. now apply relpath_none in Erel.
    + cbn [jobs counts cancelled List.length map firstn]. rewrite !Nat.add_0_r.
      split; [lia|]. split; [reflexivity|]. split; [lia|].
      split; [intros k Hk; lia|].
      split; [split; [lia | split; [exact Hi | now exists []]]|].
      repeat split; cbn; lia.
Qed.

(** C1. However the loop of [conversion_thread] ends, its counters add up
    to the number of jobs it attempted (on top of what they held before),
    that number is at most the number of files planned, and it equals it
    exactly when the loop was not left through [break]; the attempted jobs
    are the first files of the list, in order, and the progress bar was
    advanced once per job.  The loop is left by an exception only when
    [os.path.relpath] raises, that is, on an empty path. *)
Theorem counters_account_for_attempted_jobs :
  forall (running : nat -> bool) (bd : string) (trim : bool) (total i : nat)
         (files : list string) (c : Counts) (fs : FS),
    match conversion_loop app running bd trim total i files c fs with
    | (Ret x, _, tr) =>
        converted_count (counts x) + skipped_count (counts x) + error_count (counts x)
        = converted_count c + skipped_count c + error_count c + List.length (jobs x)
        /\ List.length (jobs x) <= List.length files
        /\ (List.length (jobs x) = List.length files <-> cancelled x = false)
        /\ map fst (jobs x) = firstn (List.length (jobs x)) files
        /\ count is_progress_value tr = List.length (jobs x)
    | (Raise _, _, _) => In "" files
    end.
Proof.
  intros running bd trim total i files c fs.
  pose proof (conversion_loop_shape running bd trim total files i c fs) as H.
  destruct (conversion_loop app running bd trim total i files c fs)
    as [[[x|e] fs'] tr]; [|exact H].
  cbv zeta in H. destruct H as (Hsum & Hpre & Hle & _ & Hend & _ & _ & Hpv).
  repeat split; auto.
  - intros Hn. destruct (cancelled x); [lia | reflexivity].
  - intros Hc. now rewrite Hc in Hend.
Qed.

(** C4 (CAF converter). The flag is read once before each job, and once
    more when the loop is left through [break]; every job follows a poll
    that read the flag set, and [ffmpeg] runs at most once per job.  A
    cancelled loop stopped at a poll that read the flag cleared, with files
    left, and did nothing after it but log "Cancelled".  So when the flag
    reads cleared for the first time at poll [n], with more than [n] files
    planned, exactly the first [n] files are attempted and the rest are
    not. *)
Theorem flag_is_polled_before_each_job :
  forall (running : nat -> bool) (bd : string) (trim : bool) (total i : nat)
         (files : list string) (c : Counts) (fs : FS),
    match conversion_loop app running bd trim total i files c fs with
    | (Ret x, _, tr) =>
        count is_poll tr = List.length (jobs x) + (if cancelled x then 1 else 0)
        /\ count is_run tr <= List.length (jobs x)
        /\ (forall k, k < List.length (jobs x) -> running (i + k) = true)
        /\ (cancelled x = true ->
            running (i + List.length (jobs x)) = false
            /\ List.length (jobs x) < List.length files
            /\ exists tr1,
                 tr = (tr1 ++ [PollRunning false; Log (NL ++ "❌ Cancelled" ++ NL)])%list)
        /\ (forall n,
              n < List.length files ->
              (forall k, k < n -> running (i + k) = true) ->
              running (i + n) = false ->
              cancelled x = true
              /\ map fst (jobs x) = firstn n files
              /\ List.length (jobs x) = n)
    | (Raise _, _, _) => In "" files
    end.
Proof.
  intros running bd trim total i files c fs.
  pose proof (conversion_loop_shape running bd trim total files i c fs) as H.
  destruct (conversion_loop app running bd trim total i files c fs)
    as [[[x|e] fs'] tr]; [|exact H].
  cbv zeta in H. destruct H as (_ & Hpre & Hle & Hon & Hend & Hp & Hr & _).
  split; [exact Hp|]. split; [exact Hr|]. split; [exact Hon|]. split.
  - intros Hc. rewrite Hc in Hend. tauto.
  - intros n Hn Hon' Hoff.
    assert (Hm : List.length (jobs x) = n /\ cancelled x = true).
    { destruct (Nat.lt_trichotomy (List.length (jobs x)) n) as [Hlt|[Heq|Hgt]].
      - destruct (cancelled x).
        + destruct Hend as (_ & Hoff' & _). rewrite (Hon' _ Hlt) in Hoff'. discriminate.
        + lia.
      - destruct (cancelled x); [auto | lia].
      - rewrite (Hon _ Hgt) in Hoff. discriminate. }
    destruct Hm as [Hm Hc]. rewrite <- Hm at 1. auto.
Qed.

(** C2 (CAF converter). When overwriting is off and the destination
    planned for a job exists once its directory has been made,
    [convert_caf_to_wav] returns "skipped (already exists)" with that
    destination, runs no [ffmpeg], leaves the disk as the planning left it
    (untouched when no output directory is chosen), and the loop counts the
    job as skipped.  With overwriting off the [ffmpeg] command line itself
    asks not to overwrite ([-n] before the destination). *)
Theorem existing_destination_is_skipped :
  forall (caf bd : string) (out : option string) (trim : bool) (fs : FS)
         (wp : string) (fs1 : FS) (t1 : list Event) (c : Counts),
    overwrite_var app = false ->
    plan_wav_path app caf out fs = (Ret wp, fs1, t1) ->
    path_exists wp fs1 = true ->
    convert_caf_to_wav app caf bd out trim fs
    = (Ret {| wav_path := Some wp; status := "skipped (already exists)"; info := "" |},
       fs1, t1)
    /\ count is_run t1 = 0
    /\ (chosen out = None -> fs1 = fs)
    /\ kind_of "skipped (already exists)" = Skipped
    /\ skipped_count (tally c "skipped (already exists)") = skipped_count c + 1
    /\ converted_count (tally c "skipped (already exists)") = converted_count c
    /\ error_count (tally c "skipped (already exists)") = error_count c
    /\ exists options,
         ffmpeg_cmd (overwrite_var app) caf wp bd trim = (options ++ ["-n"; wp])%list.
Proof.
  intros caf bd out trim fs wp fs1 t1 c Hov Hplan Hex.
  rewrite convert_caf_to_wav_run, Hplan, Hex, Hov. cbn [negb andb].
  repeat split;
    [| |destruct trim;
        [exists ["ffmpeg"; "-i"; caf; "-af";
                 "silenceremove=start_periods=1:start_duration=0:start_threshold=-50dB";
                 "-acodec"; if bd =? "24" then "pcm_s24le" else "pcm_f32le"]
        |exists ["ffmpeg"; "-i"; caf;
                 "-acodec"; if bd =? "24" then "pcm_s24le" else "pcm_f32le"]];
        reflexivity].
  - rewrite plan_wav_path_run in Hplan. destruct (chosen out) as [o|].
    + destruct (relpath _ _ _) as [rel|]; [|discriminate].
      cbv zeta in Hplan. destruct (makedirs _ fs) as [[msg|] fs']; [discriminate|].
      now injection Hplan as <- <- <-.
    + now injection Hplan as <- <- <-.
  - intros Hout. rewrite plan_wav_path_run, Hout in Hplan. now injection Hplan.
Qed.

(** ** Running the batch twice *)

Lemma keeps_refl (fs : FS) : keeps fs fs.
Proof. now intros p. Qed.

Lemma keeps_trans (a b c : FS) : keeps a b -> keeps b c -> keeps a c.
Proof. intros H1 H2 p Hp. auto. Qed.

Lemma planned_of_plan (caf : string) (out : option string) (fs fs1 : FS)
    (wp : string) (t1 : list Event) :
  plan_wav_path app caf out fs = (Ret wp, fs1, t1) -> planned app caf out = Some wp.
Proof.
  rewrite plan_wav_path_run. unfold planned. destruct (chosen out) as [o|].
  - destruct (relpath _ _ _) as [rel|]; [|discriminate].
    cbv zeta. destruct (makedirs _ fs) as [[msg|] fs']; [discriminate|].
    now intros [= <- _ _].
  - now intros [= <- _ _].
Qed.

Lemma plan_keeps (caf : string) (out : option string) (fs : FS) :
  nothing_deleted -> keeps fs (snd (fst (plan_wav_path app caf out fs))).
Proof.
  intros [_ Hmk]. rewrite plan_wav_path_run. destruct (chosen out) as [o|].
  - destruct (relpath _ _ _) as [rel|]; [|apply keeps_refl].
    cbv zeta. specialize (Hmk (dirname (wav_under o rel)) fs).
    destruct (makedirs _ fs) as [[msg|] fs']; exact Hmk.
  - apply keeps_refl.
Qed.

Lemma convert_keeps (caf bd : string) (out : option string) (trim : bool) (fs : FS) :
  nothing_deleted ->
  keeps fs (snd (fst (convert_caf_to_wav app caf bd out trim fs))).
Proof.
  intros Hnd. pose proof (plan_keeps caf out fs Hnd) as Hplan.
  rewrite convert_caf_to_wav_run.
  destruct (plan_wav_path app caf out fs) as [[[wp|e] fs1] t1]; cbn [fst snd] in *;
    [|exact Hplan].
  destruct (path_exists wp fs1 && negb (overwrite_var app)); [exact Hplan|].
  destruct (negb (ffmpeg_available app)); [exact Hplan|].
  cbv zeta. destruct Hnd as [Hrun _].
  specialize (Hrun (ffmpeg_cmd (overwrite_var app) caf wp bd trim) fs1).
  destruct (subprocess_run _ fs1) as [[rc err|msg] fs2]; cbn [fst snd] in *;
    eapply keeps_trans; eauto.
Qed.

Lemma last_ffmpeg_cmd (ov : bool) (caf wp bd : string) (trim : bool) :
  last (ffmpeg_cmd ov caf wp bd trim) "" = wp.
Proof. destruct trim; reflexivity. Qed.

Lemma ffmpeg_result_success (wp : string) (rc : Z) (err : string) :
  status (ffmpeg_result wp rc err) = "success" -> rc = 0%Z.
Proof.
  unfold ffmpeg_result. destruct (Z.eqb_spec rc 0) as [->|_]; [reflexivity|].
  destruct (contains "already exists" err); discriminate.
Qed.

(** A job that reports success has left its destination on the disk. *)
Lemma success_leaves_destination (caf bd : string) (out : option string)
    (trim : bool) (fs : FS) (r : JobResult) (fs' : FS) (t : list Event) :
  ffmpeg_writes_destination ->
  convert_caf_to_wav app caf bd out trim fs = (Ret r, fs', t) ->
  status r = "success" ->
  exists wp, planned app caf out = Some wp /\ path_exists wp fs' = true.
Proof.
  intros Hw. rewrite convert_caf_to_wav_run.
  destruct (plan_wav_path app caf out fs) as [[[wp|e] fs1] t1] eqn:Eplan.
  - apply planned_of_plan in Eplan.
    destruct (path_exists wp fs1 && negb (overwrite_var app)).
    { intros [= <- _ _]. discriminate. }
    destruct (negb (ffmpeg_available app)).
    { intros [= <- _ _]. discriminate. }
    cbv zeta. destruct (subprocess_run _ fs1) as [[rc err|msg] fs2] eqn:Erun.
    + intros [= <- <- _] Hs. apply ffmpeg_result_success in Hs. subst rc.
      exists wp. split; [assumption|].
      apply Hw in Erun. now rewrite last_ffmpeg_cmd in Erun.
    + intros [= <- _ _]. discriminate.
  - intros [= <- _ _]. discriminate.
Qed.

Lemma chosen_nonempty (out : option string) (o : string) :
  chosen out = Some o -> o <> "".
Proof.
  unfold chosen. destruct out as [s|]; [|discriminate].
  destruct (truthy s) eqn:E; [|discriminate]. intros [= <-] ->. discriminate.
Qed.

(** A job whose destination is on the disk is skipped when overwriting is
    off. *)
Lemma present_destination_skips (caf bd : string) (out : option string)
    (trim : bool) (fs : FS) (wp : string) :
  overwrite_var app = false ->
  nothing_deleted -> makedirs_accepts_existing ->
  planned app caf out = Some wp ->
  path_exists wp fs = true ->
  status (match fst (fst (convert_caf_to_wav app caf bd out trim fs)) with
          | Ret r => r
          | Raise _ => {| wav_path := None; status := ""; info := "" |}
          end) = "skipped (already exists)".
Proof.
  intros Hov Hnd Hmk Hpl Hex. destruct Hnd as [_ Hkeep].
  rewrite convert_caf_to_wav_run, plan_wav_path_run. unfold planned in Hpl.
  destruct (chosen out) as [o|] eqn:Eo.
  - destruct (relpath _ _ _) as [rel|]; [|discriminate].
    injection Hpl as <-. cbv zeta.
    pose proof (Hmk _ fs Hex (dirname_join2_nonempty o _ (chosen_nonempty _ _ Eo))) as Hok.
    pose proof (Hkeep (dirname (wav_under o rel)) fs _ Hex) as Hex'.
    unfold wav_under in *.
    destruct (makedirs _ fs) as [[msg|] fs1]; cbn [fst snd] in *; [discriminate|].
    now rewrite Hex', Hov.
  - injection Hpl as <-. now rewrite Hex, Hov.
Qed.

(** Every job of a run was a call of [convert_caf_to_wav] in a state that
    kept what the run started with, and the run ends in a state that keeps
    what the call left. *)
Lemma jobs_of_conversion_loop (running : nat -> bool) (bd : string) (trim : bool)
    (total : nat) (files : list string) :
  nothing_deleted ->
  forall (i : nat) (c : Counts) (fs : FS) (x : LoopExit) (fs' : FS) (tr : list Event),
    conversion_loop app running bd trim total i files c fs = (Ret x, fs', tr) ->
    keeps fs fs'
    /\ forall caf r, In (caf, r) (jobs x) ->
       exists fsa fsb ta,
         convert_caf_to_wav app caf bd (output_directory app) trim fsa = (Ret r, fsb, ta)
         /\ keeps fs fsa /\ keeps fsb fs'.
Proof.
  intros Hnd. induction files as [|caf rest IH]; intros i c fs x fs' tr.
  - cbn. intros [= <- <- _]. split; [apply keeps_refl | intros ? ? []].
  - rewrite conversion_loop_cons. destruct (running i).
    + destruct (relpath _ _ _) as [rel|]; [|discriminate].
      pose proof (convert_keeps caf bd (output_directory app) trim fs Hnd) as Hk.
      destruct (convert_caf_to_wav app caf bd (output_directory app) trim fs)
        as [[[r|e] fs1] t1] eqn:E; [|discriminate].
      cbn [fst snd] in Hk. cbv zeta.
      specialize (IH (S i) (tally c (status r)) fs1).
      destruct (conversion_loop app running bd trim total (S i) rest _ fs1)
        as [[[y|e] fs2] t2]; [|discriminate].
      intros [= <- <- _]. destruct (IH y fs2 t2 eq_refl) as [Hk2 Hjobs].
      split; [eapply keeps_trans; eauto|].
      cbn [jobs]. intros caf' r' [[= <- <-]|Hin].
      * exists fs, fs1, t1. repeat split; auto using keeps_refl.
      * destruct (Hjobs caf' r' Hin) as (fsa & fsb & ta & Hc & Ha & Hb).
        exists fsa, fsb, ta. repeat split; auto. eapply keeps_trans; eauto.
    + intros [= <- <- _]. split; [apply keeps_refl | intros ? ? []].
Qed.

(** C3 (CAF converter). With overwriting off, an [ffmpeg] that leaves its
    output on the disk when it returns 0, and nothing removed in between: a
    file a first run converted with success is skipped by any run started
    from the state the first one left. *)
Theorem second_run_skips_converted_files :
  overwrite_var app = false ->
  ffmpeg_writes_destination -> nothing_deleted -> makedirs_accepts_existing ->
  forall (running1 running2 : nat -> bool) (bd : string) (trim : bool)
         (total1 total2 i1 i2 : nat) (files1 files2 : list string) (c1 c2 : Counts)
         (fs0 : FS) (x1 : LoopExit) (fs1 : FS) (t1 : list Event)
         (x2 : LoopExit) (fs2 : FS) (t2 : list Event),
    conversion_loop app running1 bd trim total1 i1 files1 c1 fs0 = (Ret x1, fs1, t1) ->
    conversion_loop app running2 bd trim total2 i2 files2 c2 fs1 = (Ret x2, fs2, t2) ->
    forall caf r1 r2,
      In (caf, r1) (jobs x1) -> status r1 = "success" ->
      In (caf, r2) (jobs x2) ->
      status r2 = "skipped (already exists)" /\ kind_of (status r2) = Skipped.
Proof.
  intros Hov Hw Hnd Hmk running1 running2 bd trim total1 total2 i1 i2 files1 files2
    c1 c2 fs0 x1 fs1 t1 x2 fs2 t2 Hrun1 Hrun2 caf r1 r2 Hin1 Hs1 Hin2.
  destruct (jobs_of_conversion_loop _ _ _ _ _ Hnd _ _ _ _ _ _ Hrun1) as [_ Hj1].
  destruct (jobs_of_conversion_loop _ _ _ _ _ Hnd _ _ _ _ _ _ Hrun2) as [_ Hj2].
  destruct (Hj1 caf r1 Hin1) as (fsa & fsb & ta & Hc1 & _ & Hb1).
  destruct (Hj2 caf r2 Hin2) as (fsa' & fsb' & ta' & Hc2 & Ha2 & _).
  destruct (success_leaves_destination _ _ _ _ _ _ _ _ Hw Hc1 Hs1) as (wp & Hpl & Hex).
  pose proof (present_destination_skips caf bd (output_directory app) trim fsa' wp
                Hov Hnd Hmk Hpl (Ha2 _ (Hb1 _ Hex))) as Hskip.
  rewrite Hc2 in Hskip. cbn [fst] in Hskip. now rewrite Hskip.
Qed.

(** ** Failures of the adapter *)

Lemma conversion_loop_completes (running : nat -> bool) (bd : string) (trim : bool)
    (total : nat) (files : list string) :
  (forall k, running k = true) -> ~ In "" files ->
  forall (i : nat) (c : Counts) (fs : FS),
  exists x fs' tr,
    conversion_loop app running bd trim total i files c fs = (Ret x, fs', tr)
    /\ map fst (jobs x) = files /\ cancelled x = false.
Proof.
  intros Hon. induction files as [|caf rest IH]; intros Hne i c fs.
  - do 3 eexists. cbn. repeat split.
  - rewrite conversion_loop_cons, Hon.
    destruct (relpath _ _ _) as [rel|] eqn:Erel.
    + destruct (convert_caf_to_wav_total caf bd (output_directory app) trim fs)
        as (r & fs1 & t1 & ->).
      cbv zeta.
      destruct (IH (fun H => Hne (or_intror H)) (S i) (tally c (status r)) fs1)
        as (x & fs2 & t2 & -> & Hj & Hc).
      do 3 eexists. split; [reflexivity|]. cbn [jobs cancelled map fst].
      now rewrite Hj.
    + apply relpath_none in Erel. subst. exfalso. apply Hne. now left.
Qed.

(** Failures of the adapter, as the code handles them.
    [convert_with_ffmpeg] never raises.  An exception
    of [subprocess.run] gives the status "Exception: ..." and a non-zero
    return code the status "FFmpeg error: " followed by the last three
    lines of the standard error joined by spaces, both counted as errors,
    unless the standard error holds "already exists": then the job is
    reported and counted as skipped.  [convert_caf_to_wav] never raises
    either, and while the flag stays set the loop attempts every file
    whatever the adapter does. *)
Theorem adapter_failure_is_contained :
  forall (caf bd : string) (trim : bool) (fs : FS),
    (forall wp,
        exists r fs' t,
          convert_with_ffmpeg app caf wp bd trim fs = (Ret r, fs', t)
          /\ match fst (subprocess_run
                          (ffmpeg_cmd (overwrite_var app) caf wp bd trim) fs) with
             | RunRaised msg =>
                 wav_path r = None
                 /\ status r = "Exception: " ++ msg
                 /\ kind_of (status r) = Errored
             | Completed rc err =>
                 rc <> 0%Z ->
                 wav_path r = None
                 /\ if contains "already exists" err
                    then status r = "skipped (already exists)"
                         /\ kind_of (status r) = Skipped
                    else kind_of (status r) = Errored
                         /\ (err <> "" ->
                             status r
                             = "FFmpeg error: " ++ join " " (last_n 3 (split LF err)))
             end)
    /\ (forall out,
          exists r fs' t, convert_caf_to_wav app caf bd out trim fs = (Ret r, fs', t))
    /\ (forall running total i files c,
          (forall k, running k = true) -> ~ In "" files ->
          exists x fs' tr,
            conversion_loop app running bd trim total i files c fs = (Ret x, fs', tr)
            /\ map fst (jobs x) = files /\ cancelled x = false).
Proof.
  intros caf bd trim fs. split; [|split].
  - intros wp. rewrite convert_with_ffmpeg_run. cbv zeta.
    destruct (subprocess_run _ fs) as [[rc err|msg] fs1]; cbn [fst].
    + do 3 eexists. split; [reflexivity|]. unfold ffmpeg_result.
      destruct (Z.eqb_spec rc 0) as [->|Hrc]; [intros H; now contradiction H|].
      intros _. destruct (contains "already exists" err); cbn [wav_path status].
      * repeat split.
      * repeat split.
        intros Herr. unfold truthy. destruct err; [contradiction | reflexivity].
    + do 3 eexists. split; [reflexivity|]. repeat split.
  - intros out. apply convert_caf_to_wav_total.
  - intros running total i files c Hon Hne.
    now apply conversion_loop_completes.
Qed.

End CafGuiFacts.

(* ================================================================== *)
(** * The bit-depth converter *)
(* ================================================================== *)

Section WavDepthFacts.
Context {os : OS}.
Variable app : WavDepth.App.
Import WavDepth.

Lemma get_bit_depth_run (file : string) (fs : FS) :
  get_bit_depth file fs
  = match sf_info file fs with
    | Ret subtype => (Ret (depth_of_subtype subtype), fs, [CallInfo file])
    | Raise e =>
        (Ret 0, fs, [CallInfo file; Log ("Error reading " ++ file ++ ": " ++ e)])
    end.
Proof.
  unfold get_bit_depth, log. run_monad. destruct (sf_info file fs); reflexivity.
Qed.

Lemma convert_file_run (input output : string) (bits : Z) (fs : FS) :
  convert_file input output bits fs
  = let failed e := Log ("Error converting " ++ input ++ ": " ++ e) in
    match sf_read input fs with
    | Raise e => (Ret false, fs, [CallRead input; failed e])
    | Ret data =>
        match target_subtype bits with
        | None => (Ret false, fs, [CallRead input])
        | Some subtype =>
            let d := dirname output in
            match makedirs d fs with
            | (Some e, fs1) => (Ret false, fs1, [CallRead input; CallMakedirs d; failed e])
            | (None, fs1) =>
                match sf_write output data subtype fs1 with
                | (Some e, fs2) =>
                    (Ret false, fs2,
                     [CallRead input; CallMakedirs d; CallWrite output subtype; failed e])
                | (None, fs2) =>
                    (Ret true, fs2,
                     [CallRead input; CallMakedirs d; CallWrite output subtype])
                end
            end
        end
    end.
Proof.
  unfold convert_file, log, target_subtype. run_monad.
  destruct (sf_read input fs) as [data|e]; [|reflexivity]. cbv beta iota.
  destruct (bits =? 24)%Z.
  - destruct (makedirs _ fs) as [[e|] fs1]; [reflexivity|]. cbv beta iota.
    destruct (sf_write _ _ _ fs1) as [[e|] fs2]; reflexivity.
  - destruct (bits =? 16)%Z; [|reflexivity].
    destruct (makedirs _ fs) as [[e|] fs1]; [reflexivity|]. cbv beta iota.
    destruct (sf_write _ _ _ fs1) as [[e|] fs2]; reflexivity.
Qed.

Lemma target_subtype_none (bits : Z) :
  bits <> 24%Z -> bits <> 16%Z -> target_subtype bits = None.
Proof.
  intros H24 H16. unfold target_subtype.
  destruct (Z.eqb_spec bits 24); [contradiction|].
  destruct (Z.eqb_spec bits 16); [contradiction | reflexivity].
Qed.

Lemma target_subtype_some (bits : Z) (subtype : string) :
  target_subtype bits = Some subtype ->
  (bits = 24%Z /\ subtype = "PCM_24") \/ (bits = 16%Z /\ subtype = "PCM_16").
Proof.
  unfold target_subtype.
  destruct (Z.eqb_spec bits 24); [intros [= <-]; now left|].
  destruct (Z.eqb_spec bits 16); [intros [= <-]; now right | discriminate].
Qed.

(** C10. [convert_file] always returns a boolean and begins by reading its
    input.  For a target other than 24 and 16 it then returns [False]
    having written nothing and made no directory; an exception of the
    read, of the making of the directory or of the write is logged and
    gives [False] (with the disk untouched for the read, nothing written
    for the directory); an error line in the log means [False]; and [True]
    means that the input was read, the directory made and the destination
    written with the subtype of the target. *)
Theorem convert_file_returns_a_boolean :
  forall (input output : string) (bits : Z) (fs : FS),
  exists ok fs' tr,
    convert_file input output bits fs = (Ret ok, fs', tr)
    /\ hd_error tr = Some (CallRead input)
    /\ count is_read tr = 1
    /\ (bits <> 24%Z -> bits <> 16%Z ->
        ok = false /\ fs' = fs /\ count is_write tr = 0
        /\ forall d, ~ In (CallMakedirs d) tr)
    /\ (forall e, sf_read input fs = Raise e ->
        ok = false /\ fs' = fs
        /\ tr = [CallRead input; Log ("Error converting " ++ input ++ ": " ++ e)])
    /\ (forall data subtype e fs1,
          sf_read input fs = Ret data -> target_subtype bits = Some subtype ->
          makedirs (dirname output) fs = (Some e, fs1) ->
          ok = false /\ count is_write tr = 0
          /\ In (Log ("Error converting " ++ input ++ ": " ++ e)) tr)
    /\ (forall data subtype e fs1 fs2,
          sf_read input fs = Ret data -> target_subtype bits = Some subtype ->
          makedirs (dirname output) fs = (None, fs1) ->
          sf_write output data subtype fs1 = (Some e, fs2) ->
          ok = false /\ In (Log ("Error converting " ++ input ++ ": " ++ e)) tr)
    /\ (forall e, In (Log ("Error converting " ++ input ++ ": " ++ e)) tr -> ok = false)
    /\ (ok = true ->
        exists subtype,
          target_subtype bits = Some subtype
          /\ tr = [CallRead input; CallMakedirs (dirname output); CallWrite output subtype]).
Proof.
  intros input output bits fs. rewrite convert_file_run. cbv zeta.
  destruct (sf_read input fs) as [data|e].
  - destruct (target_subtype bits) as [subtype|] eqn:Et.
    + assert (Hbits : bits <> 24%Z -> bits <> 16%Z -> False).
      { intros H24 H16. rewrite (target_subtype_none _ H24 H16) in Et. discriminate. }
      destruct (makedirs _ fs) as [[e|] fs1];
        [|destruct (sf_write _ _ _ fs1) as [[e|] fs2] eqn:Ew];
        do 3 eexists; (split; [reflexivity|]);
        (split; [reflexivity|]); (split; [reflexivity|]);
        (split; [intros H24 H16; destruct (Hbits H24 H16)|]);
        (split; [discriminate|]).
      * split; [|split; [discriminate|split; [reflexivity | discriminate]]].
        intros data' st' e' fs1' _ _ [= <- _]. repeat split. cbn. auto.
      * split; [discriminate|]. split; [|split; [reflexivity | discriminate]].
        intros data' st' e' fs1' fs2' [= <-] [= <-] [= <-] Hw.
        rewrite Ew in Hw. injection Hw as <- _. split; [reflexivity|]. cbn. auto 10.
      * split; [discriminate|]. split; [|split; [|intros _; now exists subtype]].
        -- intros data' st' e' fs1' fs2' [= <-] [= <-] [= <-] Hw.
           rewrite Ew in Hw. discriminate.
        -- intros e [H|[H|[H|[]]]]; discriminate.
    + do 3 eexists. split; [reflexivity|].
      split; [reflexivity|]. split; [reflexivity|]. split.
      { intros _ _. repeat split. intros d [H|[]]. discriminate. }
      split; [discriminate|]. split; [discriminate|]. split; [discriminate|].
      split; [reflexivity | discriminate].
  - do 3 eexists. split; [reflexivity|].
    split; [reflexivity|]. split; [reflexivity|]. split.
    { intros _ _. repeat split. intros d [H|[H|[]]]; discriminate. }
    split; [now intros e' [= <-]|]. split; [discriminate|]. split; [discriminate|].
    split; [reflexivity | discriminate].
Qed.

(** The scan goes on whatever a single file's header holds. *)
Lemma filter_32bit_run (files : list string) (fs : FS) :
  exists tr,
    filter_32bit files fs
    = (Ret (filter (fun f => (depth_at fs f =? 32)%nat) files), fs, tr)
    /\ ((forall f, In f files -> exists subtype, sf_info f fs = Ret subtype) ->
        tr = map CallInfo files).
Proof.
  induction files as [|f files (tr & IH & Htr)].
  - exists []. split; [reflexivity | auto].
  - cbn [filter_32bit filter]. unfold bind at 1. rewrite get_bit_depth_run.
    unfold depth_at at 1.
    destruct (sf_info f fs) as [subtype|e] eqn:E.
    + unfold bind, ret. rewrite IH. eexists. split; [now rewrite app_nil_r|].
      intros Hall. cbn [map List.app]. f_equal. apply Htr. intros g Hg. apply Hall. now right.
    + unfold bind, ret. rewrite IH. eexists. split; [now rewrite app_nil_r|].
      intros Hall. destruct (Hall f (or_introl eq_refl)) as [subtype Hs]. congruence.
Qed.

(** C6. [get_bit_depth] returns a bit depth for every file and never
    raises, leaving the disk as it was: 32 for the subtype [FLOAT] (as for
    [PCM_32]: the encoding is not part of the answer), 24 for [PCM_24],
    0 ("unknown") for a subtype holding none of the names it looks for,
    and 0 with an "Error reading" line in the log when the header cannot
    be read.  The scan of [process_files] never stops on a file: it keeps
    exactly the files found to be 32-bit. *)
Theorem classification_never_raises :
  forall (file : string) (fs : FS),
  exists n tr,
    get_bit_depth file fs = (Ret n, fs, tr)
    /\ n = depth_at fs file
    /\ (sf_info file fs = Ret "FLOAT" -> n = 32)
    /\ (sf_info file fs = Ret "PCM_32" -> n = 32)
    /\ (sf_info file fs = Ret "PCM_24" -> n = 24)
    /\ (forall subtype,
          sf_info file fs = Ret subtype ->
          contains "PCM_32" subtype = false -> contains "FLOAT" subtype = false ->
          contains "PCM_24" subtype = false -> contains "PCM_16" subtype = false ->
          contains "PCM_8" subtype = false ->
          n = 0 /\ tr = [CallInfo file])
    /\ (forall e,
          sf_info file fs = Raise e ->
          n = 0 /\ tr = [CallInfo file; Log ("Error reading " ++ file ++ ": " ++ e)])
    /\ (forall files,
          exists scan,
            filter_32bit files fs
            = (Ret (filter (fun f => (depth_at fs f =? 32)%nat) files), fs, scan)).
Proof.
  intros file fs.
  assert (Hscan : forall files,
             exists scan,
               filter_32bit files fs
               = (Ret (filter (fun f => (depth_at fs f =? 32)%nat) files), fs, scan)).
  { intros files. destruct (filter_32bit_run files fs) as (scan & E & _). eauto. }
  rewrite get_bit_depth_run. unfold depth_at at 1.
  destruct (sf_info file fs) as [subtype|e].
  - do 2 eexists. split; [reflexivity|]. split; [reflexivity|].
    split; [now intros [= ->]|]. split; [now intros [= ->]|].
    split; [now intros [= ->]|]. split.
    + intros st [= <-] H1 H2 H3 H4 H5. unfold depth_of_subtype.
      now rewrite H1, H2, H3, H4, H5.
    + split; [discriminate | exact Hscan].
  - do 2 eexists. split; [reflexivity|]. split; [reflexivity|].
    split; [discriminate|]. split; [discriminate|]. split; [discriminate|].
    split; [discriminate|]. split; [now intros e' [= <-] | exact Hscan].
Qed.

Lemma convert_file_trace (input output : string) (bits : Z) (fs : FS) :
  exists ok fs' tr,
    convert_file input output bits fs = (Ret ok, fs', tr)
    /\ forallb quiet tr = true /\ count is_read tr = 1.
Proof.
  rewrite convert_file_run. cbv zeta.
  destruct (sf_read input fs) as [data|e]; [|do 3 eexists; repeat split].
  destruct (target_subtype bits) as [subtype|]; [|do 3 eexists; repeat split].
  destruct (makedirs _ fs) as [[e|] fs1]; [do 3 eexists; repeat split|].
  destruct (sf_write _ _ _ fs1) as [[e|] fs2]; do 3 eexists; repeat split.
Qed.

Lemma convert_to_run (f name dir : string) (bits : Z) (sub label : string)
    (n : nat) (fs : FS) :
  exists ok fs' tr,
    convert_to f name dir bits sub label n fs
    = (Ret (n + 1,
            [{| job_source := f; job_destination := join2 (join2 dir sub) name;
                job_bits := bits; job_ok := ok |}]), fs', tr)
    /\ forallb quiet tr = true /\ count is_read tr = 1.
Proof.
  unfold convert_to, log. run_monad.
  destruct (convert_file_trace f (join2 (join2 dir sub) name) bits fs)
    as (ok & fs' & tr & -> & Hq & Hr).
  destruct ok; [exists true | exists false]; exists fs'; eexists;
    (split; [reflexivity|]); cbn [List.app]; rewrite ?app_nil_r;
    (split; [cbn [forallb quiet]; rewrite forallb_app, Hq; reflexivity|]);
    change (ProgressLabel ?x :: ?t) with ([ProgressLabel x] ++ t)%list;
    rewrite !count_app, Hr; reflexivity.
Qed.

(** The loop of [process_files] converts every file it is given, to every
    selected bit depth, in order. *)
Lemma process_loop_run (folder : string) (files : list string) :
  ~ In "" files ->
  forall (n : nat) (fs : FS),
  exists js fs' tr,
    process_loop app folder files n fs = (Ret js, fs', tr)
    /\ map job_plan js = flat_map (targets app) files
    /\ forallb quiet tr = true
    /\ count is_read tr = List.length js.
Proof.
  induction files as [|f rest IH]; intros Hne n fs.
  - do 3 eexists. repeat split.
  - cbn [process_loop]. unfold log. run_monad.
    destruct (relpath getcwd f folder) as [rel|] eqn:Erel.
    2:{ apply relpath_none in Erel. subst. exfalso. apply Hne. now left. }
    cbv beta iota. cbn [flat_map]. unfold targets at 1, output_path_of.
    assert (Hrest : ~ In "" rest) by (intros H; apply Hne; now right).
    destruct (convert_to_24bit app), (convert_to_16bit app).
    + destruct (convert_to_run f (basename f) (dirname f) 24 "24bit" "24-bit" n fs)
        as (ok1 & fs1 & t1 & -> & Hq1 & Hr1).
      destruct (convert_to_run f (basename f) (dirname f) 16 "16bit" "16-bit" (n + 1) fs1)
        as (ok2 & fs2 & t2 & -> & Hq2 & Hr2).
      destruct (IH Hrest (n + 1 + 1) fs2) as (js & fs3 & t3 & -> & Hj & Hq3 & Hr3).
      do 3 eexists. split; [reflexivity|]. cbn [List.app map job_plan
        job_source job_destination job_bits]. rewrite Hj.
      split; [reflexivity|]. rewrite ?app_nil_r. split.
      * cbn [List.app forallb quiet]. rewrite !forallb_app, Hq1, Hq2, Hq3. reflexivity.
      * count_norm. rewrite Hr1, Hr2, Hr3. reflexivity.
    + destruct (convert_to_run f (basename f) (dirname f) 24 "24bit" "24-bit" n fs)
        as (ok1 & fs1 & t1 & -> & Hq1 & Hr1).
      destruct (IH Hrest (n + 1) fs1) as (js & fs3 & t3 & -> & Hj & Hq3 & Hr3).
      do 3 eexists. split; [reflexivity|]. cbn [List.app map job_plan
        job_source job_destination job_bits]. rewrite Hj.
      split; [reflexivity|]. rewrite ?app_nil_r. split.
      * cbn [List.app forallb quiet]. rewrite !forallb_app, Hq1, Hq3. reflexivity.
      * count_norm. rewrite Hr1, Hr3. reflexivity.
    + destruct (convert_to_run f (basename f) (dirname f) 16 "16bit" "16-bit" n fs)
        as (ok2 & fs2 & t2 & -> & Hq2 & Hr2).
      destruct (IH Hrest (n + 1) fs2) as (js & fs3 & t3 & -> & Hj & Hq3 & Hr3).
      do 3 eexists. split; [reflexivity|]. cbn [List.app map job_plan
        job_source job_destination job_bits]. rewrite Hj.
      split; [reflexivity|]. rewrite ?app_nil_r. split.
      * cbn [List.app forallb quiet]. rewrite !forallb_app, Hq2, Hq3. reflexivity.
      * count_norm. rewrite Hr2, Hr3. reflexivity.
    + destruct (IH Hrest n fs) as (js & fs3 & t3 & -> & Hj & Hq3 & Hr3).
      do 3 eexists. split; [reflexivity|]. cbn [List.app map].
      split; [exact Hj|]. rewrite ?app_nil_r. split.
      * cbn [List.app forallb quiet]. rewrite Hq3. reflexivity.
      * count_norm. rewrite Hr3. reflexivity.
Qed.

Lemma jobs_of_plan (js : list Job) (f d1 d2 : string) :
  map job_plan js = [(f, d1, 24%Z); (f, d2, 16%Z)] ->
  exists ok24 ok16,
    js = [{| job_source := f; job_destination := d1; job_bits := 24; job_ok := ok24 |};
          {| job_source := f; job_destination := d2; job_bits := 16; job_ok := ok16 |}].
Proof.
  destruct js as [|[s1 p1 b1 o1] [|[s2 p2 b2 o2] [|j js]]]; try discriminate.
  cbn. intros [= -> -> -> -> -> ->]. now exists o1, o2.
Qed.

(** C8. A folder in which the scan finds one 32-bit WAV file and one
    16-bit WAV file, both targets selected: [process_files] converts the
    32-bit file twice, to [24bit/] and then to [16bit/] beside it, and
    nothing else; the log counts two WAV files of which one is 32-bit, and
    reports no file as unreadable. *)
Theorem only_the_32bit_file_is_converted :
  forall (fs : FS) (f32 f16 subtype32 : string) (wav_files : list string),
    convert_to_24bit app = true -> convert_to_16bit app = true ->
    wav_files = [f32; f16] \/ wav_files = [f16; f32] ->
    find_wav_files (folder_path app) (include_subdirs app) fs = (Ret wav_files, fs, []) ->
    sf_info f32 fs = Ret subtype32 -> depth_of_subtype subtype32 = 32 ->
    sf_info f16 fs = Ret "PCM_16" ->
    f32 <> "" ->
    exists ok24 ok16 fs' tr,
      process_files app fs
      = (Ret [{| job_source := f32; job_destination := output_path_of f32 "24bit";
                 job_bits := 24; job_ok := ok24 |};
              {| job_source := f32; job_destination := output_path_of f32 "16bit";
                 job_bits := 16; job_ok := ok16 |}], fs', tr)
      /\ In (Log "Found 2 WAV files") tr
      /\ In (Log "Found 1 32-bit WAV files to convert") tr
      /\ count is_read tr = 2
      /\ forallb quiet tr = true.
Proof.
  intros fs f32 f16 subtype32 wav_files H24 H16 Hfiles Hfind Hinfo32 Hdepth Hinfo16 Hne.
  assert (Hd32 : (depth_at fs f32 =? 32)%nat = true)
    by (unfold depth_at; now rewrite Hinfo32, Hdepth).
  assert (Hd16 : (depth_at fs f16 =? 32)%nat = false)
    by (unfold depth_at; now rewrite Hinfo16).
  assert (Hfilter : filter (fun f => (depth_at fs f =? 32)%nat) wav_files = [f32]).
  { destruct Hfiles as [-> | ->]; cbn [filter]; now rewrite Hd32, Hd16. }
  assert (Hlen : List.length wav_files = 2) by (destruct Hfiles as [-> | ->]; reflexivity).
  destruct (filter_32bit_run wav_files fs) as (t0 & Hscan & Ht0).
  rewrite Hfilter in Hscan.
  assert (Hq0 : t0 = map CallInfo wav_files).
  { apply Ht0. intros f Hf.
    destruct Hfiles as [-> | ->]; destruct Hf as [<-|[<-|[]]]; eauto. }
  destruct (process_loop_run (folder_path app) [f32]
              ltac:(intros [H|[]]; now apply Hne) 0 fs)
    as (js & fs' & t1 & Hloop & Hplan & Hq1 & Hr1).
  cbn [flat_map] in Hplan. unfold targets in Hplan. rewrite H24, H16 in Hplan.
  destruct (jobs_of_plan js _ _ _ Hplan) as (ok24 & ok16 & ->).
  exists ok24, ok16, fs'.
  assert (Hi : count is_read (map CallInfo wav_files) = 0
               /\ forallb quiet (map CallInfo wav_files) = true)
    by (destruct Hfiles as [-> | ->]; split; reflexivity).
  destruct Hi as [Hi1 Hi2].
  unfold process_files, log. run_monad. rewrite Hfind. cbv beta iota.
  destruct wav_files as [|a l]; [discriminate|].
  rewrite Hscan. cbv beta iota. rewrite Hloop. cbv beta iota. rewrite H24, H16, Hlen.
  eexists. split; [reflexivity|]. rewrite Hq0.
  cbn [List.length List.app Nat.mul Nat.add] in *. rewrite ?app_nil_r.
  split; [cbn; auto 10|]. split; [cbn; rewrite ?in_app_iff; cbn; auto 20|].
  split.
  - count_norm. rewrite Hr1. revert Hi1. count_norm. intros ->. reflexivity.
  - repeat (rewrite ?forallb_app; cbn [forallb quiet]). rewrite Hq1, Hi2. reflexivity.
Qed.

End WavDepthFacts.

(* ================================================================== *)
(** * Where destinations come from *)
(* ================================================================== *)

Lemma NoDup_map_reflect_on {A B C : Type} (f : A -> B) (g : A -> C) (l : list A) :
  (forall x y, In x l -> In y l -> g x = g y -> f x = f y) ->
  NoDup (map f l) -> NoDup (map g l).
Proof.
  induction l as [|a l IH]; cbn [map]; intros Hfg H; [constructor|].
  inversion H as [|? ? Hin Hnd]; subst. constructor.
  - intros Hg. apply Hin. apply in_map_iff in Hg as (y & Hy & Hl).
    apply in_map_iff. exists y. split; [|assumption].
    apply Hfg; [now right | now left | assumption].
  - apply IH; [|assumption]. intros x y Hx Hy. apply Hfg; now right.
Qed.

(** C5, as the programs have it.  Beside the source, two CAF files get the
    same destination exactly when their paths agree up to the extension,
    so that files with distinct extension-less paths have distinct
    destinations; for the command-line converter, exactly when they have
    the same parent and the same stem. *)
Theorem destinations_coincide_up_to_extension :
  (forall caf1 caf2,
      CafGui.wav_beside caf1 = CafGui.wav_beside caf2
      <-> fst (splitext caf1) = fst (splitext caf2))
  /\ (forall files,
        NoDup (map (fun f => fst (splitext f)) files) ->
        NoDup (map CafGui.wav_beside files))
  /\ (forall p1 p2,
        no_sep (PurePath.name p1) = true -> no_sep (PurePath.name p2) = true ->
        (CafCli.out_path_of p1 = CafCli.out_path_of p2
         <-> PurePath.parent p1 = PurePath.parent p2
             /\ PurePath.stem p1 = PurePath.stem p2))
  /\ (forall ps,
        (forall p, In p ps -> no_sep (PurePath.name p) = true) ->
        NoDup (map (fun p => (PurePath.parent p, PurePath.stem p)) ps) ->
        NoDup (map CafCli.out_path_of ps)).
Proof.
  split; [exact wav_beside_eq|]. split; [|split; [exact out_path_of_eq|]].
  - intros files. apply NoDup_map_reflect. intros x y. apply wav_beside_eq.
  - intros ps Hps. apply NoDup_map_reflect_on. intros x y Hx Hy Hxy.
    apply (out_path_of_eq x y (Hps x Hx) (Hps y Hy)) in Hxy as [-> ->]. reflexivity.
Qed.


(* ================================================================== *)
(** * More facts about strings and paths *)
(* ================================================================== *)

(** ** Suffixes and lower case *)

Lemma lower_app (a b : string) : lower (a ++ b) = lower a ++ lower b.
Proof. induction a as [|c a IH]; cbn [append lower]; congruence. Qed.

Lemma endswith_app_r (a b suf : string) :
  endswith b suf = true -> endswith (a ++ b) suf = true.
Proof.
  intros H. destruct (endswith_spec b suf H) as [x ->].
  rewrite <- append_assoc. apply endswith_app.
Qed.

Lemma endswith_lower (s suf : string) :
  endswith s suf = true -> endswith (lower s) (lower suf) = true.
Proof.
  intros H. destruct (endswith_spec s suf H) as [x ->].
  rewrite lower_app. apply endswith_app.
Qed.

(** Two suffixes of a string that have the same length are equal. *)
Lemma endswith_same_length (s a b : string) :
  endswith s a = true -> endswith s b = true ->
  String.length a = String.length b -> a = b.
Proof.
  intros Ha Hb Hl.
  destruct (endswith_spec s a Ha) as [x ->].
  destruct (endswith_spec _ b Hb) as [y E]. clear Ha Hb.
  revert y E. induction x as [|c x IH]; intros [|d y] E; cbn [append] in E.
  - exact E.
  - apply (f_equal String.length) in E. cbn [String.length] in E.
    rewrite length_append in E. lia.
  - apply (f_equal String.length) in E. cbn [String.length] in E.
    rewrite length_append in E. lia.
  - injection E as _ E. exact (IH y E).
Qed.

Lemma join2_nonempty (a b : string) : b <> "" -> join2 a b <> "".
Proof.
  intros Hb. unfold join2. destruct (startswith b "/"); [exact Hb|].
  destruct (negb (truthy a) || endswith a "/"); intros E;
    apply append_eq_nil in E as [_ E]; [contradiction|discriminate].
Qed.

Lemma endswith_lower_join2 (root file suf : string) :
  endswith (lower file) suf = true -> endswith (lower (join2 root file)) suf = true.
Proof.
  intros H. unfold join2. destruct (startswith file "/"); [exact H|].
  destruct (negb (truthy root) || endswith root "/");
    rewrite !lower_app; rewrite <- ?append_assoc; now apply endswith_app_r.
Qed.

Lemma wav_is_not_caf (wp p : string) :
  endswith wp ".wav" = true -> endswith (lower p) ".caf" = true -> wp <> p.
Proof.
  intros Hw Hp ->. apply endswith_lower in Hw.
  pose proof (endswith_same_length _ _ _ Hw Hp eq_refl). discriminate.
Qed.

(** ** Directories *)

Lemma rstrip_sep_end (s : string) : endswith (rstrip_if is_sep s) "/" = false.
Proof.
  induction s as [|c s IH]; [reflexivity|]. cbn [rstrip_if].
  destruct (String.eqb_spec (rstrip_if is_sep s) "") as [E|E]; cbn [andb].
  - destruct (is_sep c) eqn:Ec; [reflexivity|]. rewrite E.
    cbn [endswith]. unfold is_sep in Ec. cbn [String.eqb]. rewrite Ec. reflexivity.
  - cbn [endswith]. rewrite IH, orb_false_r. cbn [String.eqb].
    destruct (rstrip_if is_sep s); [contradiction|]. now destruct (Ascii.eqb c "/").
Qed.

(** What [os.path.dirname] returns: nothing, slashes only, or a path that
    does not end in a slash. *)
Lemma dirname_shape (p : string) :
  dirname p = "" \/ all_chars is_sep (dirname p) = true \/ endswith (dirname p) "/" = false.
Proof.
  unfold dirname. destruct (fst (split_last_sep p)) as [|c h] eqn:E; [now left|].
  cbn [truthy String.eqb negb andb].
  destruct (all_chars is_sep (String c h)) eqn:Ea; cbn [negb].
  - right. now left.
  - right. right. apply rstrip_sep_end.
Qed.

Lemma all_sep_ends_in_sep (d : string) :
  all_chars is_sep d = true -> d <> "" -> endswith d "/" = true.
Proof.
  induction d as [|c d IH]; [congruence|]. cbn [all_chars]. intros H _.
  apply andb_prop in H as [Hc Hd]. unfold is_sep in Hc. apply Ascii.eqb_eq in Hc. subst c.
  destruct d as [|c' d]; [reflexivity|].
  cbn [endswith] in *. rewrite (IH Hd) by discriminate. apply orb_true_r.
Qed.

(** The two shapes of [os.path.join(d, sub)] for a component [sub]. *)
Lemma join2_sub_cases (d sub : string) :
  no_sep sub = true ->
  (join2 d sub = d ++ sub /\ (d = "" \/ endswith d "/" = true))
  \/ (join2 d sub = d ++ "/" ++ sub /\ d <> "" /\ endswith d "/" = false).
Proof.
  intros Hs. unfold join2. rewrite (startswith_sep_no_sep sub Hs).
  destruct d as [|c d]; [left; auto|]. cbn [truthy String.eqb negb orb].
  destruct (endswith (String c d) "/"); [left; auto | right].
  repeat split. discriminate.
Qed.

Lemma join2_sub_longer (d sub : string) :
  no_sep sub = true -> sub <> "" -> join2 d sub <> d.
Proof.
  intros Hs Hne E.
  destruct (join2_sub_cases d sub Hs) as [[H _]|[H _]]; rewrite H in E;
    apply (f_equal String.length) in E; rewrite !length_append in E;
    destruct sub; [contradiction | cbn in E; lia | contradiction | cbn in E; lia].
Qed.

Lemma join2_dirname_inj (f g sub : string) :
  no_sep sub = true -> sub <> "" ->
  join2 (dirname f) sub = join2 (dirname g) sub -> dirname f = dirname g.
Proof.
  intros Hs Hne E.
  assert (Hmix : forall a b,
             (a = "" \/ endswith a "/" = true) ->
             b <> "" -> endswith b "/" = false ->
             (a = "" \/ all_chars is_sep a = true \/ endswith a "/" = false) ->
             a ++ sub = b ++ "/" ++ sub -> False).
  { intros a b Ha Hb Hbe Hshape Eab. rewrite <- append_assoc in Eab.
    apply append_inj_r in Eab. subst a.
    destruct Hshape as [H|[H|H]].
    - apply append_eq_nil in H as [_ H]. discriminate.
    - rewrite all_chars_app in H. apply andb_prop in H as [H _].
      rewrite (all_sep_ends_in_sep b H Hb) in Hbe. discriminate.
    - rewrite endswith_app in H. discriminate. }
  destruct (join2_sub_cases (dirname f) sub Hs) as [[Hf Hf']|[Hf [Hf' Hf'']]];
    destruct (join2_sub_cases (dirname g) sub Hs) as [[Hg Hg']|[Hg [Hg' Hg'']]];
    rewrite Hf, Hg in E.
  - now apply append_inj_r in E.
  - exfalso. exact (Hmix _ _ Hf' Hg' Hg'' (dirname_shape f) E).
  - exfalso. symmetry in E. exact (Hmix _ _ Hg' Hf' Hf'' (dirname_shape g) E).
  - rewrite <- !append_assoc in E. apply append_inj_r in E. now apply append_inj_r in E.
Qed.

Lemma subdir_is_component (sub : string) :
  sub = "24bit" \/ sub = "16bit" -> no_sep sub = true /\ sub <> "".
Proof. intros [-> | ->]; split; (reflexivity || discriminate). Qed.

Lemma name_of_out_path (caf : PurePath.t) :
  no_sep (PurePath.name caf) = true ->
  PurePath.name (CafCli.out_path_of caf) = PurePath.stem caf ++ ".wav".
Proof.
  intros Hn. rewrite (out_path_of_shape caf Hn). unfold PurePath.name. cbn [PurePath.parts].
  change ["32bit_wav"; ?b] with (["32bit_wav"] ++ [b])%list.
  now rewrite app_assoc, last_last.
Qed.

(** ** Relative paths, continued *)

Lemma split_parts_no_sep (s : string) : forallb no_sep (split "/" s) = true.
Proof.
  induction s as [|c s IH]; [reflexivity|]. cbn [split].
  destruct (Ascii.eqb c "/") eqn:Ec; [exact IH|].
  destruct (split "/" s) as [|h t]; cbn [forallb] in *;
    unfold no_sep at 1; cbn [all_chars]; unfold is_sep; rewrite Ec; [reflexivity | exact IH].
Qed.

Lemma is_relative_component (x : string) :
  no_sep x = true -> truthy x = true -> is_relative x = true.
Proof.
  intros Hn Ht. unfold is_relative. rewrite (startswith_sep_no_sep x Hn).
  unfold truthy in Ht. now rewrite Ht.
Qed.

Lemma is_relative_app (a b : string) : is_relative a = true -> is_relative (a ++ b) = true.
Proof.
  unfold is_relative. destruct a as [|c a]; [discriminate|].
  cbn [append String.eqb startswith negb andb]. now rewrite !andb_true_r.
Qed.

Lemma join2_relative (a b : string) :
  is_relative a = true -> no_sep b = true -> is_relative (join2 a b) = true.
Proof.
  intros Ha Hb. unfold join2. rewrite (startswith_sep_no_sep b Hb).
  destruct (negb (truthy a) || endswith a "/"); now apply is_relative_app.
Qed.

Lemma join_all_relative (x : string) (r : list string) :
  is_relative x = true -> forallb no_sep r = true -> is_relative (join_all x r) = true.
Proof.
  unfold join_all. revert x. induction r as [|y r IH]; intros x Hx Hr; [exact Hx|].
  cbn [forallb] in Hr. apply andb_prop in Hr as [Hy Hr]. cbn [fold_left].
  apply IH; [now apply join2_relative | exact Hr].
Qed.

Lemma forallb_filter_keep {A : Type} (p q : A -> bool) (l : list A) :
  forallb p l = true -> forallb p (filter q l) = true.
Proof.
  induction l as [|x l IH]; [reflexivity|]. cbn [forallb filter]. intros H.
  apply andb_prop in H as [Hx Hl]. destruct (q x); cbn [forallb]; rewrite ?Hx; auto.
Qed.

Lemma forallb_filter_self {A : Type} (q : A -> bool) (l : list A) :
  forallb q (filter q l) = true.
Proof.
  induction l as [|x l IH]; [reflexivity|]. cbn [filter].
  destruct (q x) eqn:E; cbn [forallb]; rewrite ?E; auto.
Qed.

Lemma forallb_repeat {A : Type} (p : A -> bool) (x : A) (n : nat) :
  p x = true -> forallb p (repeat x n) = true.
Proof. intros H. induction n as [|n IH]; cbn [repeat forallb]; rewrite ?H; auto. Qed.

Lemma forallb_drop {A : Type} (p : A -> bool) (n : nat) (l : list A) :
  forallb p l = true -> forallb p (skipn n l) = true.
Proof.
  revert l. induction n as [|n IH]; intros l H; [exact H|].
  destruct l as [|x l]; [reflexivity|]. cbn [forallb] in H.
  apply andb_prop in H as [_ H]. now apply IH.
Qed.

(** What [os.path.relpath] returns is a relative path. *)
Lemma relpath_is_relative (cwd p start rel : string) :
  relpath cwd p start = Some rel -> is_relative rel = true.
Proof.
  unfold relpath. destruct (p =? ""); [discriminate|]. cbv zeta.
  set (sl := filter truthy (split "/" (abspath cwd start))).
  set (pl := filter truthy (split "/" (abspath cwd p))).
  set (i := common_prefix_len sl pl).
  assert (Hn : forallb no_sep (repeat ".." (List.length sl - i) ++ skipn i pl) = true).
  { rewrite forallb_app, forallb_repeat by reflexivity.
    apply forallb_drop, forallb_filter_keep, split_parts_no_sep. }
  assert (Ht : forallb truthy (repeat ".." (List.length sl - i) ++ skipn i pl) = true).
  { rewrite forallb_app, forallb_repeat by reflexivity.
    apply forallb_drop, forallb_filter_self. }
  destruct (repeat ".." (List.length sl - i) ++ skipn i pl)%list as [|x r].
  - now intros [= <-].
  - intros [= <-]. cbn [forallb] in Hn, Ht.
    apply andb_prop in Hn as [Hx Hr]. apply andb_prop in Ht as [Hx' _].
    apply join_all_relative; [now apply is_relative_component | exact Hr].
Qed.

Lemma splitext_root_relative (rel : string) :
  is_relative rel = true -> is_relative (fst (splitext rel)) = true.
Proof.
  intros Hr. unfold splitext.
  destruct (split_last_sep_spec rel) as (Hp & _ & _).
  destruct (split_last_sep rel) as [h name]. cbn [fst snd] in Hp.
  destruct (rsplit_dot name) as [[a b]|] eqn:E; [|exact Hr].
  destruct (all_chars is_dot a) eqn:Ea; [exact Hr|]. cbn [fst].
  apply rsplit_dot_spec in E. subst name. rewrite <- append_assoc in Hp.
  destruct (h ++ a) as [|c s] eqn:Eh.
  - apply append_eq_nil in Eh as [_ ->]. discriminate.
  - rewrite Hp in Hr. unfold is_relative in *.
    cbn [append String.eqb startswith negb andb] in *. exact Hr.
Qed.

Lemma join2_relative_inj (out a b : string) :
  is_relative a = true -> is_relative b = true -> join2 out a = join2 out b -> a = b.
Proof.
  unfold is_relative. intros Ha Hb. apply andb_prop in Ha as [_ Ha], Hb as [_ Hb].
  apply negb_true_iff in Ha, Hb. unfold join2. rewrite Ha, Hb.
  destruct (negb (truthy out) || endswith out "/"); intros E.
  - now apply append_inj_l in E.
  - apply append_inj_l in E. now injection E.
Qed.

(** ** Lines *)

Lemma split_nonempty (sep : ascii) (s : string) : split sep s <> [].
Proof.
  induction s as [|c s IH]; cbn [split]; [discriminate|].
  destruct (Ascii.eqb c sep); [discriminate|]. destruct (split sep s); discriminate.
Qed.

Lemma contains_of_startswith (sub s : string) :
  startswith s sub = true -> contains sub s = true.
Proof. intros H. destruct s; cbn [contains]; now rewrite H. Qed.

Lemma contains_tail (sub : string) (c : ascii) (s : string) :
  contains sub s = true -> contains sub (String c s) = true.
Proof. intros H. cbn [contains]. rewrite H. apply orb_true_r. Qed.

Lemma contains_nil (sub : string) : contains sub "" = true -> sub = "".
Proof. cbn [contains]. rewrite orb_false_r. destruct sub; [reflexivity | discriminate]. Qed.

(** A prefix without a line feed is a prefix of the first line. *)
Lemma startswith_first_line (sub s : string) :
  one_line sub = true -> startswith s sub = true ->
  startswith (hd "" (split LF s)) sub = true.
Proof.
  unfold one_line. revert s. induction sub as [|a sub IH]; intros s Ho H; [reflexivity|].
  cbn [all_chars] in Ho. apply andb_prop in Ho as [Ha Ho].
  destruct s as [|b s]; [discriminate|]. cbn [startswith] in H.
  apply andb_prop in H as [Hab H]. apply Ascii.eqb_eq in Hab. subst b.
  cbn [split]. apply negb_true_iff in Ha. rewrite Ha.
  specialize (IH s Ho H). pose proof (split_nonempty LF s) as Hne.
  destruct (split LF s) as [|h t]; [contradiction|].
  cbn [hd] in *. cbn [startswith]. now rewrite Ascii.eqb_refl.
Qed.

(** A text without a line feed that occurs in [s] occurs in one of its
    lines. *)
Lemma contains_in_a_line (sub s : string) :
  one_line sub = true -> contains sub s = true ->
  existsb (contains sub) (split LF s) = true.
Proof.
  intros Ho. induction s as [|c s IH]; intros H.
  - cbn [split existsb]. now rewrite H.
  - cbn [contains] in H. apply orb_prop in H as [H|H].
    + apply (startswith_first_line _ _ Ho) in H.
      pose proof (split_nonempty LF (String c s)) as Hne.
      destruct (split LF (String c s)) as [|h t]; [contradiction|].
      cbn [hd] in H. cbn [existsb]. now rewrite (contains_of_startswith _ _ H).
    + specialize (IH H). cbn [split]. destruct (Ascii.eqb c LF).
      * cbn [existsb]. rewrite IH. apply orb_true_r.
      * destruct (split LF s) as [|h t]; [discriminate|]. cbn [existsb] in *.
        apply orb_prop in IH as [IH|IH].
        -- now rewrite (contains_tail _ c _ IH).
        -- rewrite IH. apply orb_true_r.
Qed.

(** The first element of a list that satisfies [p]. *)
Lemma find_first {A : Type} (p : A -> bool) (l : list A) :
  existsb p l = true ->
  exists a x b,
    l = (a ++ x :: b)%list /\ forallb (fun y => negb (p y)) a = true /\ p x = true
    /\ find p l = Some x.
Proof.
  induction l as [|y l IH]; [discriminate|]. cbn [existsb find].
  destruct (p y) eqn:Ey.
  - intros _. exists [], y, l. auto.
  - cbn [orb]. intros H. destruct (IH H) as (a & x & b & -> & Ha & Hx & Hf).
    exists (y :: a), x, b. cbn [forallb List.app]. rewrite Ey, Ha, Hf. auto.
Qed.

Lemma one_line_app (a b : string) : one_line (a ++ b) = one_line a && one_line b.
Proof. apply all_chars_app. Qed.

Lemma split_lines_one_line (s : string) : forallb one_line (split LF s) = true.
Proof.
  induction s as [|c s IH]; [reflexivity|]. cbn [split].
  destruct (Ascii.eqb c LF) eqn:Ec; [exact IH|].
  destruct (split LF s) as [|h t]; cbn [forallb] in *;
    unfold one_line at 1; cbn [all_chars]; rewrite Ec; [reflexivity | exact IH].
Qed.

Lemma join_one_line (l : list string) :
  forallb one_line l = true -> one_line (join " " l) = true.
Proof.
  induction l as [|x l IH]; [reflexivity|]. cbn [forallb join]. intros H.
  apply andb_prop in H as [Hx Hl]. destruct l as [|y l]; [exact Hx|].
  rewrite !one_line_app, Hx, (IH Hl). reflexivity.
Qed.

(** ** Stripping *)

(** The encodings of three characters, and of the white-space ones. *)
Lemma utf8_examples :
  utf8 65 = "A" /\ utf8 233 = "é" /\ utf8 12510 = "マ"
  /\ len "é" = 1 /\ len "マリア" = 3 /\ String.length "マリア" = 9.
Proof. repeat split. Qed.

Lemma spaces_are_the_encodings : spaces = map utf8 whitespace.
Proof. reflexivity. Qed.

Lemma after_prefix_spec (pre s r : string) :
  after_prefix pre s = Some r -> s = pre ++ r.
Proof.
  revert s. induction pre as [|a pre IH]; intros s; cbn [after_prefix append].
  - now intros [= ->].
  - destruct s as [|b s]; [discriminate|].
    destruct (Ascii.eqb_spec a b) as [->|_]; [|discriminate].
    intros H. now rewrite (IH _ H).
Qed.

(** What [after_space] removes is the encoding of a white-space
    character: one to three [blank] bytes. *)
Lemma after_space_spec (s r : string) :
  after_space s = Some r ->
  exists w, s = w ++ r /\ w <> "" /\ all_chars blank w = true.
Proof.
  unfold after_space.
  assert (H : Forall (fun w => w <> "" /\ all_chars blank w = true) spaces)
    by (repeat constructor; discriminate).
  induction H as [|w l [Hw Hb] _ IH]; cbn [fold_right]; [discriminate|].
  destruct (after_prefix w s) as [r'|] eqn:E; [|exact IH].
  intros [= ->]. exists w. split; [now apply after_prefix_spec | auto].
Qed.

Lemma lstrip_upto_split (k : nat) (s : string) :
  exists w, s = w ++ lstrip_upto k s /\ all_chars blank w = true.
Proof.
  revert s. induction k as [|k IH]; intros s; cbn [lstrip_upto]; [now exists ""|].
  destruct (after_space s) as [r|] eqn:E; [|now exists ""].
  destruct (after_space_spec _ _ E) as (w & -> & _ & Hw).
  destruct (IH r) as (w' & Hr & Hw'). exists (w ++ w'). split.
  - rewrite append_assoc. now rewrite <- Hr.
  - now rewrite all_chars_app, Hw, Hw'.
Qed.

(** [s.lstrip()] is [s] without some [blank] bytes in front ... *)
Lemma lstrip_split (s : string) :
  exists w, s = w ++ lstrip s /\ all_chars blank w = true.
Proof. apply lstrip_upto_split. Qed.

(** ... and no white-space character is left in front of it. *)
Lemma lstrip_upto_done (k : nat) (s : string) :
  String.length s <= k -> after_space (lstrip_upto k s) = None.
Proof.
  revert s. induction k as [|k IH]; intros s Hk; cbn [lstrip_upto].
  - destruct s; [reflexivity | cbn in Hk; lia].
  - destruct (after_space s) as [r|] eqn:E; [|exact E].
    apply IH. destruct (after_space_spec _ _ E) as (w & -> & Hw & _).
    rewrite length_append in Hk. destruct w; [contradiction|]. cbn in Hk. lia.
Qed.

Lemma lstrip_done (s : string) : after_space (lstrip s) = None.
Proof. now apply lstrip_upto_done. Qed.

Lemma rstrip_split (s : string) :
  exists w, s = rstrip s ++ w /\ all_chars blank w = true.
Proof.
  induction s as [|c s (w & IH & Hw)]; [now exists ""|]. cbn [rstrip].
  destruct (String.eqb_spec (lstrip (String c s)) "") as [E|_].
  - destruct (lstrip_split (String c s)) as (w' & Hs & Hw'). rewrite E, append_nil_r in Hs.
    exists (String c s). split; [reflexivity | now rewrite Hs].
  - exists w. cbn [append]. split; [now rewrite <- IH | exact Hw].
Qed.

Lemma all_blank_not_visible (s : string) :
  all_chars blank s = true -> ends_visible s = false.
Proof.
  induction s as [|c s IH]; [reflexivity|]. cbn [all_chars ends_visible]. intros H.
  apply andb_prop in H as [Hc Hs]. destruct s; [now rewrite Hc | now apply IH].
Qed.

Lemma all_chars_prefix (p : ascii -> bool) (s sub : string) :
  startswith s sub = true -> all_chars p s = true -> all_chars p sub = true.
Proof.
  revert s. induction sub as [|a sub IH]; intros s H Hs; [reflexivity|].
  destruct s as [|b s]; [discriminate|]. cbn [startswith] in H. cbn [all_chars] in *.
  apply andb_prop in H as [Hab H]. apply andb_prop in Hs as [Hb Hs].
  apply Ascii.eqb_eq in Hab. subst b. now rewrite Hb, (IH s).
Qed.

Lemma all_chars_contains (p : ascii -> bool) (sub s : string) :
  contains sub s = true -> all_chars p s = true -> all_chars p sub = true.
Proof.
  induction s as [|c s IH]; intros H Hs.
  - apply contains_nil in H. now subst.
  - cbn [contains] in H. apply orb_prop in H as [H|H].
    + exact (all_chars_prefix _ _ _ H Hs).
    + cbn [all_chars] in Hs. apply andb_prop in Hs as [_ Hs]. auto.
Qed.

(** A text whose first byte is not [blank] and that occurs in [w ++ t],
    [w] being blank, occurs in [t]. *)
Lemma contains_after_blank (sub w t : string) :
  starts_visible sub = true -> all_chars blank w = true ->
  contains sub (w ++ t) = true -> contains sub t = true.
Proof.
  intros Hv. induction w as [|c w IH]; intros Hw H; [exact H|].
  cbn [all_chars] in Hw. apply andb_prop in Hw as [Hc Hw].
  cbn [append contains] in H. apply orb_prop in H as [H|H]; [|auto].
  destruct sub as [|a sub]; [discriminate|]. cbn [startswith] in H.
  apply andb_prop in H as [Hac _]. apply Ascii.eqb_eq in Hac. subst c.
  cbn [starts_visible] in Hv. now rewrite Hc in Hv.
Qed.

Lemma startswith_before_blank (sub t w : string) :
  ends_visible sub = true -> all_chars blank w = true ->
  startswith (t ++ w) sub = true -> startswith t sub = true.
Proof.
  revert t. induction sub as [|a sub IH]; intros t Hv Hw H; [reflexivity|].
  destruct t as [|c t].
  - cbn [append] in H. apply (all_chars_prefix blank) in H; [|exact Hw].
    apply all_blank_not_visible in H. congruence.
  - cbn [append startswith] in *. apply andb_prop in H as [Hac H]. rewrite Hac.
    destruct sub as [|b sub]; [reflexivity|]. apply IH; assumption.
Qed.

(** A text whose last byte is not [blank] and that occurs in [t ++ w],
    [w] being blank, occurs in [t]. *)
Lemma contains_before_blank (sub t w : string) :
  ends_visible sub = true -> all_chars blank w = true ->
  contains sub (t ++ w) = true -> contains sub t = true.
Proof.
  intros Hv Hw. induction t as [|c t IH]; intros H.
  - cbn [append] in H. apply (all_chars_contains blank) in H; [|exact Hw].
    apply all_blank_not_visible in H. congruence.
  - cbn [append contains] in H. apply orb_prop in H as [H|H].
    + apply contains_of_startswith.
      now apply (startswith_before_blank sub (String c t) w).
    + apply contains_tail. auto.
Qed.

(** A text that begins and ends with a visible byte and occurs in [s]
    occurs in [s.strip()]. *)
Lemma contains_strip (sub s : string) :
  starts_visible sub = true -> ends_visible sub = true ->
  contains sub s = true -> contains sub (strip s) = true.
Proof.
  intros Hs He H. unfold strip.
  destruct (lstrip_split s) as (w & E & Hw).
  destruct (rstrip_split (lstrip s)) as (w' & E' & Hw').
  rewrite E in H. apply (contains_after_blank _ _ _ Hs Hw) in H.
  rewrite E' in H. exact (contains_before_blank _ _ _ He Hw' H).
Qed.

(** Every white-space character in front is removed, whatever follows. *)
Lemma after_space_space (w r : string) :
  In w spaces -> after_space (w ++ r) = Some r.
Proof.
  intros H. repeat (destruct H as [<-|H]; [reflexivity|]). destruct H.
Qed.

Lemma lstrip_upto_spaces (ws : list string) :
  Forall (fun w => In w spaces) ws ->
  forall k, List.length ws <= k -> lstrip_upto k (fold_right append "" ws) = "".
Proof.
  induction 1 as [|w ws Hw _ IH]; intros k Hk; [now destruct k|].
  destruct k as [|k]; [cbn in Hk; lia|]. cbn [fold_right lstrip_upto].
  rewrite (after_space_space _ _ Hw). apply IH. cbn in Hk. lia.
Qed.

(** A text of white-space characters only is stripped to nothing. *)
Lemma strip_spaces (ws : list string) :
  Forall (fun w => In w spaces) ws -> strip (fold_right append "" ws) = "".
Proof.
  intros H. unfold strip, lstrip. rewrite lstrip_upto_spaces; [reflexivity | exact H|].
  induction H as [|w ws Hw _ IH]; [cbn; lia|]. cbn [fold_right List.length].
  rewrite length_append. destruct w; [|cbn [String.length]; lia].
  exfalso. revert Hw. clear. intros H.
  repeat (destruct H as [H|H]; [discriminate|]). destruct H.
Qed.

(** [strip] removes white space, that of Unicode included, at both ends
    and nowhere else. *)
Lemma strip_examples :
  strip "  a b  " = "a b"
  /\ strip (utf8 160 ++ "é " ++ utf8 12288 ++ NL) = "é"
  /\ strip (" " ++ utf8 160 ++ utf8 8195 ++ utf8 12288) = ""
  /\ strip "" = "".
Proof. repeat split. Qed.

(** ** Slices *)

Lemma len_app (a b : string) : len (a ++ b) = len a + len b.
Proof. induction a as [|c a IH]; cbn [append len]; [reflexivity | rewrite IH; lia]. Qed.

Lemma last_chars_split (n : nat) (s : string) :
  exists hidden, s = hidden ++ last_chars n s.
Proof.
  induction s as [|c s (h & IH)]; [now exists ""|]. cbn [last_chars].
  destruct ((len (String c s) <=? n)%nat && negb (is_continuation c)); [now exists ""|].
  exists (String c h). cbn [append]. now rewrite <- IH.
Qed.

Lemma last_chars_short (n : nat) (s : string) : len (last_chars n s) <= n.
Proof.
  induction s as [|c s IH]; [cbn; lia|]. cbn [last_chars].
  destruct (Nat.leb_spec (len (String c s)) n) as [H|H]; cbn [andb]; [|exact IH].
  destruct (negb (is_continuation c)); [exact H | exact IH].
Qed.

Lemma last_chars_len (n : nat) (s : string) :
  1 <= n -> n <= len s -> len (last_chars n s) = n.
Proof.
  intros Hn. induction s as [|c s IH]; intros Hs; [cbn in Hs; lia|].
  cbn [last_chars]. cbn [len] in *. revert Hs.
  destruct (is_continuation c) eqn:Ec; cbn [negb]; intros Hs.
  - rewrite andb_false_r. apply IH. lia.
  - rewrite andb_true_r. destruct (Nat.leb_spec (1 + len s) n) as [H|H].
    + cbn [len]. rewrite Ec. lia.
    + apply IH. lia.
Qed.

Lemma last_chars_boundary (n : nat) (s : string) (c : ascii) (r : string) :
  last_chars n s = String c r -> is_continuation c = false.
Proof.
  induction s as [|b s IH]; [discriminate|]. cbn [last_chars].
  destruct (len (String b s) <=? n)%nat; cbn [andb]; [|exact IH].
  destruct (is_continuation b) eqn:Eb; cbn [negb]; [exact IH|].
  now intros [= <- _].
Qed.

(** The text a browse handler gives its label, for the limits it uses. *)
Lemma display_path_bound (limit : nat) (directory : string) :
  4 <= limit ->
  let display_path :=
    if (len directory <? limit)%nat then directory
    else "..." ++ last_chars (limit - 3) directory in
  len display_path <= limit
  /\ (len directory < limit -> display_path = directory)
  /\ (limit <= len directory ->
      exists hidden shown,
        directory = hidden ++ shown /\ len shown = limit - 3
        /\ (forall c r, shown = String c r -> is_continuation c = false)
        /\ display_path = "..." ++ shown).
Proof.
  intros Hlim. cbv zeta. destruct (Nat.ltb_spec (len directory) limit) as [H|H].
  - split; [lia|]. split; [reflexivity | lia].
  - destruct (last_chars_split (limit - 3) directory) as (h & Hs).
    pose proof (last_chars_len (limit - 3) directory ltac:(lia) ltac:(lia)) as Hl.
    split; [rewrite len_app, Hl; change (len "...") with 3; lia|]. split; [lia|].
    intros _. exists h, (last_chars (limit - 3) directory).
    split; [exact Hs|]. split; [exact Hl|]. split; [|reflexivity].
    intros c r. apply last_chars_boundary.
Qed.

(* ================================================================== *)
(** * More facts about traces *)
(* ================================================================== *)

Lemma progress_values_app (a b : list Event) :
  progress_values (a ++ b) = (progress_values a ++ progress_values b)%list.
Proof. apply flat_map_app. Qed.

Lemma count_labels_app (a b : list Event) :
  count_labels (a ++ b) = (count_labels a ++ count_labels b)%list.
Proof. apply flat_map_app. Qed.

Lemma run_cmds_app (a b : list Event) :
  run_cmds (a ++ b) = (run_cmds a ++ run_cmds b)%list.
Proof. apply flat_map_app. Qed.

(** The calls of a job of the CAF converter touch neither the progress
    bar nor the labels, and show no message box. *)
Lemma calls_are_silent (t : list Event) :
  forallb is_call t = true ->
  progress_values t = [] /\ count_labels t = [] /\ count is_box t = 0.
Proof.
  induction t as [|e t IH]; [auto|]. cbn [forallb]. intros H.
  apply andb_prop in H as [He Ht]. destruct (IH Ht) as (H1 & H2 & H3).
  destruct e; try discriminate; cbn; auto.
Qed.

Lemma logs_are_silent (lines : list string) :
  progress_values (map Log lines) = [] /\ count_labels (map Log lines) = []
  /\ count is_box (map Log lines) = 0.
Proof. induction lines as [|l lines (H1 & H2 & H3)]; cbn; auto. Qed.

(** The events of the scan and of the jobs of the bit-depth converter:
    no message box, no poll of a flag, no subprocess, no new maximum of
    the progress bar. *)
Lemma job_events_counts (t : list Event) :
  forallb job_event t = true ->
  count is_box t = 0 /\ count is_error_box t = 0 /\ count is_poll t = 0
  /\ count is_run t = 0 /\ count is_maximum t = 0.
Proof.
  intros H. repeat split; apply (count_none _ job_event); auto; now intros [].
Qed.

Lemma in_count (p : Event -> bool) (e : Event) (tr : list Event) :
  In e tr -> p e = true -> count p tr <> 0.
Proof.
  intros Hin Hp. apply in_split in Hin as (a & b & ->).
  rewrite count_app, count_cons, Hp. lia.
Qed.

Lemma last_default {A : Type} (l : list A) (a d d' : A) :
  last (a :: l) d = last (a :: l) d'.
Proof. revert a. induction l as [|b l IH]; intros a; [reflexivity|]. exact (IH b). Qed.

Lemma last_app_nonempty {A : Type} (l1 l2 : list A) (d : A) :
  l2 <> [] -> last (l1 ++ l2) d = last l2 d.
Proof.
  intros H. induction l1 as [|a l1 IH]; [reflexivity|].
  cbn [List.app]. rewrite <- IH. destruct (l1 ++ l2)%list eqn:E; [|reflexivity].
  apply app_eq_nil in E as [_ E]. contradiction.
Qed.

Lemma seq_next (n len : nat) : (n :: seq (n + 1) len) = seq n (S len).
Proof. cbn [seq]. now rewrite Nat.add_1_r. Qed.

(* ================================================================== *)
(** * The scans *)
(* ================================================================== *)

Section Scans.
Context {os : OS}.

(** X1. [find_caf_files] returns exactly the
    walked files whose name ends in [.caf] whatever the case of its
    letters, each joined to its folder; every path it returns ends in
    [.caf] in the same sense and is not empty.  It never raises, changes
    nothing and logs nothing. *)
Theorem scan_returns_the_caf_named_files :
  forall (directory : string) (fs : FS),
  exists files,
    CafGui.find_caf_files directory fs = (Ret files, fs, [])
    /\ (forall p,
          In p files
          <-> exists root dirs names name,
                In (root, dirs, names) (walk directory fs)
                /\ In name names
                /\ endswith (lower name) ".caf" = true
                /\ p = join2 root name)
    /\ (forall p, In p files -> endswith (lower p) ".caf" = true /\ p <> "").
Proof.
  intros directory fs. eexists. split; [reflexivity|].
  assert (Hiff : forall p,
    In p (flat_map
            (fun '(root, _, files) =>
               map (join2 root) (filter (fun file => endswith (lower file) ".caf") files))
            (walk directory fs))
    <-> exists root dirs names name,
          In (root, dirs, names) (walk directory fs)
          /\ In name names
          /\ endswith (lower name) ".caf" = true
          /\ p = join2 root name).
  { intros p. rewrite in_flat_map. split.
    - intros ([[root dirs] names] & Hin & Hp).
      apply in_map_iff in Hp as (name & <- & Hf). apply filter_In in Hf as [Hn He].
      exists root, dirs, names, name. auto.
    - intros (root & dirs & names & name & Hin & Hn & He & ->).
      exists (root, dirs, names). split; [assumption|].
      apply in_map. apply filter_In. auto. }
  split; [exact Hiff|].
  intros p Hp. apply Hiff in Hp as (root & dirs & names & name & _ & _ & He & ->).
  split; [now apply endswith_lower_join2|].
  apply join2_nonempty. intros ->. discriminate He.
Qed.

(** X2. [find_wav_files] with sub-directories returns exactly the walked
    files whose name ends in [.wav] whatever the case of its letters;
    without, exactly such entries of [os.listdir(folder)], joined to the
    folder.  In both modes every path returned ends in [.wav] in the same
    sense and is not empty, nothing is changed and nothing is logged; an
    exception of [os.listdir] is not caught here. *)
Theorem scan_returns_the_wav_named_files :
  forall (folder : string) (fs : FS),
    (exists files,
        WavDepth.find_wav_files folder true fs = (Ret files, fs, [])
        /\ (forall p,
              In p files
              <-> exists root dirs names name,
                    In (root, dirs, names) (walk folder fs)
                    /\ In name names
                    /\ endswith (lower name) ".wav" = true
                    /\ p = join2 root name)
        /\ (forall p, In p files -> endswith (lower p) ".wav" = true /\ p <> ""))
    /\ match listdir folder fs with
       | Ret names =>
           exists files,
             WavDepth.find_wav_files folder false fs = (Ret files, fs, [])
             /\ (forall p,
                   In p files
                   <-> exists name,
                         In name names /\ endswith (lower name) ".wav" = true
                         /\ p = join2 folder name)
             /\ (forall p, In p files -> endswith (lower p) ".wav" = true /\ p <> "")
       | Raise e => WavDepth.find_wav_files folder false fs = (Raise e, fs, [])
       end.
Proof.
  intros folder fs. split.
  - eexists. split; [reflexivity|].
    assert (Hiff : forall p,
      In p (flat_map
              (fun '(root, _, files) => map (join2 root) (filter WavDepth.is_wav files))
              (walk folder fs))
      <-> exists root dirs names name,
            In (root, dirs, names) (walk folder fs)
            /\ In name names
            /\ endswith (lower name) ".wav" = true
            /\ p = join2 root name).
    { intros p. rewrite in_flat_map. split.
      - intros ([[root dirs] names] & Hin & Hp).
        apply in_map_iff in Hp as (name & <- & Hf). apply filter_In in Hf as [Hn He].
        exists root, dirs, names, name. auto.
      - intros (root & dirs & names & name & Hin & Hn & He & ->).
        exists (root, dirs, names). split; [assumption|].
        apply in_map. apply filter_In. auto. }
    split; [exact Hiff|].
    intros p Hp. apply Hiff in Hp as (root & dirs & names & name & _ & _ & He & ->).
    split; [now apply endswith_lower_join2|].
    apply join2_nonempty. intros ->. discriminate He.
  - unfold WavDepth.find_wav_files. run_monad.
    destruct (listdir folder fs) as [names|e]; [|reflexivity].
    eexists. split; [reflexivity|].
    assert (Hiff : forall p,
      In p (map (join2 folder) (filter WavDepth.is_wav names))
      <-> exists name,
            In name names /\ endswith (lower name) ".wav" = true /\ p = join2 folder name).
    { intros p. rewrite in_map_iff. split.
      - intros (name & <- & Hf). apply filter_In in Hf as [Hn He]. exists name. auto.
      - intros (name & Hn & He & ->). exists name. split; [reflexivity|].
        apply filter_In. auto. }
    split; [exact Hiff|].
    intros p Hp. apply Hiff in Hp as (name & _ & He & ->).
    split; [now apply endswith_lower_join2|].
    apply join2_nonempty. intros ->. discriminate He.
Qed.

(** The files a scan returns have a name: no path is empty. *)
Lemma caf_scan_finds (directory : string) (fs : FS) :
  exists files,
    CafGui.find_caf_files directory fs = (Ret files, fs, []) /\ ~ In "" files.
Proof.
  eexists. split; [reflexivity|]. intros H. apply in_flat_map in H as ([[root dirs] names] & _ & H).
  apply in_map_iff in H as (name & E & Hf). apply filter_In in Hf as [_ He].
  apply (join2_nonempty root name); [|exact E]. intros ->. discriminate He.
Qed.

Lemma wav_scan_finds (folder : string) (subdirs : bool) (fs : FS) :
  (exists files,
      WavDepth.find_wav_files folder subdirs fs = (Ret files, fs, []) /\ ~ In "" files)
  \/ (exists e,
        WavDepth.find_wav_files folder subdirs fs = (Raise e, fs, [])
        /\ subdirs = false /\ listdir folder fs = Raise e).
Proof.
  assert (Hne : forall root names,
             ~ In "" (map (join2 root) (filter WavDepth.is_wav names))).
  { intros root names H. apply in_map_iff in H as (name & E & Hf).
    apply filter_In in Hf as [_ He].
    apply (join2_nonempty root name); [|exact E]. intros ->. discriminate He. }
  unfold WavDepth.find_wav_files. run_monad. destruct subdirs.
  - left. eexists. split; [reflexivity|]. intros H.
    apply in_flat_map in H as ([[root dirs] names] & _ & H). exact (Hne _ _ H).
  - destruct (listdir folder fs) as [names|e].
    + left. eexists. split; [reflexivity|]. apply Hne.
    + right. exists e. auto.
Qed.

End Scans.

(* ================================================================== *)
(** * Destinations, continued *)
(* ================================================================== *)

Section MoreDestinations.
Context {os : OS}.
Variable app : CafGui.App.
Import CafGui.

Lemma planned_ends_in_wav (caf : string) (out : option string) (wp : string) :
  planned app caf out = Some wp -> endswith wp ".wav" = true.
Proof.
  unfold planned. destruct (chosen out) as [o|].
  - destruct (relpath _ _ _) as [rel|]; [|discriminate]. intros [= <-].
    apply endswith_join2, endswith_app.
  - intros [= <-]. apply endswith_app.
Qed.

(** X3. No destination is a CAF file.  Whatever the source and whether an
    output directory is chosen or not, the destination the CAF converter
    plans differs from every path that ends in [.caf] (in any case of the
    letters): no file the scan can return, the source least of all, is
    ever the target of a conversion.  The same holds for the command-line
    converter, by the names of the paths. *)
Theorem no_destination_is_a_caf_file :
  (forall caf out wp p,
      planned app caf out = Some wp ->
      endswith (lower p) ".caf" = true ->
      wp <> p)
  /\ (forall caf p,
        no_sep (PurePath.name caf) = true ->
        endswith (lower (PurePath.name p)) ".caf" = true ->
        CafCli.out_path_of caf <> p).
Proof.
  split.
  - intros caf out wp p Hpl Hp. apply wav_is_not_caf; [|assumption].
    now apply (planned_ends_in_wav caf out).
  - intros caf p Hn Hp E. subst p. rewrite (name_of_out_path caf Hn) in Hp.
    assert (Hw : endswith (PurePath.stem caf ++ ".wav") ".wav" = true) by apply endswith_app.
    apply endswith_lower in Hw.
    pose proof (endswith_same_length _ _ _ Hw Hp eq_refl). discriminate.
Qed.

(** X4. With an output directory chosen, two sources get the same
    destination exactly when their paths relative to the selected
    directory agree up to the extension. *)
Theorem mirrored_destinations_coincide_up_to_extension :
  forall (out caf1 caf2 rel1 rel2 : string),
    chosen (output_directory app) = Some out ->
    relpath getcwd caf1 (selected_directory app) = Some rel1 ->
    relpath getcwd caf2 (selected_directory app) = Some rel2 ->
    (planned app caf1 (output_directory app) = planned app caf2 (output_directory app)
     <-> fst (splitext rel1) = fst (splitext rel2)).
Proof.
  intros out caf1 caf2 rel1 rel2 Hout H1 H2.
  unfold planned. rewrite Hout, H1, H2. cbn [option_map]. unfold wav_under.
  split; [|now intros ->].
  intros [= E]. apply join2_relative_inj in E.
  - now apply append_inj_r in E.
  - apply is_relative_app, splitext_root_relative. now apply (relpath_is_relative _ _ _ _ H1).
  - apply is_relative_app, splitext_root_relative. now apply (relpath_is_relative _ _ _ _ H2).
Qed.

End MoreDestinations.

(** X5. The destinations of the bit-depth converter.  The destination of
    a file is never the file itself; a 24-bit destination is never a
    16-bit destination, of the same file or of another; and two files get
    the same 24-bit (or 16-bit) destination exactly when they have the
    same directory and the same name. *)
Theorem downconversion_destinations_are_apart :
  (forall f sub, sub = "24bit" \/ sub = "16bit" -> WavDepth.output_path_of f sub <> f)
  /\ (forall f g, WavDepth.output_path_of f "24bit" <> WavDepth.output_path_of g "16bit")
  /\ (forall f g sub,
        sub = "24bit" \/ sub = "16bit" ->
        (WavDepth.output_path_of f sub = WavDepth.output_path_of g sub
         <-> dirname f = dirname g /\ basename f = basename g)).
Proof.
  split; [|split].
  - intros f sub Hsub E. destruct (subdir_is_component sub Hsub) as [Hs Hne].
    apply (f_equal dirname) in E. rewrite (dirname_output_path _ _ Hs Hne) in E.
    exact (join2_sub_longer _ _ Hs Hne E).
  - intros f g E. apply (f_equal dirname) in E.
    rewrite (dirname_output_path f "24bit"), (dirname_output_path g "16bit") in E
      by (reflexivity || discriminate).
    destruct (join2_component (dirname f) "24bit" eq_refl) as [x Hx].
    destruct (join2_component (dirname g) "16bit" eq_refl) as [y Hy].
    assert (H : "24bit" = "16bit"); [|discriminate].
    apply (endswith_same_length (join2 (dirname f) "24bit")).
    + rewrite Hx. apply endswith_app.
    + rewrite E, Hy. apply endswith_app.
    + reflexivity.
  - intros f g sub Hsub. destruct (subdir_is_component sub Hsub) as [Hs Hne]. split.
    + intros E. split.
      * apply (f_equal dirname) in E. rewrite !(dirname_output_path _ _ Hs Hne) in E.
        exact (join2_dirname_inj _ _ _ Hs Hne E).
      * apply (f_equal basename) in E. now rewrite !(basename_output_path _ _ Hs Hne) in E.
    + intros [Hd Hb]. unfold WavDepth.output_path_of. now rewrite Hd, Hb.
Qed.

(* ================================================================== *)
(** * What [ffmpeg] reports *)
(* ================================================================== *)

(** X6. A return code 0 is read as a success, with the destination.  The
    information line is empty exactly when the standard error does not
    hold "Duration:"; otherwise it is the first line of the standard error
    that holds it, stripped, and it still holds "Duration:". *)
Theorem duration_line_is_reported :
  forall (wp err : string),
    let r := CafGui.ffmpeg_result wp 0 err in
    CafGui.status r = "success"
    /\ CafGui.wav_path r = Some wp
    /\ (CafGui.info r = "" <-> contains "Duration:" err = false)
    /\ (contains "Duration:" err = true ->
        exists before line after,
          split LF err = (before ++ line :: after)%list
          /\ forallb (fun l => negb (contains "Duration:" l)) before = true
          /\ contains "Duration:" line = true
          /\ CafGui.info r = strip line
          /\ contains "Duration:" (CafGui.info r) = true).
Proof.
  intros wp err r. subst r. unfold CafGui.ffmpeg_result.
  cbn [Z.eqb CafGui.status CafGui.wav_path CafGui.info].
  split; [reflexivity|]. split; [reflexivity|].
  destruct (contains "Duration:" err) eqn:E.
  - apply (contains_in_a_line "Duration:" err eq_refl) in E.
    destruct (find_first _ _ E) as (a & x & b & Hs & Ha & Hx & ->).
    assert (Hi : contains "Duration:" (strip x) = true)
      by (apply contains_strip; (reflexivity || assumption)).
    split.
    + split; [|discriminate]. intros H0. rewrite H0 in Hi. discriminate.
    + intros _. exists a, x, b. auto.
  - split; [tauto | discriminate].
Qed.

(** X7. A non-zero return code whose standard error does not hold
    "already exists" gives an error status on one line: "FFmpeg error: "
    and the last three lines of the standard error (all of them when there
    are fewer), joined by spaces.  With an empty standard error the status
    spells "Unknown error" letter by letter, the string being joined
    as a sequence of characters. *)
Theorem error_status_is_one_line :
  forall (wp : string) (rc : Z) (err : string),
    rc <> 0%Z -> contains "already exists" err = false ->
    let r := CafGui.ffmpeg_result wp rc err in
    CafGui.wav_path r = None
    /\ CafGui.info r = ""
    /\ CafGui.kind_of (CafGui.status r) = CafGui.Errored
    /\ one_line (CafGui.status r) = true
    /\ (err = "" -> CafGui.status r = "FFmpeg error: U n k n o w n   e r r o r")
    /\ (err <> "" ->
        exists earlier lines,
          split LF err = (earlier ++ lines)%list
          /\ List.length lines = Nat.min 3 (List.length (split LF err))
          /\ CafGui.status r = "FFmpeg error: " ++ join " " lines).
Proof.
  intros wp rc err Hrc Hex r. subst r. unfold CafGui.ffmpeg_result.
  destruct (Z.eqb_spec rc 0) as [|_]; [contradiction|]. rewrite Hex.
  cbn [CafGui.wav_path CafGui.info CafGui.status].
  split; [reflexivity|]. split; [reflexivity|]. split; [reflexivity|].
  destruct err as [|c err].
  - split; [reflexivity|]. split; [reflexivity | congruence].
  - cbn [truthy String.eqb negb]. split.
    + rewrite one_line_app. cbn [andb]. apply join_one_line. unfold last_n.
      apply forallb_drop, split_lines_one_line.
    + split; [discriminate|]. intros _. unfold last_n.
      set (l := split LF (String c err)).
      exists (firstn (List.length l - 3) l), (skipn (List.length l - 3) l).
      split; [now rewrite firstn_skipn|]. split; [rewrite length_skipn; lia | reflexivity].
Qed.

(* ================================================================== *)
(** * The CAF converter, continued *)
(* ================================================================== *)

Section CafGuiRuns.
Context {os : OS}.
Variable app : CafGui.App.
Import CafGui.

(** ** One job *)

Lemma plan_runs_nothing (caf : string) (out : option string) (fs : FS) :
  run_cmds (snd (plan_wav_path app caf out fs)) = [].
Proof.
  rewrite plan_wav_path_run. destruct (chosen out) as [o|]; [|reflexivity].
  destruct (relpath _ _ _) as [rel|]; [|reflexivity].
  cbv zeta. now destruct (makedirs _ fs) as [[msg|] fs1].
Qed.

(** X8. A job is reported as a success, and counted as converted, exactly
    when the destination was not skipped by the check before the run,
    FFmpeg was available, and the [ffmpeg] run for it returned 0; the
    result then carries the planned destination and [ffmpeg] ran once.
    Without FFmpeg nothing is run and no job succeeds.  When the output
    directory cannot be made (or the relative path cannot be computed) the
    job is an error "error: ..." and [ffmpeg] is not run. *)
Theorem success_means_ffmpeg_returned_zero :
  forall (caf bd : string) (out : option string) (trim : bool) (fs : FS),
  exists r fs' t,
    convert_caf_to_wav app caf bd out trim fs = (Ret r, fs', t)
    /\ (kind_of (status r) = Success <-> status r = "success")
    /\ match plan_wav_path app caf out fs with
       | (Ret wp, fs1, _) =>
           let cmd := ffmpeg_cmd (overwrite_var app) caf wp bd trim in
           (status r = "success"
            <-> (path_exists wp fs1 && negb (overwrite_var app) = false
                 /\ ffmpeg_available app = true
                 /\ exists err, subprocess_run cmd fs1 = (Completed 0 err, fs')))
           /\ (status r = "success" -> wav_path r = Some wp /\ run_cmds t = [cmd])
           /\ (ffmpeg_available app = false ->
               run_cmds t = [] /\ fs' = fs1 /\ kind_of (status r) <> Success)
       | (Raise e, fs1, _) =>
           r = {| wav_path := None; status := "error: " ++ e; info := "" |}
           /\ kind_of (status r) = Errored
           /\ run_cmds t = [] /\ fs' = fs1
       end.
Proof.
  intros caf bd out trim fs. rewrite convert_caf_to_wav_run.
  pose proof (plan_runs_nothing caf out fs) as Hplan.
  assert (Hkind : forall s, kind_of s = Success <-> s = "success").
  { intros s. unfold kind_of. destruct (String.eqb_spec s "success") as [->|Hs].
    - tauto.
    - split; [|contradiction]. destruct (startswith s "skipped"); discriminate. }
  destruct (plan_wav_path app caf out fs) as [[[wp|e] fs1] t1]; cbn [snd] in Hplan.
  2:{ do 3 eexists. split; [reflexivity|]. split; [apply Hkind|]. repeat split. exact Hplan. }
  destruct (path_exists wp fs1 && negb (overwrite_var app)) eqn:Eskip.
  { do 3 eexists. split; [reflexivity|]. split; [apply Hkind|]. cbv zeta.
    cbn [status wav_path]. split; [|split].
    - split; [discriminate | intros [H _]; discriminate].
    - discriminate.
    - intros _. repeat split; [exact Hplan | discriminate]. }
  destruct (ffmpeg_available app) eqn:Eff; cbn [negb].
  2:{ do 3 eexists. split; [reflexivity|]. split; [apply Hkind|]. cbv zeta.
      cbn [status wav_path]. split; [|split].
      - split; [discriminate | intros (_ & H & _); discriminate].
      - discriminate.
      - intros _. repeat split; [exact Hplan | discriminate]. }
  cbv zeta. destruct (subprocess_run _ fs1) as [[rc err|msg] fs2] eqn:Erun.
  - do 3 eexists. split; [reflexivity|]. split; [apply Hkind|]. split; [|split].
    + split.
      * intros Hs. apply ffmpeg_result_success in Hs. subst rc. eauto.
      * intros (_ & _ & err' & [= -> _]). reflexivity.
    + intros Hs. apply ffmpeg_result_success in Hs. subst rc. split; [reflexivity|].
      rewrite run_cmds_app, Hplan. reflexivity.
    + discriminate.
  - do 3 eexists. split; [reflexivity|]. split; [apply Hkind|]. cbn [status wav_path].
    split; [|split].
    + split; [discriminate | intros (_ & _ & err' & [=])].
    + discriminate.
    + discriminate.
Qed.

(** X9. With overwriting on (and FFmpeg available) the check before the
    run never skips: once the destination is planned, [ffmpeg] is run,
    with [-y] before the destination, whether the destination exists or
    not, and the result is what [convert_with_ffmpeg] reads from the run.
    The job can then only be skipped by [ffmpeg] itself, returning
    non-zero with "already exists" in its standard error. *)
Theorem overwriting_always_runs_ffmpeg :
  forall (caf bd : string) (out : option string) (trim : bool) (fs : FS)
         (wp : string) (fs1 : FS) (t1 : list Event),
    overwrite_var app = true -> ffmpeg_available app = true ->
    plan_wav_path app caf out fs = (Ret wp, fs1, t1) ->
    exists r options,
      let cmd := (options ++ ["-y"; wp])%list in
      ffmpeg_cmd (overwrite_var app) caf wp bd trim = cmd
      /\ convert_caf_to_wav app caf bd out trim fs
         = (Ret r, snd (subprocess_run cmd fs1), (t1 ++ [CallRun cmd])%list)
      /\ (forall rc err,
            fst (subprocess_run cmd fs1) = Completed rc err ->
            r = ffmpeg_result wp rc err)
      /\ (status r = "skipped (already exists)" ->
          exists rc err,
            fst (subprocess_run cmd fs1) = Completed rc err
            /\ rc <> 0%Z /\ contains "already exists" err = true).
Proof.
  intros caf bd out trim fs wp fs1 t1 Hov Hff Hplan.
  rewrite convert_caf_to_wav_run, Hplan, Hov, Hff. cbn [negb andb]. rewrite andb_false_r.
  cbv zeta.
  set (options := (["ffmpeg"; "-i"; caf]
                   ++ (if trim
                       then ["-af";
                             "silenceremove=start_periods=1:start_duration=0:start_threshold=-50dB"]
                       else [])
                   ++ ["-acodec"; if bd =? "24" then "pcm_s24le" else "pcm_f32le"])%list).
  assert (Hcmd : ffmpeg_cmd true caf wp bd trim = (options ++ ["-y"; wp])%list)
    by (subst options; destruct trim; reflexivity).
  rewrite Hcmd.
  destruct (subprocess_run _ fs1) as [[rc err|msg] fs2] eqn:Erun.
  - exists (ffmpeg_result wp rc err), options. cbv zeta. rewrite Erun. cbn [fst snd].
    split; [reflexivity|]. split; [reflexivity|]. split; [now intros ? ? [= <- <-]|].
    unfold ffmpeg_result. destruct (Z.eqb_spec rc 0) as [->|Hrc]; [discriminate|].
    destruct (contains "already exists" err) eqn:Ec.
    + intros _. exists rc, err. auto.
    + cbn [status]. discriminate.
  - eexists. exists options. cbv zeta. rewrite Erun. cbn [fst snd].
    split; [reflexivity|]. split; [reflexivity|]. split; discriminate.
Qed.

(** ** The loop *)

Lemma kind_count_cons (k : Kind) (caf : string) (r : JobResult)
    (js : list (string * JobResult)) :
  kind_count k ((caf, r) :: js)
  = (if same_kind (kind_of (status r)) k then 1 else 0) + kind_count k js.
Proof.
  unfold kind_count. cbn [filter snd]. now destruct (same_kind (kind_of (status r)) k).
Qed.

Lemma tally_by_kind (c : Counts) (s : string) :
  converted_count (tally c s)
  = converted_count c + (if same_kind (kind_of s) Success then 1 else 0)
  /\ skipped_count (tally c s)
     = skipped_count c + (if same_kind (kind_of s) Skipped then 1 else 0)
  /\ error_count (tally c s)
     = error_count c + (if same_kind (kind_of s) Errored then 1 else 0).
Proof. unfold tally. destruct (kind_of s); cbn; repeat split; lia. Qed.

(** The loop of [conversion_thread]: its counters, the progress bar and
    the file-count label, whatever the collaborators do. *)
Lemma conversion_loop_display (running : nat -> bool) (bd : string) (trim : bool)
    (total : nat) (files : list string) :
  forall (i : nat) (c : Counts) (fs : FS),
    match conversion_loop app running bd trim total i files c fs with
    | (Ret x, _, tr) =>
        converted_count (counts x) = converted_count c + kind_count Success (jobs x)
        /\ skipped_count (counts x) = skipped_count c + kind_count Skipped (jobs x)
        /\ error_count (counts x) = error_count c + kind_count Errored (jobs x)
        /\ progress_values tr = seq (i + 1) (List.length (jobs x))
        /\ List.length (count_labels tr) = List.length (jobs x)
        /\ last (count_labels tr) (counts_line c) = counts_line (counts x)
        /\ count is_box tr = 0
    | (Raise _, _, tr) => count is_box tr = 0
    end.
Proof.
  induction files as [|caf rest IH]; intros i c fs.
  - cbn. repeat split; lia.
  - rewrite conversion_loop_cons. destruct (running i).
    + destruct (relpath _ _ _) as [rel|]; [|reflexivity].
      pose proof (convert_caf_to_wav_calls app caf bd (output_directory app) trim fs) as Hc.
      destruct (convert_caf_to_wav_total app caf bd (output_directory app) trim fs)
        as (r & fs1 & t1 & E).
      rewrite E in *. cbn [snd] in Hc. cbv zeta.
      destruct (calls_are_silent t1 Hc) as (Hp1 & Hl1 & Hb1).
      destruct (logs_are_silent (report_lines r)) as (Hp2 & Hl2 & Hb2).
      specialize (IH (S i) (tally c (status r)) fs1).
      destruct (conversion_loop app running bd trim total (S i) rest _ fs1)
        as [[[x|e] fs2] t2].
      * destruct IH as (H1 & H2 & H3 & H4 & H5 & H6 & H7).
        cbn [counts jobs List.length]. rewrite !kind_count_cons.
        destruct (tally_by_kind c (status r)) as (Ht1 & Ht2 & Ht3).
        split; [lia|]. split; [lia|]. split; [lia|].
        rewrite !progress_values_app, !count_labels_app, Hp1, Hp2, Hl1, Hl2.
        cbn [progress_values count_labels flat_map List.app].
        split; [cbn [seq]; rewrite H4; do 2 f_equal; lia|].
        split; [cbn [List.length]; now rewrite H5|].
        split.
        { destruct (count_labels t2) as [|l ls] eqn:El; [exact H6|].
          rewrite <- H6. exact (last_default ls l _ _). }
        count_norm. cbn [is_box]. rewrite Hb1, Hb2, H7. reflexivity.
      * count_norm. cbn [is_box]. rewrite Hb1, Hb2, IH. reflexivity.
    + cbn. repeat split; lia.
Qed.

(** X10. Each counter of [conversion_thread] counts its kind of job: the
    converted counter grows by the number of jobs with the status
    "success", the skipped counter by the number of jobs whose status
    starts with "skipped", the error counter by the number of all others.
    The file-count label is set once per job and last shows the counters
    the loop ends with. *)
Theorem each_counter_counts_its_kind :
  forall (running : nat -> bool) (bd : string) (trim : bool) (total i : nat)
         (files : list string) (c : Counts) (fs : FS),
    match conversion_loop app running bd trim total i files c fs with
    | (Ret x, _, tr) =>
        converted_count (counts x) = converted_count c + kind_count Success (jobs x)
        /\ skipped_count (counts x) = skipped_count c + kind_count Skipped (jobs x)
        /\ error_count (counts x) = error_count c + kind_count Errored (jobs x)
        /\ List.length (count_labels tr) = List.length (jobs x)
        /\ last (count_labels tr) (counts_line c) = counts_line (counts x)
    | (Raise _, _, _) => In "" files
    end.
Proof.
  intros running bd trim total i files c fs.
  pose proof (conversion_loop_display running bd trim total files i c fs) as H.
  pose proof (conversion_loop_shape app running bd trim total files i c fs) as H'.
  destruct (conversion_loop app running bd trim total i files c fs)
    as [[[x|e] fs'] tr]; [|exact H'].
  tauto.
Qed.

(** X11. The progress bar follows the jobs: started at index [i], the
    loop sets it to [i + 1], [i + 2], ... once after each job; it ends at
    the number of files exactly when the loop was not cancelled, and below
    it when it was. *)
Theorem progress_bar_counts_the_jobs :
  forall (running : nat -> bool) (bd : string) (trim : bool) (total i : nat)
         (files : list string) (c : Counts) (fs : FS),
    match conversion_loop app running bd trim total i files c fs with
    | (Ret x, _, tr) =>
        progress_values tr = seq (i + 1) (List.length (jobs x))
        /\ (cancelled x = false ->
            last (progress_values tr) i = i + List.length files)
        /\ (cancelled x = true ->
            last (progress_values tr) i < i + List.length files)
    | (Raise _, _, _) => In "" files
    end.
Proof.
  intros running bd trim total i files c fs.
  pose proof (conversion_loop_display running bd trim total files i c fs) as H.
  pose proof (conversion_loop_shape app running bd trim total files i c fs) as H'.
  destruct (conversion_loop app running bd trim total i files c fs)
    as [[[x|e] fs'] tr]; [|exact H'].
  destruct H as (_ & _ & _ & Hp & _). cbv zeta in H'.
  destruct H' as (_ & _ & _ & _ & Hend & _).
  assert (Hlast : forall n, last (seq (i + 1) n) i = i + n).
  { intros n. destruct n as [|n]; [cbn; lia|].
    rewrite seq_S, last_last. lia. }
  rewrite Hp, Hlast. split; [reflexivity|].
  destruct (cancelled x); split; intros; try discriminate; lia.
Qed.

(** ** The thread *)

(** [conversion_thread] once the scan has returned. *)
Lemma conversion_thread_run (running : nat -> bool) (fs : FS) :
  forall files,
    find_caf_files (selected_directory app) fs = (Ret files, fs, []) ->
    conversion_thread app running fs
    = let reset := ButtonReset "START CONVERSION" in
      if ffmpeg_available app then
        match files with
        | [] =>
            (Ret tt, fs,
             [Log ("Scanning: " ++ selected_directory app); Log "No CAF files found!";
              MessageBox ShowInfo "No Files" "No CAF files found in the selected directory.";
              reset])
        | _ :: _ =>
            let total := List.length files in
            let header :=
              [Log ("Scanning: " ++ selected_directory app);
               Log ("Found " ++ str_of_nat total ++ " CAF file(s)" ++ NL);
               Log (match chosen (output_directory app) with
                    | Some out => "Output: " ++ out
                    | None => "Output: Same location as source"
                    end);
               Log ("Bit depth: " ++ bit_depth_var app ++ "-bit");
               Log ("Remove silence: " ++ (if trim_silence_var app then "Yes" else "No") ++ NL);
               ProgressMaximum total; ProgressValue 0] in
            match conversion_loop app running (bit_depth_var app) (trim_silence_var app)
                    total 0 files no_counts fs with
            | (Ret x, fs', t) =>
                let c := counts x in
                (Ret tt, fs',
                 header ++ t
                 ++ [Log (NL ++ repeat_str "=" 60); Log "✓ COMPLETE"; Log (counts_line c);
                     ProgressLabel "Complete!";
                     if (0 <? error_count c)%nat then
                       MessageBox ShowWarning "Complete with Errors"
                         ("Converted: " ++ str_of_nat (converted_count c) ++ NL
                          ++ "Errors: " ++ str_of_nat (error_count c) ++ NL ++ NL
                          ++ "Check log for details.")
                     else
                       MessageBox ShowInfo "Complete"
                         ("Successfully converted " ++ str_of_nat (converted_count c)
                          ++ " file(s)!");
                     reset])%list
            | (Raise e, fs', t) =>
                (Ret tt, fs',
                 header ++ t
                 ++ [Log (NL ++ "❌ ERROR: " ++ e); Log (format_exc e);
                     MessageBox ShowError "Error" ("An error occurred:" ++ NL ++ e);
                     reset])%list
            end
        end
      else
        (Ret tt, fs,
         [MessageBox ShowError "FFmpeg Required"
            ("FFmpeg is required for conversion!" ++ NL ++ NL
             ++ "See WINDOWS_INSTALL.md for installation instructions.");
          reset]).
Proof.
  intros files Hfind. unfold conversion_thread, log_message.
  destruct (ffmpeg_available app); cbn [negb]; [|reflexivity].
  unfold try_finally, try_except. unfold bind at 1. unfold emit at 1.
  unfold bind at 1. rewrite Hfind.
  destruct files as [|f files]; [reflexivity|].
  cbv zeta. set (total := List.length (f :: files)).
  set (loop := conversion_loop app running (bit_depth_var app) (trim_silence_var app)
                 total 0 (f :: files) no_counts).
  run_monad. destruct (chosen (output_directory app)) as [out|];
    destruct (loop fs) as [[[x|e] fs'] t]; cbv beta iota;
    try (destruct (0 <? error_count (counts x))%nat);
    cbn [List.app]; rewrite ?app_nil_r, <- ?app_assoc; reflexivity.
Qed.

(** X12. [conversion_thread] always ends: it never raises, shows exactly
    one message box, and its last act is to reset the button.  Since no
    scanned path is empty, the handler of unexpected exceptions is never
    entered: no "Error" box is shown.  Without FFmpeg it shows "FFmpeg
    Required" and does nothing else; when the scan finds no CAF file it
    says so and does nothing else. *)
Theorem conversion_thread_always_finishes :
  forall (running : nat -> bool) (fs : FS),
  exists fs' tr,
    conversion_thread app running fs = (Ret tt, fs', tr)
    /\ count is_box tr = 1
    /\ last tr (Log "") = ButtonReset "START CONVERSION"
    /\ (forall msg, ~ In (MessageBox ShowError "Error" msg) tr)
    /\ (ffmpeg_available app = false ->
        fs' = fs
        /\ tr = [MessageBox ShowError "FFmpeg Required"
                   ("FFmpeg is required for conversion!" ++ NL ++ NL
                    ++ "See WINDOWS_INSTALL.md for installation instructions.");
                 ButtonReset "START CONVERSION"])
    /\ (ffmpeg_available app = true ->
        find_caf_files (selected_directory app) fs = (Ret [], fs, []) ->
        fs' = fs
        /\ tr = [Log ("Scanning: " ++ selected_directory app); Log "No CAF files found!";
                 MessageBox ShowInfo "No Files"
                   "No CAF files found in the selected directory.";
                 ButtonReset "START CONVERSION"]).
Proof.
  intros running fs.
  destruct (caf_scan_finds (selected_directory app) fs) as (files & Hfind & Hne).
  rewrite (conversion_thread_run running fs files Hfind). cbv zeta.
  destruct (ffmpeg_available app).
  - destruct files as [|f files].
    + do 2 eexists. split; [reflexivity|]. split; [reflexivity|]. split; [reflexivity|].
      split; [intros msg [H|[H|[H|[H|[]]]]]; discriminate|].
      split; [discriminate | auto].
    + pose proof (conversion_loop_display running (bit_depth_var app) (trim_silence_var app)
                    (List.length (f :: files)) (f :: files) 0 no_counts fs) as Hd.
      pose proof (conversion_loop_shape app running (bit_depth_var app)
                    (trim_silence_var app) (List.length (f :: files)) (f :: files)
                    0 no_counts fs) as Hs.
      destruct (conversion_loop app running (bit_depth_var app) (trim_silence_var app)
                  (List.length (f :: files)) 0 (f :: files) no_counts fs)
        as [[[x|e] fs'] t]; [|contradiction].
      destruct Hd as (_ & _ & _ & _ & _ & _ & Hb).
      do 2 eexists. split; [reflexivity|]. split; [|split; [|split]].
      * count_norm. cbn [is_box]. rewrite Hb.
        now destruct (0 <? error_count (counts x))%nat.
      * rewrite app_assoc, last_app_nonempty by discriminate. reflexivity.
      * intros msg Hin. apply in_app_or in Hin as [Hin|Hin].
        { repeat (destruct Hin as [Hin|Hin]; [discriminate|]). exact Hin. }
        apply in_app_or in Hin as [Hin|Hin].
        { exact (in_count is_box _ _ Hin eq_refl Hb). }
        destruct (0 <? error_count (counts x))%nat;
          repeat (destruct Hin as [Hin|Hin]; [discriminate|]); exact Hin.
      * split; [discriminate|]. intros _ H. rewrite Hfind in H. discriminate.
  - do 2 eexists. split; [reflexivity|]. split; [reflexivity|]. split; [reflexivity|].
    split; [intros msg [H|[H|[]]]; discriminate|].
    split; [auto | discriminate].
Qed.

(** X13. When FFmpeg is available and the scan finds files, the thread
    ends with the summary whatever happened in the loop, a cancellation
    included: the "COMPLETE" line, the counters, and one message box: the
    warning "Complete with Errors" when at least one job was an error,
    else "Successfully converted N file(s)!", N being the number of jobs
    with the status "success".  A cancelled run logs "Cancelled" and then
    this same summary. *)
Theorem summary_follows_the_loop :
  forall (running : nat -> bool) (fs : FS) (f : string) (files : list string),
    ffmpeg_available app = true ->
    find_caf_files (selected_directory app) fs = (Ret (f :: files), fs, []) ->
    exists x fs' t pre,
      conversion_loop app running (bit_depth_var app) (trim_silence_var app)
        (List.length (f :: files)) 0 (f :: files) no_counts fs = (Ret x, fs', t)
      /\ conversion_thread app running fs
         = (Ret tt, fs',
            pre ++ t
            ++ [Log (NL ++ repeat_str "=" 60); Log "✓ COMPLETE";
                Log (counts_line (counts x)); ProgressLabel "Complete!";
                if (0 <? kind_count Errored (jobs x))%nat then
                  MessageBox ShowWarning "Complete with Errors"
                    ("Converted: " ++ str_of_nat (kind_count Success (jobs x)) ++ NL
                     ++ "Errors: " ++ str_of_nat (kind_count Errored (jobs x)) ++ NL ++ NL
                     ++ "Check log for details.")
                else
                  MessageBox ShowInfo "Complete"
                    ("Successfully converted " ++ str_of_nat (kind_count Success (jobs x))
                     ++ " file(s)!");
                ButtonReset "START CONVERSION"])%list
      /\ In (ProgressMaximum (List.length (f :: files))) pre
      /\ (cancelled x = true ->
          exists t1, t = (t1 ++ [PollRunning false; Log (NL ++ "❌ Cancelled" ++ NL)])%list).
Proof.
  intros running fs f files Hff Hfind.
  rewrite (conversion_thread_run running fs _ Hfind), Hff. cbv zeta.
  destruct (caf_scan_finds (selected_directory app) fs) as (files' & Hfind' & Hne).
  rewrite Hfind in Hfind'. injection Hfind' as <-.
  pose proof (conversion_loop_display running (bit_depth_var app) (trim_silence_var app)
                (List.length (f :: files)) (f :: files) 0 no_counts fs) as Hd.
  pose proof (conversion_loop_shape app running (bit_depth_var app)
                (trim_silence_var app) (List.length (f :: files)) (f :: files)
                0 no_counts fs) as Hs.
  destruct (conversion_loop app running (bit_depth_var app) (trim_silence_var app)
              (List.length (f :: files)) 0 (f :: files) no_counts fs)
    as [[[x|e] fs'] t]; [|contradiction].
  destruct Hd as (H1 & _ & H3 & _). cbn [no_counts converted_count error_count] in H1, H3.
  cbv zeta in Hs. destruct Hs as (_ & _ & _ & _ & Hend & _).
  exists x, fs', t. eexists. split; [reflexivity|].
  rewrite H1, H3, !Nat.add_0_l. split; [reflexivity|]. split; [cbn; auto 10|].
  intros Hc. rewrite Hc in Hend. tauto.
Qed.

End CafGuiRuns.

(* ================================================================== *)
(** * The bit-depth converter, continued *)
(* ================================================================== *)

Section WavDepthRuns.
Context {os : OS}.
Variable app : WavDepth.App.
Import WavDepth.

Lemma convert_file_display (input output : string) (bits : Z) (fs : FS) :
  exists ok fs' tr,
    convert_file input output bits fs = (Ret ok, fs', tr)
    /\ progress_values tr = []
    /\ count is_read tr = 1 /\ count is_write tr <= 1
    /\ count is_info tr = 0
    /\ forallb job_event tr = true.
Proof.
  rewrite convert_file_run. cbv zeta.
  destruct (sf_read input fs) as [data|e]; [|do 3 eexists; repeat split; cbn; lia].
  destruct (target_subtype bits) as [subtype|]; [|do 3 eexists; repeat split; cbn; lia].
  destruct (makedirs _ fs) as [[e|] fs1]; [do 3 eexists; repeat split; cbn; lia|].
  destruct (sf_write _ _ _ fs1) as [[e|] fs2]; do 3 eexists; repeat split; cbn; lia.
Qed.

Lemma convert_to_display (f name dir : string) (bits : Z) (sub label : string)
    (n : nat) (fs : FS) :
  exists ok fs' tr,
    convert_to f name dir bits sub label n fs
    = (Ret (n + 1,
            [{| job_source := f; job_destination := join2 (join2 dir sub) name;
                job_bits := bits; job_ok := ok |}]), fs', tr)
    /\ progress_values tr = [n + 1]
    /\ count is_read tr = 1 /\ count is_write tr <= 1
    /\ count is_info tr = 0
    /\ forallb job_event tr = true.
Proof.
  unfold convert_to, log. run_monad.
  destruct (convert_file_display f (join2 (join2 dir sub) name) bits fs)
    as (ok & fs' & tr & -> & Hp & Hr & Hw & Hi & He).
  destruct ok; [exists true | exists false]; exists fs'; eexists;
    (split; [reflexivity|]); cbn [List.app]; rewrite ?app_nil_r;
    change (ProgressLabel ?x :: ?t) with ([ProgressLabel x] ++ t)%list;
    rewrite !progress_values_app, !forallb_app, Hp, He; count_norm;
    cbn [is_info]; rewrite Hr, Hi; cbn; repeat split; lia.
Qed.

(** The loop of [process_files], whatever the collaborators do. *)
Lemma process_loop_display (folder : string) (files : list string) :
  ~ In "" files ->
  forall (n : nat) (fs : FS),
  exists js fs' tr,
    process_loop app folder files n fs = (Ret js, fs', tr)
    /\ map job_plan js = flat_map (targets app) files
    /\ List.length js = List.length files * selected_depths app
    /\ progress_values tr = seq (n + 1) (List.length js)
    /\ count is_read tr = List.length js
    /\ count is_write tr <= List.length js
    /\ count is_info tr = 0
    /\ forallb job_event tr = true.
Proof.
  unfold selected_depths.
  induction files as [|f rest IH]; intros Hne n fs.
  - do 3 eexists. repeat split. cbn. lia.
  - cbn [process_loop]. unfold log. run_monad.
    destruct (relpath getcwd f folder) as [rel|] eqn:Erel.
    2:{ apply relpath_none in Erel. subst. exfalso. apply Hne. now left. }
    cbv beta iota. cbn [flat_map]. unfold targets at 1, output_path_of.
    assert (Hrest : ~ In "" rest) by (intros H; apply Hne; now right).
    destruct (convert_to_24bit app), (convert_to_16bit app).
    + destruct (convert_to_display f (basename f) (dirname f) 24 "24bit" "24-bit" n fs)
        as (ok1 & fs1 & t1 & -> & Hp1 & Hr1 & Hw1 & Hi1 & He1).
      destruct (convert_to_display f (basename f) (dirname f) 16 "16bit" "16-bit" (n + 1) fs1)
        as (ok2 & fs2 & t2 & -> & Hp2 & Hr2 & Hw2 & Hi2 & He2).
      destruct (IH Hrest (n + 1 + 1) fs2)
        as (js & fs3 & t3 & -> & Hj & Hl & Hp3 & Hr3 & Hw3 & Hi3 & He3).
      do 3 eexists. split; [reflexivity|]. cbn [List.app map job_plan
        job_source job_destination job_bits List.length]. rewrite Hj.
      split; [reflexivity|]. split; [lia|]. rewrite ?app_nil_r.
      change (Log ?x :: ?t) with ([Log x] ++ t)%list.
      rewrite !progress_values_app, !forallb_app, Hp1, Hp2, Hp3, He1, He2, He3. count_norm.
      cbn [is_info]. rewrite Hr1, Hr2, Hr3, Hi1, Hi2, Hi3.
      cbn [progress_values flat_map List.app]. rewrite !seq_next. repeat split; cbn; lia.
    + destruct (convert_to_display f (basename f) (dirname f) 24 "24bit" "24-bit" n fs)
        as (ok1 & fs1 & t1 & -> & Hp1 & Hr1 & Hw1 & Hi1 & He1).
      destruct (IH Hrest (n + 1) fs1)
        as (js & fs3 & t3 & -> & Hj & Hl & Hp3 & Hr3 & Hw3 & Hi3 & He3).
      do 3 eexists. split; [reflexivity|]. cbn [List.app map job_plan
        job_source job_destination job_bits List.length]. rewrite Hj.
      split; [reflexivity|]. split; [lia|]. rewrite ?app_nil_r.
      change (Log ?x :: ?t) with ([Log x] ++ t)%list.
      rewrite !progress_values_app, !forallb_app, Hp1, Hp3, He1, He3. count_norm.
      cbn [is_info]. rewrite Hr1, Hr3, Hi1, Hi3.
      cbn [progress_values flat_map List.app]. rewrite !seq_next. repeat split; cbn; lia.
    + destruct (convert_to_display f (basename f) (dirname f) 16 "16bit" "16-bit" n fs)
        as (ok2 & fs2 & t2 & -> & Hp2 & Hr2 & Hw2 & Hi2 & He2).
      destruct (IH Hrest (n + 1) fs2)
        as (js & fs3 & t3 & -> & Hj & Hl & Hp3 & Hr3 & Hw3 & Hi3 & He3).
      do 3 eexists. split; [reflexivity|]. cbn [List.app map job_plan
        job_source job_destination job_bits List.length]. rewrite Hj.
      split; [reflexivity|]. split; [lia|]. rewrite ?app_nil_r.
      change (Log ?x :: ?t) with ([Log x] ++ t)%list.
      rewrite !progress_values_app, !forallb_app, Hp2, Hp3, He2, He3. count_norm.
      cbn [is_info]. rewrite Hr2, Hr3, Hi2, Hi3.
      cbn [progress_values flat_map List.app]. rewrite !seq_next. repeat split; cbn; lia.
    + destruct (IH Hrest n fs)
        as (js & fs3 & t3 & -> & Hj & Hl & Hp3 & Hr3 & Hw3 & Hi3 & He3).
      do 3 eexists. split; [reflexivity|]. cbn [List.app map].
      split; [exact Hj|]. split; [cbn [List.length]; lia|]. rewrite ?app_nil_r.
      change (Log ?x :: ?t) with ([Log x] ++ t)%list.
      rewrite !progress_values_app, !forallb_app, Hp3, He3. count_norm.
      cbn [is_info]. rewrite Hr3, Hi3. repeat split; cbn; lia.
Qed.

Lemma filter_32bit_display (files : list string) (fs : FS) :
  exists scan,
    filter_32bit files fs
    = (Ret (filter (fun f => (depth_at fs f =? 32)%nat) files), fs, scan)
    /\ progress_values scan = []
    /\ count is_read scan = 0 /\ count is_write scan = 0
    /\ count is_info scan = List.length files
    /\ forallb job_event scan = true.
Proof.
  induction files as [|f files (scan & IH & Hp & Hr & Hw & Hi & He)].
  - exists []. repeat split.
  - cbn [filter_32bit filter]. unfold bind at 1. rewrite get_bit_depth_run.
    unfold depth_at at 1.
    destruct (sf_info f fs) as [subtype|e]; unfold bind, ret; rewrite IH;
      eexists; (split; [now rewrite app_nil_r|]);
      cbn [List.app]; rewrite ?app_nil_r;
      change (CallInfo ?x :: ?t) with ([CallInfo x] ++ t)%list;
      change (Log ?x :: ?t) with ([Log x] ++ t)%list;
      rewrite !progress_values_app, !forallb_app, Hp, He; count_norm;
      cbn [is_info]; rewrite Hr, Hw, Hi; cbn; repeat split; lia.
Qed.

Lemma filter_keeps_nonempty (p : string -> bool) (files : list string) :
  ~ In "" files -> ~ In "" (filter p files).
Proof. intros H Hin. apply filter_In in Hin as [Hin _]. contradiction. Qed.

(** [process_files] once the scan has returned. *)
Lemma process_files_run (fs : FS) (files : list string) :
  find_wav_files (folder_path app) (include_subdirs app) fs = (Ret files, fs, []) ->
  ~ In "" files ->
  let files32 := filter (fun f => (depth_at fs f =? 32)%nat) files in
  let reset := ButtonReset "Start Conversion" in
  exists scan js fs' t,
    (progress_values scan = [] /\ count is_read scan = 0 /\ count is_write scan = 0
     /\ count is_info scan = List.length files /\ forallb job_event scan = true)
    /\ (map job_plan js = flat_map (targets app) files32
        /\ List.length js = List.length files32 * selected_depths app
        /\ progress_values t = seq 1 (List.length js)
        /\ count is_read t = List.length js /\ count is_write t <= List.length js
        /\ count is_info t = 0 /\ forallb job_event t = true)
    /\ process_files app fs
       = (Ret js, fs',
          [Log ("Scanning folder: " ++ folder_path app);
           Log ("Include subdirectories: "
                ++ (if include_subdirs app then "True" else "False"));
           Log (repeat_str "-" 50);
           Log ("Found " ++ str_of_nat (List.length files) ++ " WAV files")]
          ++ match files with
             | [] =>
                 [Log "No WAV files found!";
                  MessageBox ShowInfo "Info" "No WAV files found in the selected folder";
                  reset]
             | _ :: _ =>
                 scan
                 ++ [Log ("Found " ++ str_of_nat (List.length files32)
                          ++ " 32-bit WAV files to convert");
                     Log (repeat_str "-" 50)]
                 ++ match files32 with
                    | [] =>
                        [Log "No 32-bit WAV files found!";
                         MessageBox ShowInfo "Info" "No 32-bit WAV files found to convert";
                         reset]
                    | _ :: _ =>
                        [ProgressMaximum (List.length files32 * selected_depths app)]
                        ++ t
                        ++ [Log (repeat_str "-" 50);
                            Log ("Conversion complete! Processed "
                                 ++ str_of_nat (List.length files32) ++ " files");
                            ProgressLabel "Conversion complete!";
                            MessageBox ShowInfo "Success"
                              ("Successfully processed "
                               ++ str_of_nat (List.length files32)
                               ++ " files!" ++ NL ++ "Check the log for details.");
                            reset]
                    end
             end)%list.
Proof.
  intros Hfind Hne files32 reset.
  destruct (filter_32bit_display files fs) as (scan & Hscan & Hp & Hr & Hw & Hi & He).
  fold files32 in Hscan. exists scan.
  assert (Hne32 : ~ In "" files32) by now apply filter_keeps_nonempty.
  unfold process_files, log. run_monad. rewrite Hfind. cbv beta iota.
  destruct files as [|f0 rest].
  { exists [], fs, []. split; [tauto|]. split; [repeat split; cbn; lia|]. reflexivity. }
  rewrite Hscan. cbv beta iota.
  destruct files32 as [|g0 rest32] eqn:E32.
  { exists [], fs, []. split; [tauto|]. split; [repeat split; cbn; lia|].
    cbn [List.app]. rewrite ?app_nil_r, <- ?app_assoc. reflexivity. }
  destruct (process_loop_display (folder_path app) (g0 :: rest32) Hne32 0 fs)
    as (js & fs' & t & Hloop & Hj & Hl & Hpt & Hrt & Hwt & Hit & Het).
  exists js, fs', t. split; [tauto|]. split; [tauto|].
  rewrite Hloop. cbv beta iota. unfold selected_depths.
  cbn [List.app]. rewrite ?app_nil_r, <- ?app_assoc.
  cbn [List.app]. rewrite <- ?app_assoc. reflexivity.
Qed.

Lemma process_files_scan_error (fs : FS) (e : string) :
  find_wav_files (folder_path app) (include_subdirs app) fs = (Raise e, fs, []) ->
  process_files app fs
  = (Ret [], fs,
     [Log ("Scanning folder: " ++ folder_path app);
      Log ("Include subdirectories: " ++ (if include_subdirs app then "True" else "False"));
      Log (repeat_str "-" 50);
      Log ("Error during processing: " ++ e);
      MessageBox ShowError "Error" ("An error occurred: " ++ e);
      ButtonReset "Start Conversion"]).
Proof.
  intros Hfind. unfold process_files, log. run_monad. now rewrite Hfind.
Qed.

(** X14. [process_files] always ends: it never raises, shows exactly one
    message box, and its last act is to reset the button.  It reads no
    cancellation flag and runs no subprocess.  The handler of unexpected
    exceptions is entered only when [os.listdir] raises on the folder
    (sub-directories not included): the run then logs "Error during
    processing", shows the error and converts nothing. *)
Theorem process_files_always_finishes :
  forall (fs : FS),
  exists js fs' tr,
    process_files app fs = (Ret js, fs', tr)
    /\ count is_box tr = 1
    /\ last tr (Log "") = ButtonReset "Start Conversion"
    /\ count is_poll tr = 0
    /\ count is_run tr = 0
    /\ (forall e,
          include_subdirs app = false -> listdir (folder_path app) fs = Raise e ->
          js = [] /\ fs' = fs
          /\ tr = [Log ("Scanning folder: " ++ folder_path app);
                   Log "Include subdirectories: False";
                   Log (repeat_str "-" 50);
                   Log ("Error during processing: " ++ e);
                   MessageBox ShowError "Error" ("An error occurred: " ++ e);
                   ButtonReset "Start Conversion"])
    /\ (forall title msg,
          In (MessageBox ShowError title msg) tr ->
          include_subdirs app = false
          /\ exists e, listdir (folder_path app) fs = Raise e).
Proof.
  intros fs.
  destruct (wav_scan_finds (folder_path app) (include_subdirs app) fs)
    as [(files & Hfind & Hne)|(e & Hfind & Hsub & Hl)].
  - destruct (process_files_run fs files Hfind Hne)
      as (scan & js & fs' & t & (_ & _ & _ & _ & Hs) & (_ & _ & _ & _ & _ & _ & Hjt) & ->).
    destruct (job_events_counts scan Hs) as (Sb & Se & Sp & Sr & _).
    destruct (job_events_counts t Hjt) as (Tb & Te & Tp & Tr & _).
    assert (Herr : forall e,
               include_subdirs app = false -> listdir (folder_path app) fs = Raise e ->
               False).
    { intros e Hsub Hl. revert Hfind. rewrite Hsub. unfold find_wav_files. run_monad.
      rewrite Hl. discriminate. }
    exists js, fs'. eexists. split; [reflexivity|].
    destruct files as [|f0 rest];
      [|destruct (filter _ (f0 :: rest)) as [|g0 rest32]];
      (split; [count_norm; cbn [is_box]; rewrite ?Sb, ?Tb; reflexivity|]);
      (split; [rewrite ?app_assoc; rewrite last_app_nonempty by discriminate;
               reflexivity|]);
      (split; [count_norm; rewrite ?Sp, ?Tp; reflexivity|]);
      (split; [count_norm; rewrite ?Sr, ?Tr; reflexivity|]);
      (split; [intros e Hsub Hl; destruct (Herr e Hsub Hl)|]);
      intros title msg Hin; exfalso;
      refine (in_count is_error_box _ _ Hin eq_refl _);
      count_norm; cbn [is_error_box]; rewrite ?Se, ?Te; reflexivity.
  - rewrite (process_files_scan_error fs e Hfind), Hsub.
    do 3 eexists. split; [reflexivity|]. split; [reflexivity|]. split; [reflexivity|].
    split; [reflexivity|]. split; [reflexivity|]. split.
    + intros e' _ Hl'. rewrite Hl in Hl'. injection Hl' as <-. auto.
    + intros title msg _. split; [reflexivity | now exists e].
Qed.

(** X15. Whatever the scan returns, [process_files] converts exactly the
    files found to be 32-bit, each to every selected bit depth, the 24-bit
    conversion first, in the order of the scan; every header is examined
    once, and every conversion reads its input once.  Files of another
    bit depth, or whose header cannot be read, yield no job. *)
Theorem each_32bit_file_is_converted_to_each_selected_depth :
  forall (fs : FS) (files : list string),
    find_wav_files (folder_path app) (include_subdirs app) fs = (Ret files, fs, []) ->
    exists js fs' tr,
      process_files app fs = (Ret js, fs', tr)
      /\ map job_plan js
         = flat_map (targets app) (filter (fun f => (depth_at fs f =? 32)%nat) files)
      /\ List.length js
         = List.length (filter (fun f => (depth_at fs f =? 32)%nat) files)
           * selected_depths app
      /\ count is_info tr = List.length files
      /\ count is_read tr = List.length js
      /\ count is_write tr <= List.length js.
Proof.
  intros fs files Hfind.
  assert (Hne : ~ In "" files).
  { destruct (wav_scan_finds (folder_path app) (include_subdirs app) fs)
      as [(files' & E & Hne)|(e & E & _)];
      rewrite Hfind in E; [now injection E as <- | discriminate]. }
  destruct (process_files_run fs files Hfind Hne)
    as (scan & js & fs' & t & (_ & Hr & Hw & Hi & _) & (Hj & Hl & _ & Hrt & Hwt & Hit & _) & ->).
  exists js, fs'. eexists. split; [reflexivity|]. split; [exact Hj|]. split; [exact Hl|].
  destruct files as [|f0 rest]; [destruct js; [repeat split; cbn; lia | discriminate]|].
  destruct (filter _ (f0 :: rest)) as [|g0 rest32].
  - destruct js; [|discriminate]. count_norm. cbn [is_info]. rewrite Hr, Hw, Hi. cbn. lia.
  - count_norm. cbn [is_info]. rewrite Hr, Hw, Hi, Hrt, Hit. cbn [List.length]. lia.
Qed.

(** X16. The progress bar of the bit-depth converter ends exactly full:
    in every run its value is set to 1, 2, ... up to the number of
    conversions attempted, and whenever it is given a maximum (at most
    once), that maximum is this number. *)
Theorem progress_bar_ends_full :
  forall (fs : FS),
  exists js fs' tr,
    process_files app fs = (Ret js, fs', tr)
    /\ progress_values tr = seq 1 (List.length js)
    /\ count is_maximum tr <= 1
    /\ (forall m, In (ProgressMaximum m) tr -> m = List.length js).
Proof.
  intros fs.
  destruct (wav_scan_finds (folder_path app) (include_subdirs app) fs)
    as [(files & Hfind & Hne)|(e & Hfind & _)].
  - destruct (process_files_run fs files Hfind Hne)
      as (scan & js & fs' & t & (Hp & _ & _ & _ & Hs) & (_ & Hl & Hpt & _ & _ & _ & Hjt) & ->).
    destruct (job_events_counts scan Hs) as (_ & _ & _ & _ & Sm).
    destruct (job_events_counts t Hjt) as (_ & _ & _ & _ & Tm).
    exists js, fs'. eexists. split; [reflexivity|].
    destruct files as [|f0 rest].
    { destruct js; [|discriminate]. split; [reflexivity|]. split; [cbn; lia|].
      intros m Hin. repeat (destruct Hin as [Hin|Hin]; [discriminate|]). destruct Hin. }
    destruct (filter _ (f0 :: rest)) as [|g0 rest32].
    + destruct js; [|discriminate]. rewrite !progress_values_app, Hp.
      split; [reflexivity|].
      split; [count_norm; cbn [is_maximum]; rewrite Sm; cbn; lia|].
      intros m Hin. exfalso. refine (in_count is_maximum _ _ Hin eq_refl _).
      count_norm. cbn [is_maximum]. rewrite Sm. reflexivity.
    + rewrite !progress_values_app, Hp, Hpt.
      split; [cbn [progress_values flat_map List.app]; now rewrite app_nil_r|].
      split; [count_norm; cbn [is_maximum]; rewrite Sm, Tm; cbn; lia|].
      intros m Hin. apply in_app_or in Hin as [Hin|Hin].
      { repeat (destruct Hin as [Hin|Hin]; [discriminate|]). destruct Hin. }
      apply in_app_or in Hin as [Hin|Hin].
      { exfalso. exact (in_count is_maximum _ _ Hin eq_refl Sm). }
      apply in_app_or in Hin as [Hin|Hin].
      { repeat (destruct Hin as [Hin|Hin]; [discriminate|]). destruct Hin. }
      apply in_app_or in Hin as [Hin|Hin].
      { destruct Hin as [[= <-]|[]]. now rewrite Hl. }
      apply in_app_or in Hin as [Hin|Hin].
      { exfalso. exact (in_count is_maximum _ _ Hin eq_refl Tm). }
      repeat (destruct Hin as [Hin|Hin]; [discriminate|]). destruct Hin.
  - rewrite (process_files_scan_error fs e Hfind).
    do 3 eexists. split; [reflexivity|]. split; [reflexivity|]. split; [cbn; lia|].
    intros m Hin. repeat (destruct Hin as [Hin|Hin]; [discriminate|]). destruct Hin.
Qed.

End WavDepthRuns.

(* ================================================================== *)
(** * The command-line converter *)
(* ================================================================== *)

Section CliRuns.
Context {os : OS}.
Import CafCli.

Lemma cli_convert_run (caf : PurePath.t) (fs : FS) :
  convert_caf_to_wav caf (out_path_of caf) fs
  = let d := PurePath.to_str (PurePath.parent (out_path_of caf)) in
    match makedirs d fs with
    | (Some e, fs1) => (Raise e, fs1, [CallMakedirs d])
    | (None, fs1) =>
        match subprocess_run (cli_cmd caf) fs1 with
        | (RunRaised e, fs2) => (Raise e, fs2, [CallMakedirs d; CallRun (cli_cmd caf)])
        | (Completed rc err, fs2) =>
            (Ret (rc =? 0)%Z, fs2,
             [CallMakedirs d; CallRun (cli_cmd caf);
              Log (if (rc =? 0)%Z
                   then "✓ Converted: " ++ PurePath.to_str caf ++ " → "
                        ++ PurePath.to_str (out_path_of caf)
                   else "✗ Failed: " ++ PurePath.to_str caf ++ NL ++ err)])
        end
    end.
Proof.
  unfold convert_caf_to_wav, print, cli_cmd. run_monad.
  destruct (makedirs _ fs) as [[e|] fs1]; [reflexivity|]. cbv beta iota.
  destruct (subprocess_run _ fs1) as [[rc err|e] fs2]; [|reflexivity].
  cbv beta iota. destruct (rc =? 0)%Z; reflexivity.
Qed.

(** The loop of [main], whatever the collaborators do: it is left early
    only by an exception of [mkdir] or of [subprocess.run]. *)
Lemma convert_all_shape (caf_files : list PurePath.t) :
  forall (fs : FS),
    match convert_all caf_files fs with
    | (Ret _, _, tr) =>
        run_cmds tr = map cli_cmd caf_files
        /\ count is_log tr = List.length caf_files
        /\ ~ In (Log (NL ++ "Conversion complete!")) tr
    | (Raise e, _, tr) =>
        (exists n caf fs0,
            nth_error caf_files n = Some caf
            /\ count is_log tr = n
            /\ ((fst (makedirs (PurePath.to_str (PurePath.parent (out_path_of caf))) fs0)
                 = Some e
                 /\ run_cmds tr = map cli_cmd (firstn n caf_files))
                \/ (fst (subprocess_run (cli_cmd caf) fs0) = RunRaised e
                    /\ run_cmds tr = map cli_cmd (firstn (S n) caf_files))))
        /\ ~ In (Log (NL ++ "Conversion complete!")) tr
    end.
Proof.
  induction caf_files as [|caf rest IH]; intros fs; [cbn; tauto|].
  cbn [convert_all]. unfold bind at 1. rewrite cli_convert_run. cbv zeta.
  destruct (makedirs _ fs) as [[e|] fs1] eqn:Emk.
  { split.
    - exists 0, caf, fs. split; [reflexivity|]. split; [reflexivity|].
      left. now rewrite Emk.
    - intros [H|[]]. discriminate. }
  destruct (subprocess_run _ fs1) as [[rc err|e] fs2] eqn:Erun.
  2:{ split.
      - exists 0, caf, fs1. split; [reflexivity|]. split; [reflexivity|].
        right. now rewrite Erun.
      - intros [H|[H|[]]]; discriminate. }
  assert (Hline : forall t,
             ~ In (Log (NL ++ "Conversion complete!")) t ->
             ~ In (Log (NL ++ "Conversion complete!"))
                 ([CallMakedirs (PurePath.to_str (PurePath.parent (out_path_of caf)));
                   CallRun (cli_cmd caf);
                   Log (if (rc =? 0)%Z
                        then "✓ Converted: " ++ PurePath.to_str caf ++ " → "
                             ++ PurePath.to_str (out_path_of caf)
                        else "✗ Failed: " ++ PurePath.to_str caf ++ NL ++ err)] ++ t)).
  { intros t Ht [H|[H|[H|H]]]; try discriminate; [|contradiction].
    destruct (rc =? 0)%Z; discriminate. }
  specialize (IH fs2). destruct (convert_all rest fs2) as [[[u|e] fs3] t].
  - destruct IH as (Hr & Hl & Hc). split; [|split; [|now apply Hline]].
    + cbn [List.app map List.length run_cmds flat_map]. fold (run_cmds t). now rewrite Hr.
    + count_norm. cbn [is_log List.length]. rewrite Hl. lia.
  - destruct IH as ((n & caf' & fs0 & Hn & Hl & Hr) & Hc). split; [|now apply Hline].
    exists (S n), caf', fs0.
    cbn [List.app map List.length run_cmds flat_map firstn nth_error]. fold (run_cmds t).
    count_norm. cbn [is_log]. rewrite Hl. split; [exact Hn|]. split; [lia|].
    destruct Hr as [[Hc1 ->] | [Hc1 ->]]; [left | right]; now split.
Qed.

(** X17. A run of the command-line converter.  On a folder that does not
    exist [main] prints "Folder does not exist." and does nothing else.
    Otherwise it prints the number of files found and runs [ffmpeg], with
    [-y], once for every file found, in order, printing one line per
    file whether the conversion succeeded or failed, and "Conversion
    complete!" at the end.  A non-zero return code of [ffmpeg] never
    stops the batch: when [main] raises, the exception is the one [mkdir]
    or [subprocess.run] itself raised on one of the files found (the
    directory could not be made, [ffmpeg] could not be started); the
    files after that one are not attempted and "Conversion complete!" is
    not printed.  So where neither raises on the files found, whatever
    the return codes, [main] returns normally. *)
Theorem cli_run_reports_every_file :
  forall (line : string) (fs : FS),
    let root := PurePath.parse (strip line) in
    let caf_files := rglob root "*.caf" fs in
    if path_exists (PurePath.to_str root) fs then
      match main line fs with
      | (Ret _, _, tr) =>
          exists jobs,
            tr = ([Log ("Found " ++ str_of_nat (List.length caf_files) ++ " CAF files.")]
                  ++ jobs ++ [Log (NL ++ "Conversion complete!")])%list
            /\ run_cmds jobs = map cli_cmd caf_files
            /\ count is_log jobs = List.length caf_files
      | (Raise e, _, tr) =>
          exists jobs n caf fs0,
            tr = (Log ("Found " ++ str_of_nat (List.length caf_files) ++ " CAF files.")
                  :: jobs)
            /\ nth_error caf_files n = Some caf
            /\ count is_log jobs = n
            /\ ((fst (makedirs (PurePath.to_str (PurePath.parent (out_path_of caf))) fs0)
                 = Some e
                 /\ run_cmds jobs = map cli_cmd (firstn n caf_files))
                \/ (fst (subprocess_run (cli_cmd caf) fs0) = RunRaised e
                    /\ run_cmds jobs = map cli_cmd (firstn (S n) caf_files)))
            /\ ~ In (Log (NL ++ "Conversion complete!")) tr
      end
      /\ ((forall caf fs0,
              In caf caf_files ->
              fst (makedirs (PurePath.to_str (PurePath.parent (out_path_of caf))) fs0) = None
              /\ exists rc err, fst (subprocess_run (cli_cmd caf) fs0) = Completed rc err) ->
          exists fs' tr, main line fs = (Ret tt, fs', tr))
    else main line fs = (Ret tt, fs, [Log "Folder does not exist."]).
Proof.
  intros line fs root caf_files. unfold main. fold root.
  unfold print. run_monad. destruct (path_exists (PurePath.to_str root) fs); [|reflexivity].
  cbn [negb]. cbv beta iota. fold caf_files.
  pose proof (convert_all_shape caf_files fs) as H.
  destruct (convert_all caf_files fs) as [[[u|e] fs1] t]; cbv beta iota.
  - destruct H as (Hr & Hl & _). split; [|intros _; destruct u; eauto].
    exists t. cbn [List.app]. auto.
  - destruct H as ((n & caf & fs0 & Hn & Hl & Hr) & Hc). split.
    + exists t, n, caf, fs0. cbn [List.app].
      split; [reflexivity|]. split; [exact Hn|]. split; [exact Hl|]. split; [exact Hr|].
      intros [H|H]; [discriminate | contradiction].
    + intros Hok. destruct (Hok caf fs0 (nth_error_In _ _ Hn)) as (Hmk & rc & err & Hrun).
      destruct Hr as [[Hc1 _] | [Hc1 _]]; congruence.
Qed.

(** X18. An answer that is empty, or blank, selects the current
    directory: an answer made of white-space characters only (those of
    [str.isspace], the ones beyond ASCII included) is stripped to the
    empty string, and on every answer that is, [main] behaves as on the
    answer ".". *)
Theorem blank_answer_selects_the_current_directory :
  (forall (ws : list string),
      Forall (fun w => In w spaces) ws -> strip (fold_right append "" ws) = "")
  /\ (forall (line : string) (fs : FS),
        strip line = "" ->
        PurePath.to_str (PurePath.parse (strip line)) = "."
        /\ main line fs = main "." fs).
Proof.
  split; [exact strip_spaces|].
  intros line fs H. unfold main. rewrite H. split; reflexivity.
Qed.

End CliRuns.

(* ================================================================== *)
(** * Destinations, as the programs plan them *)
(* ================================================================== *)

Lemma write_paths_app (a b : list Event) :
  write_paths (a ++ b) = (write_paths a ++ write_paths b)%list.
Proof. apply flat_map_app. Qed.

Section Destinations.
Context {os : OS}.
Variable app : CafGui.App.
Variable depth_app : WavDepth.App.

(** [convert_file] writes nowhere but to its output path. *)
Lemma convert_file_writes (input output : string) (bits : Z) (fs : FS) :
  exists ok fs' tr,
    WavDepth.convert_file input output bits fs = (Ret ok, fs', tr)
    /\ incl (write_paths tr) [output].
Proof.
  rewrite convert_file_run. cbv zeta.
  destruct (sf_read input fs) as [data|e]; [|do 3 eexists; split; [reflexivity | easy]].
  destruct (target_subtype bits) as [subtype|]; [|do 3 eexists; split; [reflexivity | easy]].
  destruct (makedirs _ fs) as [[e|] fs1]; [do 3 eexists; split; [reflexivity | easy]|].
  destruct (sf_write _ _ _ fs1) as [[e|] fs2];
    do 3 eexists; (split; [reflexivity|]); cbn; apply incl_refl.
Qed.

Lemma convert_to_writes (f name dir : string) (bits : Z) (sub label : string)
    (n : nat) (fs : FS) :
  exists ok fs' tr,
    WavDepth.convert_to f name dir bits sub label n fs
    = (Ret (n + 1,
            [{| WavDepth.job_source := f;
                WavDepth.job_destination := join2 (join2 dir sub) name;
                WavDepth.job_bits := bits; WavDepth.job_ok := ok |}]), fs', tr)
    /\ incl (write_paths tr) [join2 (join2 dir sub) name].
Proof.
  unfold WavDepth.convert_to, WavDepth.log. run_monad.
  destruct (convert_file_writes f (join2 (join2 dir sub) name) bits fs)
    as (ok & fs' & tr & -> & Hw).
  destruct ok; [exists true | exists false]; exists fs'; eexists;
    (split; [reflexivity|]); cbn [List.app]; rewrite ?app_nil_r;
    change (ProgressLabel ?x :: ?t) with ([ProgressLabel x] ++ t)%list;
    rewrite !write_paths_app; cbn [write_paths flat_map List.app];
    now rewrite app_nil_r.
Qed.

(** The loop of [process_files]: the jobs are the planned ones, and
    nothing is written but at the destination of a job. *)
Lemma process_loop_writes (folder : string) (files : list string) :
  ~ In "" files ->
  forall (n : nat) (fs : FS),
  exists js fs' tr,
    WavDepth.process_loop depth_app folder files n fs = (Ret js, fs', tr)
    /\ map job_plan js = flat_map (targets depth_app) files
    /\ incl (write_paths tr) (map WavDepth.job_destination js).
Proof.
  induction files as [|f rest IH]; intros Hne n fs.
  - do 3 eexists. repeat split. easy.
  - cbn [WavDepth.process_loop]. unfold WavDepth.log. run_monad.
    destruct (relpath getcwd f folder) as [rel|] eqn:Erel.
    2:{ apply relpath_none in Erel. subst. exfalso. apply Hne. now left. }
    cbv beta iota. cbn [flat_map]. unfold targets at 1, WavDepth.output_path_of.
    assert (Hrest : ~ In "" rest) by (intros H; apply Hne; now right).
    destruct (WavDepth.convert_to_24bit depth_app), (WavDepth.convert_to_16bit depth_app).
    + destruct (convert_to_writes f (basename f) (dirname f) 24 "24bit" "24-bit" n fs)
        as (ok1 & fs1 & t1 & -> & Hw1).
      destruct (convert_to_writes f (basename f) (dirname f) 16 "16bit" "16-bit" (n + 1) fs1)
        as (ok2 & fs2 & t2 & -> & Hw2).
      destruct (IH Hrest (n + 1 + 1) fs2) as (js & fs3 & t3 & -> & Hj & Hw3).
      do 3 eexists. split; [reflexivity|]. cbn [List.app map job_plan
        WavDepth.job_source WavDepth.job_destination WavDepth.job_bits]. rewrite Hj.
      split; [reflexivity|]. rewrite ?app_nil_r.
      change (Log ?x :: ?t) with ([Log x] ++ t)%list.
      rewrite !write_paths_app. cbn [write_paths flat_map List.app].
      intros p Hp. apply in_app_or in Hp as [Hp|Hp].
      * apply Hw1 in Hp as [<-|[]]. now left.
      * apply in_app_or in Hp as [Hp|Hp].
        -- apply Hw2 in Hp as [<-|[]]. right. now left.
        -- right. right. now apply Hw3.
    + destruct (convert_to_writes f (basename f) (dirname f) 24 "24bit" "24-bit" n fs)
        as (ok1 & fs1 & t1 & -> & Hw1).
      destruct (IH Hrest (n + 1) fs1) as (js & fs3 & t3 & -> & Hj & Hw3).
      do 3 eexists. split; [reflexivity|]. cbn [List.app map job_plan
        WavDepth.job_source WavDepth.job_destination WavDepth.job_bits]. rewrite Hj.
      split; [reflexivity|]. rewrite ?app_nil_r.
      change (Log ?x :: ?t) with ([Log x] ++ t)%list.
      rewrite !write_paths_app. cbn [write_paths flat_map List.app].
      intros p Hp. apply in_app_or in Hp as [Hp|Hp].
      * apply Hw1 in Hp as [<-|[]]. now left.
      * right. now apply Hw3.
    + destruct (convert_to_writes f (basename f) (dirname f) 16 "16bit" "16-bit" n fs)
        as (ok2 & fs2 & t2 & -> & Hw2).
      destruct (IH Hrest (n + 1) fs2) as (js & fs3 & t3 & -> & Hj & Hw3).
      do 3 eexists. split; [reflexivity|]. cbn [List.app map job_plan
        WavDepth.job_source WavDepth.job_destination WavDepth.job_bits]. rewrite Hj.
      split; [reflexivity|]. rewrite ?app_nil_r.
      change (Log ?x :: ?t) with ([Log x] ++ t)%list.
      rewrite !write_paths_app. cbn [write_paths flat_map List.app].
      intros p Hp. apply in_app_or in Hp as [Hp|Hp].
      * apply Hw2 in Hp as [<-|[]]. now left.
      * right. now apply Hw3.
    + destruct (IH Hrest n fs) as (js & fs3 & t3 & -> & Hj & Hw3).
      do 3 eexists. split; [reflexivity|]. cbn [List.app map].
      split; [exact Hj|]. rewrite ?app_nil_r. exact Hw3.
Qed.

(** What a job of the CAF converter does with a planned destination: it
    is the last argument of every [ffmpeg] run of the job, and the path
    the result carries, if it carries one. *)
Lemma job_goes_to_the_plan (caf bd : string) (out : option string) (trim : bool)
    (fs fs1 : FS) (wp : string) (t1 : list Event) :
  CafGui.plan_wav_path app caf out fs = (Ret wp, fs1, t1) ->
  exists r fs' t2,
    CafGui.convert_caf_to_wav app caf bd out trim fs = (Ret r, fs', (t1 ++ t2)%list)
    /\ (forall cmd, In (CallRun cmd) t2 -> last cmd "" = wp)
    /\ (forall p, CafGui.wav_path r = Some p -> p = wp).
Proof.
  intros Hplan. rewrite convert_caf_to_wav_run, Hplan.
  destruct (path_exists wp fs1 && negb (CafGui.overwrite_var app)).
  { exists {| CafGui.wav_path := Some wp; CafGui.status := "skipped (already exists)";
              CafGui.info := "" |}, fs1, [].
    rewrite app_nil_r. split; [reflexivity|]. split; [intros cmd []|]. now intros p [= <-]. }
  destruct (negb (CafGui.ffmpeg_available app)).
  { do 2 eexists. exists []. rewrite app_nil_r. split; [reflexivity|].
    split; [intros cmd [] | discriminate]. }
  cbv zeta. destruct (subprocess_run _ fs1) as [[rc err|msg] fs2].
  - do 3 eexists. split; [reflexivity|]. split.
    + intros cmd [[= <-]|[]]. apply last_ffmpeg_cmd.
    + unfold CafGui.ffmpeg_result. destruct (rc =? 0)%Z; [now intros p [= <-]|].
      destruct (contains "already exists" err); discriminate.
  - do 3 eexists. split; [reflexivity|]. split.
    + intros cmd [[= <-]|[]]. apply last_ffmpeg_cmd.
    + discriminate.
Qed.

(** C9. The destination of a job is a function of the source path and the
    settings alone, and it is where the job goes.

    CAF converter.  With an output directory chosen, [convert_caf_to_wav]
    plans the path of the source relative to the selected directory, its
    extension replaced by [.wav], joined to the output directory, and
    makes its directory (for a source with the components [ds] below a
    selected directory [/cs], the relative path is [ds] itself); with
    none chosen, the source path with its extension replaced by [.wav],
    in the directory of the source.  The planned path ends in [.wav], is
    the last argument of the [ffmpeg] run of the job and the path of its
    result, and does not depend on the state of the disk.

    Bit-depth converter.  The loop of [process_files] gives every file
    one job per selected bit depth, to the file's own name in the
    sub-directory [24bit] or [16bit] of its directory, and [sf.write]
    is called on no other path.

    Command-line converter.  Every [ffmpeg] run of the loop of [main] is
    for one of the files found, in order, from the file to the stem
    followed by [.wav] in the sub-directory [32bit_wav] of its parent. *)
Theorem destination_is_planned_from_the_source :
  (forall caf out o rel fs,
      CafGui.chosen out = Some o ->
      relpath getcwd caf (CafGui.selected_directory app) = Some rel ->
      let wp := join2 o (fst (splitext rel) ++ ".wav") in
      match makedirs (dirname wp) fs with
      | (None, fs1) =>
          CafGui.plan_wav_path app caf out fs = (Ret wp, fs1, [CallMakedirs (dirname wp)])
      | (Some e, fs1) =>
          CafGui.plan_wav_path app caf out fs = (Raise e, fs1, [CallMakedirs (dirname wp)])
      end)
  /\ (forall cs ds,
        forallb is_component cs = true -> forallb is_component ds = true -> ds <> [] ->
        CafGui.selected_directory app = rooted cs ->
        relpath getcwd (rooted (cs ++ ds)) (CafGui.selected_directory app)
        = Some (join "/" ds))
  /\ (forall caf out fs,
        CafGui.chosen out = None ->
        CafGui.plan_wav_path app caf out fs = (Ret (fst (splitext caf) ++ ".wav"), fs, [])
        /\ dirname (fst (splitext caf) ++ ".wav") = dirname caf)
  /\ (forall caf bd out trim fs wp fs1 t1,
        CafGui.plan_wav_path app caf out fs = (Ret wp, fs1, t1) ->
        endswith wp ".wav" = true
        /\ (exists r fs' t2,
               CafGui.convert_caf_to_wav app caf bd out trim fs = (Ret r, fs', (t1 ++ t2)%list)
               /\ (forall cmd, In (CallRun cmd) t2 -> last cmd "" = wp)
               /\ (forall p, CafGui.wav_path r = Some p -> p = wp))
        /\ (forall fs2 wp2 fs3 t3,
               CafGui.plan_wav_path app caf out fs2 = (Ret wp2, fs3, t3) -> wp2 = wp))
  /\ (forall folder files n fs,
        ~ In "" files ->
        exists js fs' tr,
          WavDepth.process_loop depth_app folder files n fs = (Ret js, fs', tr)
          /\ map job_plan js = flat_map (targets depth_app) files
          /\ incl (write_paths tr) (map WavDepth.job_destination js))
  /\ (forall wav_file sub,
        sub = "24bit" \/ sub = "16bit" ->
        WavDepth.output_path_of wav_file sub
        = join2 (dirname wav_file) sub ++ "/" ++ basename wav_file
        /\ dirname (WavDepth.output_path_of wav_file sub) = join2 (dirname wav_file) sub
        /\ basename (WavDepth.output_path_of wav_file sub) = basename wav_file)
  /\ (forall caf_files fs,
        exists n,
          n <= List.length caf_files
          /\ run_cmds (snd (CafCli.convert_all caf_files fs))
             = map (fun caf => ["ffmpeg"; "-y"; "-i"; PurePath.to_str caf; "-c:a"; "pcm_f32le";
                                PurePath.to_str (CafCli.out_path_of caf)])
                 (firstn n caf_files)
          /\ (forall u fs', fst (CafCli.convert_all caf_files fs) = (Ret u, fs') ->
              n = List.length caf_files))
  /\ (forall p,
        no_sep (PurePath.name p) = true ->
        CafCli.out_path_of p
        = {| PurePath.root := PurePath.root (PurePath.parent p);
             PurePath.parts :=
               List.app (PurePath.parts (PurePath.parent p))
                 ["32bit_wav"; PurePath.stem p ++ ".wav"] |}).
Proof.
  split; [|split; [|split; [|split; [|split; [|split; [|split]]]]]].
  - intros caf out o rel fs Ho Hrel wp. rewrite plan_wav_path_run, Ho, Hrel. cbv zeta.
    fold wp. unfold CafGui.wav_under. fold wp.
    now destruct (makedirs (dirname wp) fs) as [[e|] fs1].
  - intros cs ds Hcs Hds Hne ->. now apply relpath_below.
  - intros caf out fs Ho. rewrite plan_wav_path_run, Ho. split; [reflexivity|].
    apply dirname_wav_beside.
  - intros caf bd out trim fs wp fs1 t1 Hplan. split; [|split].
    + rewrite plan_wav_path_run in Hplan. destruct (CafGui.chosen out) as [o|].
      * destruct (relpath _ _ _) as [rel|]; [|discriminate].
        cbv zeta in Hplan. destruct (makedirs _ fs) as [[msg|] fs'']; [discriminate|].
        injection Hplan as <- _ _. apply endswith_join2, endswith_app.
      * injection Hplan as <- _ _. apply endswith_app.
    + eapply job_goes_to_the_plan. eassumption.
    + intros fs2 wp2 fs3 t3 Hplan2.
      pose proof (planned_of_plan _ _ _ _ _ _ _ Hplan) as H1.
      pose proof (planned_of_plan _ _ _ _ _ _ _ Hplan2) as H2. congruence.
  - intros folder files n fs Hne. now apply process_loop_writes.
  - intros wav_file sub Hsub.
    assert (Hs : no_sep sub = true /\ sub <> "")
      by (destruct Hsub as [-> | ->]; split; (reflexivity || discriminate)).
    destruct Hs as [Hs Hne]. split; [|split].
    + now apply output_path_shape.
    + now apply dirname_output_path.
    + now apply basename_output_path.
  - intros caf_files fs. pose proof (convert_all_shape caf_files fs) as H.
    destruct (CafCli.convert_all caf_files fs) as [[[u|e] fs1] t]; cbn [fst snd].
    + destruct H as (Hr & _ & _). exists (List.length caf_files).
      rewrite firstn_all. split; [lia|]. split; [exact Hr | reflexivity].
    + destruct H as ((n & caf & fs0 & Hn & _ & Hr) & _).
      assert (Hlt : n < List.length caf_files) by (apply nth_error_Some; congruence).
      destruct Hr as [[_ Hr] | [_ Hr]]; [exists n | exists (S n)];
        (split; [lia|]); (split; [exact Hr | discriminate]).
  - exact out_path_of_shape.
Qed.

End Destinations.

(* ================================================================== *)
(** * The buttons *)
(* ================================================================== *)

Section CafButtonsFacts.
Import CafButtons.

(** X19. The browse handlers keep the whole path and show its end.  A
    dismissed dialog changes nothing.  Otherwise the directory chosen is
    stored as it is, and the label shows it in full when it is shorter
    than 60 characters (50 for the output directory), else three dots
    and its last 57 (47) characters, none of them cut: never more than
    60 (50) characters, counted as [len] counts them, a character of
    several bytes being one.  Clearing the output directory undoes the choice
    of one. *)
Theorem label_shows_the_end_of_a_long_path :
  forall (directory : string) (w : Window),
    (directory = "" ->
     browse_directory directory w = w /\ browse_output_directory directory w = w)
    /\ clear_output_directory (browse_output_directory directory w)
       = clear_output_directory w
    /\ output_directory (clear_output_directory w) = None
    /\ (directory <> "" ->
        let w1 := browse_directory directory w in
        let w2 := browse_output_directory directory w in
        selected_directory w1 = Some directory
        /\ output_directory w2 = Some directory
        /\ len (text (dir_label w1)) <= 60
        /\ len (text (output_dir_label w2)) <= 50
        /\ (len directory < 60 -> text (dir_label w1) = directory)
        /\ (len directory < 50 -> text (output_dir_label w2) = directory)
        /\ (60 <= len directory ->
            exists hidden shown,
              directory = hidden ++ shown /\ len shown = 57
              /\ (forall c r, shown = String c r -> is_continuation c = false)
              /\ text (dir_label w1) = "..." ++ shown)
        /\ (50 <= len directory ->
            exists hidden shown,
              directory = hidden ++ shown /\ len shown = 47
              /\ (forall c r, shown = String c r -> is_continuation c = false)
              /\ text (output_dir_label w2) = "..." ++ shown)).
Proof.
  intros directory w. split; [now intros ->|].
  split; [unfold browse_output_directory; now destruct (truthy directory)|].
  split; [reflexivity|]. intros Hne.
  unfold browse_directory, browse_output_directory.
  assert (Ht : truthy directory = true) by (destruct directory; [contradiction | reflexivity]).
  rewrite Ht. cbv zeta. cbn [selected_directory output_directory dir_label output_dir_label text].
  destruct (display_path_bound 60 directory ltac:(lia)) as (H1 & H2 & H3).
  destruct (display_path_bound 50 directory ltac:(lia)) as (H4 & H5 & H6).
  cbn [Nat.sub] in *. repeat split; assumption.
Qed.

Lemma start_conversion_toggles (w : Window) :
  CafGui.chosen (selected_directory w) <> None ->
  exists w1,
    start_conversion w = (w1, [], negb (conversion_running w))
    /\ conversion_running w1 = negb (conversion_running w)
    /\ selected_directory w1 = selected_directory w
    /\ output_directory w1 = output_directory w
    /\ log_text w1 = (if conversion_running w then log_text w else []).
Proof.
  intros Hd. unfold start_conversion.
  destruct (CafGui.chosen (selected_directory w)); [|contradiction].
  destruct (conversion_running w); eexists; repeat split.
Qed.

Lemma half_of_successor (n : nat) :
  S n / 2 = (if Nat.odd n then S (n / 2) else n / 2)
  /\ (n + 1) / 2 = (if Nat.odd n then S (n / 2) else n / 2)
  /\ (S n + 1) / 2 = S (n / 2).
Proof.
  rewrite Nat.add_1_r. replace (S n + 1) with (n + 1 * 2) by lia.
  rewrite Nat.div_add by lia.
  pose proof (Nat.div_mod_eq n 2) as Hn. pose proof (Nat.div_mod_eq (S n) 2) as Hn'.
  pose proof (Nat.mod_upper_bound n 2) as Hb. pose proof (Nat.mod_upper_bound (S n) 2) as Hb'.
  destruct (Nat.odd n) eqn:Ho.
  - apply Nat.odd_spec in Ho as [k Hk]. repeat split; lia.
  - apply Bool.negb_true_iff in Ho. rewrite Nat.negb_odd in Ho.
    apply Nat.even_spec in Ho as [k Hk]. repeat split; lia.
Qed.

Lemma caf_presses_count (n : nat) :
  forall (w : Window),
    CafGui.chosen (selected_directory w) <> None ->
    conversion_running (fst (caf_presses n w)) = xorb (conversion_running w) (Nat.odd n)
    /\ snd (caf_presses n w)
       = (if conversion_running w then n / 2 else (n + 1) / 2)
    /\ selected_directory (fst (caf_presses n w)) = selected_directory w.
Proof.
  induction n as [|n IH]; intros w Hd.
  - cbn [caf_presses fst snd Nat.odd]. rewrite xorb_false_r.
    repeat split. now destruct (conversion_running w).
  - cbn [caf_presses]. destruct (start_conversion_toggles w Hd) as (w1 & -> & Hr & Hs & _).
    assert (Hd1 : CafGui.chosen (selected_directory w1) <> None) by now rewrite Hs.
    destruct (IH w1 Hd1) as (H1 & H2 & H3).
    destruct (caf_presses n w1) as [w2 m]. cbn [fst snd] in *.
    rewrite H1, H2, H3, Hr, Hs, Nat.odd_succ, <- Nat.negb_odd.
    destruct (half_of_successor n) as (Hd2 & Hd3 & Hd4). rewrite Hd2, Hd3, Hd4.
    destruct (conversion_running w), (Nat.odd n); repeat split; cbn; lia.
Qed.

(** X20. The button of the CAF converter toggles.  Without a directory
    selected a press only shows a warning.  With one, a press while no
    conversion runs clears the log, sets the flag and starts a worker; a
    press while one runs clears the flag and starts nothing.  So after
    [n] presses, no worker ending in between, the flag is set exactly when
    [n] is odd and half of the presses (rounded up) started a worker: a
    cancel followed by a start before the first worker has polled the flag
    leaves that worker running beside the new one. *)
Theorem button_toggles_between_start_and_cancel :
  forall (w : Window),
    (CafGui.chosen (selected_directory w) = None ->
     start_conversion w
     = (w, [MessageBox ShowWarning "No Directory"
              "Please select a directory containing CAF files."], false))
    /\ (CafGui.chosen (selected_directory w) <> None ->
        (exists w1,
            start_conversion w = (w1, [], negb (conversion_running w))
            /\ conversion_running w1 = negb (conversion_running w)
            /\ log_text w1 = (if conversion_running w then log_text w else []))
        /\ forall n,
             conversion_running (fst (caf_presses n w))
             = xorb (conversion_running w) (Nat.odd n)
             /\ snd (caf_presses n w)
                = (if conversion_running w then n / 2 else (n + 1) / 2)).
Proof.
  intros w. split.
  - intros Hd. unfold start_conversion. now rewrite Hd.
  - intros Hd. split.
    + destruct (start_conversion_toggles w Hd) as (w1 & E & Hr & _ & _ & Hl). eauto.
    + intros n. destruct (caf_presses_count n w Hd) as (H1 & H2 & _). auto.
Qed.

End CafButtonsFacts.

Section WavButtonsFacts.
Context {os : OS}.
Variable app : WavDepth.App.
Import WavDepth WavButtons.

Lemma validate_inputs_run (fs : FS) :
  validate_inputs app fs
  = if negb (truthy (folder_path app)) then
      (Ret false, fs, [MessageBox ShowError "Error" "Please select a source folder"])
    else if negb (path_exists (folder_path app) fs) then
      (Ret false, fs, [MessageBox ShowError "Error" "Selected folder does not exist"])
    else if negb (convert_to_24bit app) && negb (convert_to_16bit app) then
      (Ret false, fs,
       [MessageBox ShowError "Error"
          "Please select at least one output bit depth (24-bit or 16-bit)"])
    else (Ret true, fs, []).
Proof.
  unfold validate_inputs. run_monad.
  destruct (negb (truthy (folder_path app))); [reflexivity|].
  destruct (negb (path_exists (folder_path app) fs)); [reflexivity|].
  cbv beta iota. now destruct (negb (convert_to_24bit app) && negb (convert_to_16bit app)).
Qed.

Lemma validate_inputs_spec (fs : FS) :
  exists tr,
    validate_inputs app fs = (Ret (valid_inputs app fs), fs, tr)
    /\ (if valid_inputs app fs then tr = []
        else exists msg,
               tr = [MessageBox ShowError "Error" msg]
               /\ (folder_path app = "" -> msg = "Please select a source folder")
               /\ (folder_path app <> "" -> path_exists (folder_path app) fs = false ->
                   msg = "Selected folder does not exist")
               /\ (folder_path app <> "" -> path_exists (folder_path app) fs = true ->
                   msg = "Please select at least one output bit depth (24-bit or 16-bit)")).
Proof.
  rewrite validate_inputs_run. unfold valid_inputs, truthy.
  destruct (String.eqb_spec (folder_path app) "") as [E|E]; cbn [negb andb].
  { eexists. split; [reflexivity|]. eexists. split; [reflexivity|].
    split; [reflexivity|]. split; intros H; contradiction. }
  destruct (path_exists (folder_path app) fs); cbn [negb andb].
  2:{ eexists. split; [reflexivity|]. eexists. split; [reflexivity|].
      split; [contradiction|]. split; [reflexivity | discriminate]. }
  destruct (convert_to_24bit app), (convert_to_16bit app); cbn [negb andb orb];
    eexists; split; try reflexivity.
  eexists. split; [reflexivity|]. split; [contradiction|]. split; [discriminate | reflexivity].
Qed.

Lemma valid_inputs_spec (fs : FS) :
  valid_inputs app fs = true
  <-> folder_path app <> ""
      /\ path_exists (folder_path app) fs = true
      /\ (convert_to_24bit app = true \/ convert_to_16bit app = true).
Proof.
  unfold valid_inputs, truthy. destruct (String.eqb_spec (folder_path app) "") as [E|E];
    cbn [negb andb].
  - split; [discriminate | tauto].
  - destruct (path_exists (folder_path app) fs); cbn [andb];
      [|split; [discriminate | intros (_ & H & _); discriminate]].
    destruct (convert_to_24bit app), (convert_to_16bit app); cbn [orb];
      split; try tauto; try discriminate.
Qed.

Lemma start_conversion_run (w : Window) (fs : FS) :
  exists tr,
    start_conversion app w fs
    = (Ret (if negb (is_processing w) && valid_inputs app fs
            then ({| is_processing := true; log_text := []; progress_value := 0;
                     progress_label := "Processing...";
                     convert_btn := ("Processing...", false) |}, true)
            else (w, false)), fs, tr)
    /\ (if is_processing w then tr = []
        else if valid_inputs app fs then tr = []
        else exists msg,
               tr = [MessageBox ShowError "Error" msg]
               /\ (folder_path app = "" -> msg = "Please select a source folder")
               /\ (folder_path app <> "" -> path_exists (folder_path app) fs = false ->
                   msg = "Selected folder does not exist")
               /\ (folder_path app <> "" -> path_exists (folder_path app) fs = true ->
                   msg = "Please select at least one output bit depth (24-bit or 16-bit)")).
Proof.
  unfold start_conversion. destruct (is_processing w); [now exists []|].
  unfold bind. destruct (validate_inputs_spec fs) as (tr & -> & Htr).
  destruct (valid_inputs app fs); cbn [negb andb]; unfold ret; eexists;
    (split; [reflexivity|]); rewrite app_nil_r; exact Htr.
Qed.

Lemma presses_when_processing (n : nat) (w : Window) (fs : FS) :
  is_processing w = true -> wav_presses app n w fs = (Ret (w, 0), fs, []).
Proof.
  intros Hp. induction n as [|n IH]; [reflexivity|].
  cbn [wav_presses]. unfold bind at 1. destruct (start_conversion_run w fs) as (tr & -> & Htr).
  rewrite Hp in *. cbn [negb andb]. subst tr. unfold bind, ret. now rewrite IH.
Qed.

Lemma wav_presses_count (n : nat) (fs : FS) :
  forall (w : Window),
  exists w' m tr,
    wav_presses app n w fs = (Ret (w', m), fs, tr)
    /\ m <= 1
    /\ (m = 1 -> is_processing w' = true)
    /\ (is_processing w = true -> m = 0 /\ w' = w /\ tr = []).
Proof.
  induction n as [|n IH]; intros w.
  - do 3 eexists. split; [reflexivity|]. repeat split; (lia || discriminate).
  - cbn [wav_presses]. unfold bind at 1.
    destruct (start_conversion_run w fs) as (tr & -> & Htr).
    destruct (is_processing w) eqn:Hp; cbn [negb andb].
    + subst tr. unfold bind, ret. rewrite (presses_when_processing n w fs Hp).
      do 3 eexists. split; [reflexivity|]. repeat split; (lia || discriminate).
    + destruct (valid_inputs app fs).
      * subst tr. unfold bind, ret. rewrite presses_when_processing by reflexivity.
        do 3 eexists. split; [reflexivity|]. cbn. repeat split; (lia || discriminate).
      * destruct (IH w) as (w' & m & tr' & E & Hm & H1 & _).
        unfold bind, ret. rewrite E.
        do 3 eexists. split; [reflexivity|]. cbn [Nat.add].
        split; [exact Hm|]. split; [exact H1 | discriminate].
Qed.

(** X21. The button of the bit-depth converter starts a worker only when
    none is running and the inputs are valid: a folder is given, it
    exists, and at least one bit depth is selected (so that every
    32-bit file will get at least one conversion).  It then clears the
    log, resets the progress bar and sets the flag.  A press that starts
    nothing leaves the window as it was; while a worker runs it does
    nothing at all, not even a validation; otherwise it shows one error
    box, for the first input found wrong: no folder, a folder that does
    not exist, no bit depth selected, in this order.  So any number of
    presses, no worker ending in between, starts at most one worker. *)
Theorem a_worker_starts_only_when_idle_and_valid :
  forall (w : Window) (fs : FS),
  exists w' started tr,
    start_conversion app w fs = (Ret (w', started), fs, tr)
    /\ (started = true
        <-> is_processing w = false
            /\ folder_path app <> ""
            /\ path_exists (folder_path app) fs = true
            /\ (convert_to_24bit app = true \/ convert_to_16bit app = true))
    /\ (started = false -> w' = w)
    /\ (started = true ->
        is_processing w' = true /\ log_text w' = [] /\ progress_value w' = 0
        /\ tr = []
        /\ forall f, targets app f <> [])
    /\ (is_processing w = true -> tr = [])
    /\ (is_processing w = false -> started = false ->
        exists msg,
          tr = [MessageBox ShowError "Error" msg]
          /\ (folder_path app = "" -> msg = "Please select a source folder")
          /\ (folder_path app <> "" -> path_exists (folder_path app) fs = false ->
              msg = "Selected folder does not exist")
          /\ (folder_path app <> "" -> path_exists (folder_path app) fs = true ->
              msg = "Please select at least one output bit depth (24-bit or 16-bit)"))
    /\ forall n,
       exists w'' m tr',
         wav_presses app n w fs = (Ret (w'', m), fs, tr')
         /\ m <= 1
         /\ (m = 1 -> is_processing w'' = true)
         /\ (is_processing w = true -> m = 0 /\ w'' = w /\ tr' = []).
Proof.
  intros w fs. pose proof (valid_inputs_spec fs) as Hvalid.
  pose proof (fun n => wav_presses_count n fs w) as Hpresses.
  destruct (start_conversion_run w fs) as (tr & E & Htr).
  destruct (is_processing w) eqn:Hp; cbn [negb andb] in E.
  - exists w, false, tr. split; [exact E|]. split.
    { split; [discriminate | intros (H & _); discriminate]. }
    split; [reflexivity|]. split; [discriminate|]. split; [now intros _|].
    split; [discriminate | exact Hpresses].
  - destruct (valid_inputs app fs) eqn:Ev.
    + do 2 eexists. exists tr. split; [exact E|]. split.
      { split; [intros _; split; [reflexivity | now apply Hvalid] | reflexivity]. }
      split; [discriminate|]. split.
      { intros _. cbn [is_processing log_text progress_value]. repeat split; [exact Htr|].
        intros f. destruct (proj1 Hvalid eq_refl) as (_ & _ & [H|H]);
          unfold targets; rewrite H; [discriminate|].
        destruct (convert_to_24bit app); discriminate. }
      split; [discriminate|]. split; [discriminate | exact Hpresses].
    + exists w, false, tr. split; [exact E|]. split.
      { split; [discriminate|]. intros (_ & H). apply Hvalid in H. discriminate. }
      split; [reflexivity|]. split; [discriminate|]. split; [discriminate|].
      split; [now intros _ _ | exact Hpresses].
Qed.

End WavButtonsFacts.

(* ================================================================== *)
(** * Facts about the simulated machine *)
(* ================================================================== *)

Import Sim.

Lemma lookup_filter_other (p q : string) (d : Disk) :
  q <> p -> lookup q (filter (fun e => negb (fst e =? p)) d) = lookup q d.
Proof.
  intros Hqp. induction d as [|[k n] d IH]; [reflexivity|].
  cbn [filter fst lookup]. destruct (String.eqb_spec k p) as [->|Hk]; cbn [negb lookup].
  - destruct (String.eqb_spec p q) as [->|_]; [contradiction | exact IH].
  - now rewrite IH.
Qed.

Lemma present_store_same (p : string) (n : Node) (d : Disk) :
  present p (store p n d) = true.
Proof. unfold present, store. cbn [lookup]. now rewrite String.eqb_refl. Qed.

Lemma present_store (p q : string) (n : Node) (d : Disk) :
  present q d = true -> present q (store p n d) = true.
Proof.
  unfold present, store. cbn [lookup]. destruct (String.eqb_spec p q) as [_|Hpq]; [reflexivity|].
  rewrite lookup_filter_other; [trivial | congruence].
Qed.

Lemma machine_writes_destination : ffmpeg_writes_destination (os := machine).
Proof.
  intros cmd fs err fs'. cbn [subprocess_run machine path_exists]. unfold sim_ffmpeg.
  destruct (lookup _ fs) as [[|content]|]; try discriminate.
  destruct (content =? "corrupt"); [discriminate|].
  destruct (present _ fs && _); [discriminate|].
  intros [= _ <-]. apply present_store_same.
Qed.

Lemma machine_deletes_nothing : nothing_deleted (os := machine).
Proof.
  split.
  - intros cmd fs p. cbn [subprocess_run machine path_exists]. unfold sim_ffmpeg.
    destruct (lookup _ fs) as [[|content]|]; cbn [snd]; auto.
    destruct (content =? "corrupt"); cbn [snd]; auto.
    destruct (present _ fs && _); cbn [snd]; auto. apply present_store.
  - intros q fs p. cbn [makedirs machine path_exists]. unfold sim_makedirs. cbn [snd].
    destruct (present q fs); auto. apply present_store.
Qed.

Lemma machine_makedirs_accepts : makedirs_accepts_existing (os := machine).
Proof. intros p fs _ _. reflexivity. Qed.

(* ================================================================== *)
(** * The scenarios *)
(* ================================================================== *)

Import Scenario.

(** Scenario A: [a/x.caf] and [a/b/y.caf] are planned beside themselves,
    or mirrored under [/out], and each is converted by one [ffmpeg] run. *)
Lemma albums_are_mirrored :
  map (fun caf => CafGui.planned (os := machine) (gui None false) caf None) album_files
  = [Some "/music/a/x.wav"; Some "/music/a/b/y.wav"]
  /\ map (fun caf => CafGui.planned (os := machine) (gui (Some "/out") false) caf
                       (Some "/out")) album_files
     = [Some "/out/a/x.wav"; Some "/out/a/b/y.wav"]
  /\ map (fun j => CafGui.status (snd j))
       (CafGui.jobs (value no_exit (caf_run (gui None false) never_cancelled album_files albums)))
     = ["success"; "success"]
  /\ count is_run (trace (caf_run (gui None false) never_cancelled album_files albums)) = 2.
Proof. repeat split. Qed.

(** C2, on the simulated machine: [x.caf] is already converted into the
    output folder. *)
Lemma existing_destination_is_skipped_witness :
  CafGui.convert_caf_to_wav (os := machine) (gui (Some "/out") false)
    "/music/a/x.caf" "24" (Some "/out") true albums_half_done
  = (Ret {| CafGui.wav_path := Some "/out/a/x.wav";
            CafGui.status := "skipped (already exists)"; CafGui.info := "" |},
     store "/out/a" Dir albums_half_done, [CallMakedirs "/out/a"]).
Proof.
  exact (proj1 (existing_destination_is_skipped (os := machine) (gui (Some "/out") false)
                  "/music/a/x.caf" "24" (Some "/out") true albums_half_done
                  "/out/a/x.wav" (store "/out/a" Dir albums_half_done)
                  [CallMakedirs "/out/a"] CafGui.no_counts eq_refl eq_refl eq_refl)).
Defined.

(** C2 fails for the bit-depth converter: [convert_file] writes over a
    destination that exists, no setting asking for it. *)
Lemma downconversion_overwrites_existing_destination :
  Sim.lookup "/music/24bit/f.wav" mixed_done = Some (File "OLD")
  /\ WavDepth.convert_file (os := machine) "/music/f.wav" "/music/24bit/f.wav" 24 mixed_done
     = (Ret true,
        store "/music/24bit/f.wav" (File "PCM_24")
          (store "/music/24bit" Dir mixed_done),
        [CallRead "/music/f.wav"; CallMakedirs "/music/24bit";
         CallWrite "/music/24bit/f.wav" "PCM_24"])
  /\ Sim.lookup "/music/24bit/f.wav"
       (disk_after (WavDepth.convert_file (os := machine)
                      "/music/f.wav" "/music/24bit/f.wav" 24 mixed_done))
     = Some (File "PCM_24")
  /\ map (fun j => (WavDepth.job_destination j, WavDepth.job_ok j))
       (value [] (depth_run mixed_done))
     = [("/music/24bit/f.wav", true); ("/music/16bit/f.wav", true)].
Proof. repeat split. Qed.

(** C3, on the simulated machine: two runs over the same two files. *)
Lemma second_run_skips_converted_files_witness :
  let first := caf_run (gui None false) never_cancelled album_files albums in
  let second := caf_run (gui None false) never_cancelled album_files (disk_after first) in
  CafGui.status (job_of "/music/a/x.caf" first) = "success"
  /\ CafGui.status (job_of "/music/a/x.caf" second) = "skipped (already exists)"
  /\ CafGui.kind_of (CafGui.status (job_of "/music/a/x.caf" second)) = CafGui.Skipped.
Proof.
  split; [reflexivity|].
  exact (second_run_skips_converted_files (os := machine) (gui None false) eq_refl
           machine_writes_destination machine_deletes_nothing machine_makedirs_accepts
           never_cancelled never_cancelled "24" true 2 2 0 0 album_files album_files
           CafGui.no_counts CafGui.no_counts albums _ _ _ _ _ _ eq_refl eq_refl
           "/music/a/x.caf"
           (job_of "/music/a/x.caf"
              (caf_run (gui None false) never_cancelled album_files albums))
           (job_of "/music/a/x.caf"
              (caf_run (gui None false) never_cancelled album_files
                 (disk_after (caf_run (gui None false) never_cancelled album_files albums))))
           (or_introl eq_refl) eq_refl (or_introl eq_refl)).
Defined.

(** C3 fails for the bit-depth converter: a second run converts the same
    file with success again, writing both destinations anew. *)
Lemma downconversion_second_run_converts_again :
  let first := depth_run mixed in
  let second := depth_run (disk_after first) in
  map (fun j => (WavDepth.job_source j, WavDepth.job_bits j, WavDepth.job_ok j))
    (value [] first)
  = [("/music/f.wav", 24%Z, true); ("/music/f.wav", 16%Z, true)]
  /\ map (fun j => (WavDepth.job_source j, WavDepth.job_bits j, WavDepth.job_ok j))
       (value [] second)
     = [("/music/f.wav", 24%Z, true); ("/music/f.wav", 16%Z, true)]
  /\ count is_write (trace second) = 2.
Proof. repeat split. Qed.

(** C4, on the simulated machine: five files, the flag cleared while the
    first is converted.  One file is attempted, four are not, and [ffmpeg]
    ran once. *)
Lemma flag_is_polled_before_each_job_witness :
  let r := caf_run (gui None false) (cancel_after 1) five_files five in
  let x := value no_exit r in
  count is_poll (trace r) = List.length (CafGui.jobs x) + (if CafGui.cancelled x then 1 else 0)
  /\ count is_run (trace r) <= List.length (CafGui.jobs x)
  /\ (forall k, k < List.length (CafGui.jobs x) -> cancel_after 1 (0 + k) = true)
  /\ (CafGui.cancelled x = true ->
      cancel_after 1 (0 + List.length (CafGui.jobs x)) = false
      /\ List.length (CafGui.jobs x) < List.length five_files
      /\ exists tr1,
           trace r = (tr1 ++ [PollRunning false; Log (NL ++ "❌ Cancelled" ++ NL)])%list)
  /\ (forall n,
        n < List.length five_files ->
        (forall k, k < n -> cancel_after 1 (0 + k) = true) ->
        cancel_after 1 (0 + n) = false ->
        CafGui.cancelled x = true
        /\ map fst (CafGui.jobs x) = firstn n five_files
        /\ List.length (CafGui.jobs x) = n).
Proof.
  exact (flag_is_polled_before_each_job (os := machine) (gui None false) (cancel_after 1)
           "24" true 5 0 five_files CafGui.no_counts five).
Defined.

(** Scenario D in full: cancelled after job 1 of 5. *)
Lemma cancelled_after_the_first_of_five :
  let r := caf_run (gui None false) (cancel_after 1) five_files five in
  CafGui.cancelled (value no_exit r) = true
  /\ map fst (CafGui.jobs (value no_exit r)) = ["/music/1.caf"]
  /\ List.length five_files - List.length (CafGui.jobs (value no_exit r)) = 4
  /\ count is_run (trace r) = 1
  /\ count is_poll (trace r) = 2.
Proof. repeat split. Qed.

(** C4 fails for the bit-depth converter: [process_files] reads no flag;
    here it attempts four jobs and polls none. *)
Lemma downconversion_never_polls :
  List.length (value [] (depth_run floats)) = 4
  /\ count is_write (trace (depth_run floats)) = 4
  /\ count is_poll (trace (depth_run floats)) = 0.
Proof. repeat split. Qed.

(** C5 fails: the scan of the CAF converter accepts [a.caf] and [a.CAF],
    both are planned to [a.wav], and nothing notices before [ffmpeg] has
    run for the first; the second is then skipped. *)
Lemma twin_sources_share_a_destination :
  "/music/a.caf" <> "/music/a.CAF"
  /\ CafGui.find_caf_files (os := machine) "/music" twins = (Ret twin_files, twins, [])
  /\ CafGui.wav_beside "/music/a.caf" = "/music/a.wav"
  /\ CafGui.wav_beside "/music/a.CAF" = "/music/a.wav"
  /\ map (fun j => (fst j, CafGui.wav_path (snd j), CafGui.status (snd j)))
       (CafGui.jobs (value no_exit (caf_run (gui None false) never_cancelled twin_files twins)))
     = [("/music/a.caf", Some "/music/a.wav", "success");
        ("/music/a.CAF", Some "/music/a.wav", "skipped (already exists)")]
  /\ count is_run (trace (caf_run (gui None false) never_cancelled twin_files twins)) = 1.
Proof. repeat split. discriminate. Qed.

(** C7, the failing input: a file no decoder accepts, named
    [already exists.caf], its destination not on the disk.  [ffmpeg]
    returns 1 and names the file in its complaint; the test
    ["already exists" in result.stderr] of [convert_with_ffmpeg] takes the
    name for the refusal to overwrite, and the failed job is reported and
    counted as skipped, not as an error.  The check before the run, which
    asks the disk, found no destination. *)
Lemma failed_adapter_is_counted_as_skipped :
  let cmd := CafGui.ffmpeg_cmd false "/music/already exists.caf"
               "/music/already exists.wav" "24" true in
  let r := caf_run (gui None false) never_cancelled ["/music/already exists.caf"] unlucky in
  present "/music/already exists.wav" unlucky = false
  /\ present "/music/already exists.wav" (disk_after r) = false
  /\ fst (sim_ffmpeg cmd unlucky)
     = Completed 1 ("/music/already exists.caf: Invalid data found when processing input" ++ NL)
  /\ In (CallRun cmd) (trace r)
  /\ CafGui.status (job_of "/music/already exists.caf" r) = "skipped (already exists)"
  /\ CafGui.counts (value no_exit r)
     = {| CafGui.converted_count := 0; CafGui.skipped_count := 1; CafGui.error_count := 0 |}.
Proof. repeat split. cbn. auto 10. Qed.

(** C6 fails.  A float file and a 32-bit integer file get the same answer,
    32: the encoding is no part of it.  And a file in a subtype
    [get_bit_depth] does not know gets 0 without a word: [process_files]
    leaves it out, and neither the log nor a message box names it. *)
Lemma unknown_subtype_is_not_reported :
  WavDepth.get_bit_depth (os := machine) "/music/f.wav" floats
  = (Ret 32, floats, [CallInfo "/music/f.wav"])
  /\ WavDepth.get_bit_depth (os := machine) "/music/g.wav" floats
     = (Ret 32, floats, [CallInfo "/music/g.wav"])
  /\ WavDepth.get_bit_depth (os := machine) "/music/u.wav" foreign
     = (Ret 0, foreign, [CallInfo "/music/u.wav"])
  /\ map WavDepth.job_source (value [] (depth_run foreign)) = ["/music/f.wav"; "/music/f.wav"]
  /\ forallb silent_on_u (trace (depth_run foreign)) = true.
Proof. repeat split. Qed.

Lemma mixed_found : "/music/f.wav" <> "".
Proof. discriminate. Qed.

(** C8, on the simulated machine. *)
Lemma only_the_32bit_file_is_converted_witness :
  exists ok24 ok16 fs' tr,
    depth_run mixed
    = (Ret [{| WavDepth.job_source := "/music/f.wav";
               WavDepth.job_destination := "/music/24bit/f.wav";
               WavDepth.job_bits := 24; WavDepth.job_ok := ok24 |};
            {| WavDepth.job_source := "/music/f.wav";
               WavDepth.job_destination := "/music/16bit/f.wav";
               WavDepth.job_bits := 16; WavDepth.job_ok := ok16 |}], fs', tr)
    /\ In (Log "Found 2 WAV files") tr
    /\ In (Log "Found 1 32-bit WAV files to convert") tr
    /\ count is_read tr = 2
    /\ forallb quiet tr = true.
Proof.
  exact (only_the_32bit_file_is_converted (os := machine) depth_app mixed
           "/music/f.wav" "/music/s.wav" "FLOAT" ["/music/f.wav"; "/music/s.wav"]
           eq_refl eq_refl (or_introl eq_refl) eq_refl eq_refl eq_refl eq_refl mixed_found).
Defined.

(** C9, on the simulated machine: [a/x.caf] is planned under [/out], and
    the directory [/out/a] made. *)
Lemma destination_is_planned_from_the_source_witness :
  CafGui.plan_wav_path (os := machine) (gui (Some "/out") false) "/music/a/x.caf"
    (Some "/out") albums
  = (Ret "/out/a/x.wav", store "/out/a" Dir albums, [CallMakedirs "/out/a"]).
Proof.
  exact (proj1 (destination_is_planned_from_the_source (os := machine)
                  (gui (Some "/out") false) depth_app)
           "/music/a/x.caf" (Some "/out") "/out" "a/x.caf" albums eq_refl eq_refl).
Defined.

(** C10 fails where it says the input is not read: asked for 32 bits,
    [convert_file] reads the input first and then returns [False]. *)
Lemma convert_file_reads_before_rejecting :
  WavDepth.convert_file (os := machine) "/music/f.wav" "/music/32bit/f.wav" 32 mixed
  = (Ret false, mixed, [CallRead "/music/f.wav"]).
Proof. reflexivity. Qed.

(* ================================================================== *)
(** * More scenarios *)
(* ================================================================== *)

(** X3, on the simulated machine: the destination of [x.caf] is not
    [x.caf]. *)
Lemma no_destination_is_a_caf_file_witness :
  "/music/a/x.wav" <> "/music/a/x.caf".
Proof.
  exact (proj1 (no_destination_is_a_caf_file (os := machine) (gui None false))
           "/music/a/x.caf" None "/music/a/x.wav" "/music/a/x.caf" eq_refl eq_refl).
Defined.

(** X4, on the simulated machine: [a/x.caf] and [a/x.CAF] are mirrored to
    the same destination under [/out]. *)
Lemma mirrored_destinations_coincide_up_to_extension_witness :
  CafGui.planned (os := machine) (gui (Some "/out") false) "/music/a/x.caf" (Some "/out")
  = CafGui.planned (os := machine) (gui (Some "/out") false) "/music/a/x.CAF" (Some "/out")
  <-> fst (splitext "a/x.caf") = fst (splitext "a/x.CAF").
Proof.
  exact (mirrored_destinations_coincide_up_to_extension (os := machine)
           (gui (Some "/out") false) "/out" "/music/a/x.caf" "/music/a/x.CAF"
           "a/x.caf" "a/x.CAF" eq_refl eq_refl eq_refl).
Defined.

(** X7, for a decoder's complaint. *)
Lemma error_status_is_one_line_witness :
  let err := "x.caf: Invalid data found when processing input" ++ NL in
  let r := CafGui.ffmpeg_result "/music/x.wav" 1 err in
  CafGui.wav_path r = None
  /\ CafGui.info r = ""
  /\ CafGui.kind_of (CafGui.status r) = CafGui.Errored
  /\ one_line (CafGui.status r) = true
  /\ (err = "" -> CafGui.status r = "FFmpeg error: U n k n o w n   e r r o r")
  /\ (err <> "" ->
      exists earlier lines,
        split LF err = (earlier ++ lines)%list
        /\ List.length lines = Nat.min 3 (List.length (split LF err))
        /\ CafGui.status r = "FFmpeg error: " ++ join " " lines).
Proof.
  exact (error_status_is_one_line "/music/x.wav" 1
           ("x.caf: Invalid data found when processing input" ++ NL)
           ltac:(discriminate) eq_refl).
Defined.

(** The status of that failure, and of one that says nothing. *)
Lemma error_statuses :
  CafGui.status (CafGui.ffmpeg_result "/music/x.wav" 1
                   ("x.caf: Invalid data found when processing input" ++ NL))
  = "FFmpeg error: x.caf: Invalid data found when processing input "
  /\ CafGui.status (CafGui.ffmpeg_result "/music/x.wav" 1 "")
     = "FFmpeg error: U n k n o w n   e r r o r".
Proof. split; reflexivity. Qed.

(** X9, on the simulated machine: with overwriting on, [x.caf] is
    converted again over the file in the output folder. *)
Lemma overwriting_always_runs_ffmpeg_witness :
  exists r options,
    let cmd := (options ++ ["-y"; "/out/a/x.wav"])%list in
    CafGui.ffmpeg_cmd true "/music/a/x.caf" "/out/a/x.wav" "24" true = cmd
    /\ CafGui.convert_caf_to_wav (os := machine) (gui (Some "/out") true)
         "/music/a/x.caf" "24" (Some "/out") true albums_half_done
       = (Ret r, snd (sim_ffmpeg cmd (store "/out/a" Dir albums_half_done)),
          ([CallMakedirs "/out/a"] ++ [CallRun cmd])%list)
    /\ (forall rc err,
          fst (sim_ffmpeg cmd (store "/out/a" Dir albums_half_done)) = Completed rc err ->
          r = CafGui.ffmpeg_result "/out/a/x.wav" rc err)
    /\ (CafGui.status r = "skipped (already exists)" ->
        exists rc err,
          fst (sim_ffmpeg cmd (store "/out/a" Dir albums_half_done)) = Completed rc err
          /\ rc <> 0%Z /\ contains "already exists" err = true).
Proof.
  exact (overwriting_always_runs_ffmpeg (os := machine) (gui (Some "/out") true)
           "/music/a/x.caf" "24" (Some "/out") true albums_half_done
           "/out/a/x.wav" (store "/out/a" Dir albums_half_done) [CallMakedirs "/out/a"]
           eq_refl eq_refl eq_refl).
Defined.

(** ... and the job is a success. *)
Lemma overwritten_with_success :
  CafGui.status
    (value dummy_result
       (CafGui.convert_caf_to_wav (os := machine) (gui (Some "/out") true)
          "/music/a/x.caf" "24" (Some "/out") true albums_half_done))
  = "success".
Proof. reflexivity. Qed.

(** X13, on the simulated machine: five files, the flag cleared while the
    first is converted. *)
Lemma summary_follows_the_loop_witness :
  exists x fs' t pre,
    CafGui.conversion_loop (os := machine) (gui None false) (cancel_after 1) "24" true
      5 0 five_files CafGui.no_counts five = (Ret x, fs', t)
    /\ CafGui.conversion_thread (os := machine) (gui None false) (cancel_after 1) five
       = (Ret tt, fs',
          pre ++ t
          ++ [Log (NL ++ repeat_str "=" 60); Log "✓ COMPLETE";
              Log (CafGui.counts_line (CafGui.counts x)); ProgressLabel "Complete!";
              if (0 <? kind_count CafGui.Errored (CafGui.jobs x))%nat then
                MessageBox ShowWarning "Complete with Errors"
                  ("Converted: " ++ str_of_nat (kind_count CafGui.Success (CafGui.jobs x))
                   ++ NL ++ "Errors: "
                   ++ str_of_nat (kind_count CafGui.Errored (CafGui.jobs x)) ++ NL ++ NL
                   ++ "Check log for details.")
              else
                MessageBox ShowInfo "Complete"
                  ("Successfully converted "
                   ++ str_of_nat (kind_count CafGui.Success (CafGui.jobs x))
                   ++ " file(s)!");
              ButtonReset "START CONVERSION"])%list
    /\ In (ProgressMaximum 5) pre
    /\ (CafGui.cancelled x = true ->
        exists t1, t = (t1 ++ [PollRunning false; Log (NL ++ "❌ Cancelled" ++ NL)])%list).
Proof.
  exact (summary_follows_the_loop (os := machine) (gui None false) (cancel_after 1) five
           "/music/1.caf" ["/music/2.caf"; "/music/3.caf"; "/music/4.caf"; "/music/5.caf"]
           eq_refl eq_refl).
Defined.

(** The end of that run: cancelled, and complete. *)
Lemma cancelled_run_reports_complete :
  last_n 7 (trace (CafGui.conversion_thread (os := machine) (gui None false)
                     (cancel_after 1) five))
  = [Log (NL ++ "❌ Cancelled" ++ NL);
     Log (NL ++ repeat_str "=" 60); Log "✓ COMPLETE";
     Log "Converted: 1 | Skipped: 0 | Errors: 0"; ProgressLabel "Complete!";
     MessageBox ShowInfo "Complete" "Successfully converted 1 file(s)!";
     ButtonReset "START CONVERSION"].
Proof. reflexivity. Qed.

(** X15, on the simulated machine. *)
Lemma each_32bit_file_is_converted_to_each_selected_depth_witness :
  exists js fs' tr,
    WavDepth.process_files (os := machine) depth_app mixed = (Ret js, fs', tr)
    /\ map job_plan js
       = flat_map (targets depth_app)
           (filter (fun f => (depth_at (os := machine) mixed f =? 32)%nat)
              ["/music/f.wav"; "/music/s.wav"])
    /\ List.length js
       = List.length (filter (fun f => (depth_at (os := machine) mixed f =? 32)%nat)
                        ["/music/f.wav"; "/music/s.wav"])
         * selected_depths depth_app
    /\ count is_info tr = 2
    /\ count is_read tr = List.length js
    /\ count is_write tr <= List.length js.
Proof.
  exact (each_32bit_file_is_converted_to_each_selected_depth (os := machine) depth_app mixed
           ["/music/f.wav"; "/music/s.wav"] eq_refl).
Defined.

(** A folder that cannot be listed: the run reports the error and
    converts nothing. *)
Lemma unlistable_folder_is_reported :
  WavDepth.process_files (os := locked) depth_app mixed
  = (Ret [], mixed,
     [Log "Scanning folder: /music"; Log "Include subdirectories: False";
      Log (repeat_str "-" 50);
      Log "Error during processing: [Errno 13] Permission denied: '/music'";
      MessageBox ShowError "Error"
        "An error occurred: [Errno 13] Permission denied: '/music'";
      ButtonReset "Start Conversion"]).
Proof. reflexivity. Qed.

(** X18, on the simulated machine: an answer of a space, a no-break space
    and an ideographic space. *)
Lemma blank_answer_selects_the_current_directory_witness :
  PurePath.to_str (PurePath.parse (strip blank_answer)) = "."
  /\ CafCli.main (os := machine) blank_answer albums = CafCli.main (os := machine) "." albums.
Proof.
  exact (proj2 (blank_answer_selects_the_current_directory (os := machine))
           blank_answer albums eq_refl).
Defined.

(** The labels of two folders with Japanese names: the one of 34
    characters (78 bytes) is shown in full, the one of 60 characters by
    its last 57, or 47. *)
Lemma labels_count_characters :
  String.length tokyo = 78 /\ len tokyo = 34 /\ len tokyo_final = 60
  /\ CafButtons.text (CafButtons.dir_label
                        (CafButtons.browse_directory tokyo CafButtons.initial))
     = tokyo
  /\ CafButtons.text (CafButtons.dir_label
                        (CafButtons.browse_directory tokyo_final CafButtons.initial))
     = "...me/マリア/音楽/録音/ライブ/二〇二四年/東京/セッション/テイク/マスター音源/最終版/ミックスダウン/完成"
  /\ CafButtons.text (CafButtons.output_dir_label
                        (CafButtons.browse_output_directory tokyo_final CafButtons.initial))
     = "...録音/ライブ/二〇二四年/東京/セッション/テイク/マスター音源/最終版/ミックスダウン/完成".
Proof. repeat split. Qed.

(** Three quick presses of the button of the CAF converter start two
    workers and leave the flag set. *)
Lemma three_presses_start_two_workers :
  let w := CafButtons.browse_directory "/music" CafButtons.initial in
  snd (caf_presses 3 w) = 2
  /\ CafButtons.conversion_running (fst (caf_presses 3 w)) = true.
Proof. split; reflexivity. Qed.
